(** * Notebook chat edit strategy and SCM tree view: a shallow embedding

    The development follows two source files of the workbench:

    - [notebookChatController.ts]: [EditStrategy] (undo stops, the cursor
      state computer of [makeChanges], [apply], [cancel]) and the request
      life cycle of [NotebookChatController.acceptInput];
    - [scmViewPane.ts]: [SCMTreeSorter.compare], [getSCMResourceId] and
      [SCMTreeDataSource] ([hasChildren], [getHistoryItemGroups],
      [getHistoryItemChanges]).

    Numbers are JavaScript numbers holding integers; they are modelled by [Z].
    Exceptions are modelled by an explicit result type. *)

From Stdlib Require Import ZArith List Bool Ascii Lia.
From stdpp Require Import base option list strings gmap.
From Equations Require Import Equations.

Set Default Proof Using "Type".

(** ** Results of code that may throw *)

Inductive Completion (E A : Type) : Type :=
| Returned (a : A)
| Thrown (e : E).
Arguments Returned {E A} a.
Arguments Thrown {E A} e.

Definition bindC {E A B} (c : Completion E A) (k : A -> Completion E B) : Completion E B :=
  match c with
  | Returned a => k a
  | Thrown e => Thrown e
  end.

Notation "'try!' x <- c ; k" := (bindC c (fun x => k))
  (at level 10, x name, c at level 100, k at level 200).

Definition isReturned {E A} (c : Completion E A) : bool :=
  match c with Returned _ => true | Thrown _ => false end.

(** ** Editor core values: positions, ranges, selections *)

Module Position.
(** Modelled from the spec: [Position] of [vs/editor/common/core/position.ts]
    is imported, not defined, by the controller. [isBefore] is the strict
    "is before" test on (line, column); equal positions are not before one
    another. *)
Record t : Type := mk { lineNumber : Z; column : Z }.

Definition isBefore (a b : t) : bool :=
  if (lineNumber a <? lineNumber b)%Z then true
  else if (lineNumber b <? lineNumber a)%Z then false
  else (column a <? column b)%Z.
End Position.

Module Range.
Record t : Type := mk {
  startLineNumber : Z; startColumn : Z;
  endLineNumber : Z; endColumn : Z }.

Definition getEndPosition (r : t) : Position.t :=
  Position.mk (endLineNumber r) (endColumn r).
End Range.

Module Selection.
Record t : Type := mk {
  selectionStartLineNumber : Z; selectionStartColumn : Z;
  positionLineNumber : Z; positionColumn : Z }.

(** [Selection.fromPositions(start, end = start)] *)
Definition fromPositions (start : Position.t) (end_ : option Position.t) : t :=
  let e := default start end_ in
  mk (Position.lineNumber start) (Position.column start)
     (Position.lineNumber e) (Position.column e).
End Selection.

(** An edit operation as the editor hands it around: a range and the text
    that replaces it ([null] text deletes). *)
Record ISingleEditOperation : Type := mkEdit {
  range : Range.t;
  text : option string }.

(** ** The host text model

    Modelled from the spec: [ITextModel] ([isDisposed],
    [getAlternativeVersionId], [canUndo], [undo], [pushStackElement] and the
    application of edit operations) belongs to the host editor and is not under
    src/. The model below keeps what [EditStrategy] observes: the buffer
    content, the version id (which only grows), the alternative version id
    (which an undo sets back to its value before the undone edits) and the
    undo stack. Edits made while the top undo element is open join that
    element; an undo stop closes it. *)

Module TextModel.
Record UndoElement : Type := mkUndo {
  beforeContent : string;
  beforeAlternativeVersionId : Z }.

Record t : Type := mk {
  disposed : bool;
  content : string;
  versionId : Z;
  alternativeVersionId : Z;
  undoStack : list UndoElement;
  openElement : bool }.

Definition isDisposed (m : t) : bool := disposed m.
Definition getAlternativeVersionId (m : t) : Z := alternativeVersionId m.
Definition getValue (m : t) : string := content m.

Definition canUndo (m : t) : bool :=
  match undoStack m with [] => false | _ :: _ => true end.

Definition pushStackElement (m : t) : t :=
  mk (disposed m) (content m) (versionId m) (alternativeVersionId m)
     (undoStack m) false.

(** One batch of edit operations changes the content to [newContent]. *)
Definition pushEditOperations (newContent : string) (m : t) : t :=
  let v := (versionId m + 1)%Z in
  let stack :=
    if openElement m && canUndo m then undoStack m
    else mkUndo (content m) (alternativeVersionId m) :: undoStack m in
  mk (disposed m) newContent v v stack true.

Definition undo (m : t) : t :=
  match undoStack m with
  | [] => m
  | u :: rest =>
      mk (disposed m) (beforeContent u) (versionId m + 1)%Z
         (beforeAlternativeVersionId u) rest false
  end.
End TextModel.

(** ** The inline chat session, as far as [EditStrategy] reads it *)

Record UntitledTextModel : Type := mkUntitled {
  untitledDisposed : bool;
  untitledDirty : bool }.

Inductive Response : Type :=
| ReplyResponse (responseType : string) (untitledTextModel : option UntitledTextModel)
| ErrorResponse (error : string)
| EmptyResponse.

Record SessionExchange : Type := mkExchange {
  prompt : string;
  response : Response }.

Record Session : Type := mkSession {
  textModelN : TextModel.t;
  textModelNAltVersion : Z;
  textModelNSnapshotAltVersion : option Z;
  inputs : list string;
  exchanges : list SessionExchange }.

Definition lastExchange (s : Session) : option SessionExchange := last (exchanges s).
Definition lastInput (s : Session) : option string := last (inputs s).

Definition withTextModelN (s : Session) (m : TextModel.t) : Session :=
  mkSession m (textModelNAltVersion s) (textModelNSnapshotAltVersion s)
            (inputs s) (exchanges s).

(** ** The code editor seen by [EditStrategy]

    The editor owns a text model; every call [EditStrategy] makes on it is
    also recorded, in order, so that undo stops can be counted. *)

Inductive EditorCall : Type :=
| PushUndoStop
| ExecuteEdits (source : string) (edits : list ISingleEditOperation)
| PerformAsyncTextEdit (edit : ISingleEditOperation) (duration : Z)
| SaveUntitled.

Record Editor : Type := mkEditor {
  getModel : TextModel.t;
  calls : list EditorCall }.

Record ProgressingEditsOptions : Type := mkOpts {
  duration : Z;
  tokenCancelled : bool }.

Module EditStrategy.
Section WithHost.
(** The host's application of a batch of edit operations to a buffer. *)
Variable applyEdits : list ISingleEditOperation -> string -> string.

(** [_editCount] is a JavaScript number; [++] is exact below 2^53 and
    leaves the value unchanged from there on. *)
Definition increment (n : Z) : Z :=
  if (n <? 2 ^ 53)%Z then (n + 1)%Z else n.

Record t : Type := mk { _editCount : Z }.

Definition create : t := mk 0.

Definition pushUndoStop (ed : Editor) : Editor :=
  mkEditor (TextModel.pushStackElement (getModel ed)) (calls ed ++ [PushUndoStop]).

(** The body of the [for] loop of the cursor state computer. *)
Definition cursorStep (last : option Position.t) (edit : ISingleEditOperation)
  : option Position.t :=
  let e := Range.getEndPosition (range edit) in
  match last with
  | None => Some e
  | Some l => if Position.isBefore l e then Some e else Some l
  end.

(** [cursorStateComputerAndInlineDiffCollection] *)
Definition cursorStateComputer (undoEdits : list ISingleEditOperation)
  : option (list Selection.t) :=
  let last := fold_left cursorStep undoEdits None in
  match last with
  | None => None
  | Some l => Some [Selection.fromPositions l None]
  end.

Definition executeEdits (source : string) (edits : list ISingleEditOperation)
    (ed : Editor) : Editor :=
  let m := getModel ed in
  mkEditor (TextModel.pushEditOperations (applyEdits edits (TextModel.content m)) m)
           (calls ed ++ [ExecuteEdits source edits]).

(** Modelled from the spec: [performAsyncTextEdit] and [asProgressiveEdit] are
    imported from the inline chat utilities. A progressive edit reveals its
    text piece by piece and honours cancellation; the model keeps the two
    ends of that: the whole edit lands, or, the token being cancelled,
    nothing of it does. Pacing is not modelled. *)
Definition performAsyncTextEdit (edit : ISingleEditOperation)
    (opts : ProgressingEditsOptions) (ed : Editor) : Editor :=
  let m := getModel ed in
  mkEditor (if tokenCancelled opts then m
            else TextModel.pushEditOperations (applyEdits [edit] (TextModel.content m)) m)
           (calls ed ++ [PerformAsyncTextEdit edit (duration opts)]).

Definition makeProgressiveChanges (s : t) (ed : Editor)
    (edits : list ISingleEditOperation) (opts : ProgressingEditsOptions)
  : t * Editor :=
  let n := increment (_editCount s) in
  let ed1 := if (n =? 1)%Z then pushUndoStop ed else ed in
  (mk n, fold_left (fun e edit => performAsyncTextEdit edit opts e) edits ed1).

Definition makeChanges (s : t) (ed : Editor) (edits : list ISingleEditOperation)
  : t * Editor :=
  let n := increment (_editCount s) in
  let ed1 := if (n =? 1)%Z then pushUndoStop ed else ed in
  (mk n, executeEdits "inline-chat-live" edits ed1).

Definition apply (s : t) (session : Session) (ed : Editor) : Editor :=
  let ed1 := if (0 <? _editCount s)%Z then pushUndoStop ed else ed in
  match lastExchange session with
  | Some (mkExchange _ (ReplyResponse _ (Some u))) =>
      if negb (untitledDisposed u) && untitledDirty u
      then mkEditor (getModel ed1) (calls ed1 ++ [SaveUntitled])
      else ed1
  | _ => ed1
  end.

(** The calls a controller makes on one strategy. *)
Inductive Call : Type :=
| MakeChanges (edits : list ISingleEditOperation)
| MakeProgressiveChanges (edits : list ISingleEditOperation)
                         (opts : ProgressingEditsOptions).

Definition call (st : t * Editor) (c : Call) : t * Editor :=
  match c with
  | MakeChanges edits => makeChanges (fst st) (snd st) edits
  | MakeProgressiveChanges edits opts => makeProgressiveChanges (fst st) (snd st) edits opts
  end.

Definition run (cs : list Call) (st : t * Editor) : t * Editor :=
  fold_left call cs st.
End WithHost.

(** The value of the loop condition is kept with its equation, for the
    termination argument. *)
Definition inspect {A} (a : A) : {b | a = b} := exist _ a eq_refl.

(** The [while] loop of [cancel]: undo while the model is past the target
    version and an undo step is available. Each undo pops the stack. *)
Equations? cancelLoop (targetAltVersion : Z) (modelN : TextModel.t) : TextModel.t
  by wf (length (TextModel.undoStack modelN)) lt :=
  cancelLoop targetAltVersion modelN
    with inspect ((targetAltVersion <? TextModel.getAlternativeVersionId modelN)%Z
                  && TextModel.canUndo modelN) := {
    | exist _ true _ => cancelLoop targetAltVersion (TextModel.undo modelN)
    | exist _ false _ => modelN }.
Proof.
  unfold TextModel.canUndo, TextModel.undo in *.
  destruct (TextModel.undoStack modelN); simpl in *.
  - rewrite andb_false_r in *. discriminate.
  - lia.
Qed.

Definition cancel (session : Session) : Session :=
  let modelN := textModelN session in
  if TextModel.isDisposed modelN then session
  else
    let targetAltVersion :=
      default (textModelNAltVersion session) (textModelNSnapshotAltVersion session) in
    withTextModelN session (cancelLoop targetAltVersion modelN).
End EditStrategy.

(** ** [NotebookChatController.acceptInput]

    The method is asynchronous; its awaited steps are modelled by their
    outcomes, taken in the order the method awaits them. A rejected promise and
    an exception thrown inside the [try] block are both [Thrown]. *)

Module NotebookChatController.
Record Widget : Type := mkWidget {
  inlineChatValue : string;
  parentEditorHasModel : bool }.

Record t : Type := mk {
  _activeSession : option Session;
  _widget : option Widget;
  _ctxHasActiveRequest : bool;
  _ctxLastResponseType : option string }.

Record Reply : Type := mkReply {
  replyType : string;
  replyUntitledTextModel : option UntitledTextModel }.

(** A task: the promise a provider returns, given by the way it settles. *)
Definition Task : Type := Completion string (option Reply).

(** Outcomes of the provider call and of the awaited steps of one request. *)
Record Request : Type := mkRequest {
  (** [provider.provideResponse(...)]: the task, unless the call itself throws *)
  provideResponse : Completion string Task;
  (** [progress.drain()] *)
  drained : Completion string unit;
  (** the catch-up loop over [allLocalEdits] through [_makeChanges] *)
  catchUpEdits : Completion string unit;
  (** [provideFollowups(...)] *)
  followups : Completion string unit }.

Definition setHasActiveRequest (b : bool) (c : t) : t :=
  mk (_activeSession c) (_widget c) b (_ctxLastResponseType c).

Section WithAssertType.
(** [assertType] is imported from [vs/base/common/types]: it throws an error
    on a falsy value; the message of that error is [unexpectedType]. *)
Variable unexpectedType : string.

Definition assertType {A} (o : option A) : Completion string A :=
  match o with
  | Some a => Returned a
  | None => Thrown unexpectedType
  end.

Definition addInput (p : string) (s : Session) : Session :=
  mkSession (textModelN s) (textModelNAltVersion s) (textModelNSnapshotAltVersion s)
            (inputs s ++ [p]) (exchanges s).

Definition addExchange (x : SessionExchange) (s : Session) : Session :=
  mkSession (textModelN s) (textModelNAltVersion s) (textModelNSnapshotAltVersion s)
            (inputs s) (exchanges s ++ [x]).

(** The [try] block: the value assigned to [response] when no step throws.
    The task is awaited first, raced against the request's token. *)
Definition tryBlock (task : Task) (r : Request) : Completion string Response :=
  try! reply <- task;
  try! _ <- drained r;
  match reply with
  | None => Returned EmptyResponse
  | Some rep =>
      try! _ <- catchUpEdits r;
      try! _ <- followups r;
      Returned (ReplyResponse (replyType rep) (replyUntitledTextModel rep))
  end.

(** [try { ... } catch (e) { response = new ErrorResponse(e) }] *)
Definition tryCatch (task : Task) (r : Request) : Response :=
  match tryBlock task r with
  | Returned resp => resp
  | Thrown e => ErrorResponse e
  end.

Definition responseType (resp : Response) : option string :=
  match resp with
  | ReplyResponse ty _ => Some ty
  | _ => None
  end.

(** The result pairs the controller after the call with the way the call
    completed: [Returned tt], or [Thrown e] when [e] leaves [acceptInput]. *)
Definition acceptInput (r : Request) (c : t) : t * Completion string unit :=
  match assertType (_activeSession c), assertType (_widget c) with
  | Thrown e, _ => (c, Thrown e)
  | _, Thrown e => (c, Thrown e)
  | Returned session, Returned widget =>
      let session1 := addInput (inlineChatValue widget) session in
      let c1 := mk (Some session1) (_widget c) (_ctxHasActiveRequest c)
                   (_ctxLastResponseType c) in
      match assertType (lastInput session1) with
      | Thrown e => (c1, Thrown e)
      | Returned value =>
          if negb (parentEditorHasModel widget) then (c1, Returned tt)
          else
            (* request in flight *)
            let c2 := setHasActiveRequest true c1 in
            (* the provider is called before the [try] statement *)
            match provideResponse r with
            | Thrown e => (c2, Thrown e)
            | Returned task =>
                (* try / catch *)
                let c3 := setHasActiveRequest true c2 in
                let response := tryCatch task r in
                (* finally *)
                let c4 := setHasActiveRequest false c3 in
                (* after the try statement *)
                let c5 := setHasActiveRequest false c4 in
                let session2 := addExchange (mkExchange value response) session1 in
                (mk (Some session2) (_widget c5) (_ctxHasActiveRequest c5)
                    (responseType response),
                 Returned tt)
            end
      end
  end.
End WithAssertType.
End NotebookChatController.

(** ** The SCM view: tree elements

    [TreeElement] is the union declared at the top of [scmViewPane.ts]. The
    type guards ([isSCMRepository], ...) are imported from [./util]; on the
    tagged union they test the constructor. *)

Module SCM.
Record URI : Type := mkURI {
  uri_toString : string;
  fsPath : string }.

Inductive ShowChangesSetting : Type := always | never | auto.
Inductive ViewMode : Type := ViewModeList | ViewModeTree.
Inductive ViewSortKey : Type := SortPath | SortName | SortStatus.
Inductive Direction : Type := incoming | outgoing.
Inductive HistoryItemType : Type := allChanges | historyItem.

Record Ancestor : Type := mkAncestor {
  ancestor_id : string;
  ahead : Z;
  behind : Z }.

Record HistoryItemGroupBase : Type := mkBase {
  base_id : string;
  base_label : string }.

Record CurrentHistoryItemGroup : Type := mkCurrent {
  current_id : string;
  current_label : string;
  base : option HistoryItemGroupBase }.

Record ISCMHistoryItemChange : Type := mkChange {
  change_uri : URI }.

Record ISCMHistoryProvider : Type := mkHistoryProvider {
  currentHistoryItemGroup : option CurrentHistoryItemGroup;
  resolveHistoryItemGroupCommonAncestor : string -> option string -> option Ancestor;
  provideHistoryItemChanges : string -> option string -> option (list ISCMHistoryItemChange) }.

Record ISCMProvider : Type := mkProvider {
  provider_id : string;
  historyProvider : option ISCMHistoryProvider }.

(** [repository_id] stands for the identity of the repository object, by
    which the history provider cache is keyed. *)
Record ISCMRepository : Type := mkRepository {
  repository_id : string;
  repository_provider : ISCMProvider }.

Record ISCMInput : Type := mkInput {
  input_repository : ISCMRepository;
  input_value : string }.

Record ISCMActionButton : Type := mkActionButton {
  button_repository : ISCMRepository }.

Record ISCMResourceGroup : Type := mkResourceGroup {
  group_provider : ISCMProvider;
  group_id : string;
  group_label : string }.

Record ISCMResource : Type := mkResource {
  resourceGroup : ISCMResourceGroup;
  sourceUri : URI;
  decorations_tooltip : option string }.

(** [IResourceNode<T, C>]: a folder node of a [ResourceTree] with context [C]. *)
Record IResourceNode (C : Type) : Type := mkNode {
  node_context : C;
  node_uri : URI;
  node_name : string;
  childrenCount : Z }.
Arguments mkNode {C}.
Arguments node_context {C}.
Arguments node_uri {C}.
Arguments node_name {C}.
Arguments childrenCount {C}.

Record SCMHistoryItemGroupTreeElement : Type := mkHistoryItemGroup {
  hig_id : string;
  hig_label : string;
  hig_ariaLabel : string;
  hig_direction : Direction;
  hig_ancestor : option string;
  hig_count : option Z;
  hig_repository : ISCMRepository }.

Record SCMHistoryItemTreeElement : Type := mkHistoryItem {
  hi_id : string;
  hi_parentIds : list string;
  hi_label : string;
  historyItemGroup : SCMHistoryItemGroupTreeElement;
  hi_type : HistoryItemType }.

Record SCMHistoryItemChangeTreeElement : Type := mkHistoryItemChange {
  hic_uri : URI;
  hic_historyItem : SCMHistoryItemTreeElement }.

Record SCMViewSeparatorElement : Type := mkSeparator {
  separator_label : string;
  separator_ariaLabel : string;
  separator_repository : ISCMRepository }.

Inductive TreeElement : Type :=
| Repository (e : ISCMRepository)
| Input (e : ISCMInput)
| ActionButton (e : ISCMActionButton)
| ResourceGroup (e : ISCMResourceGroup)
| Resource (e : ISCMResource)
| ResourceNode (e : IResourceNode ISCMResourceGroup)
| HistoryItemGroup (e : SCMHistoryItemGroupTreeElement)
| HistoryItem (e : SCMHistoryItemTreeElement)
| HistoryItemChange (e : SCMHistoryItemChangeTreeElement)
| HistoryItemChangeNode (e : IResourceNode SCMHistoryItemTreeElement)
| Separator (e : SCMViewSeparatorElement).

(** The kinds of the union, for statements that speak of "kind". *)
Inductive Kind : Type :=
| KRepository | KInput | KActionButton | KResourceGroup | KResource
| KResourceNode | KHistoryItemGroup | KHistoryItem | KHistoryItemChange
| KHistoryItemChangeNode | KSeparator.

Definition kind (e : TreeElement) : Kind :=
  match e with
  | Repository _ => KRepository
  | Input _ => KInput
  | ActionButton _ => KActionButton
  | ResourceGroup _ => KResourceGroup
  | Resource _ => KResource
  | ResourceNode _ => KResourceNode
  | HistoryItemGroup _ => KHistoryItemGroup
  | HistoryItem _ => KHistoryItem
  | HistoryItemChange _ => KHistoryItemChange
  | HistoryItemChangeNode _ => KHistoryItemChangeNode
  | Separator _ => KSeparator
  end.

#[global] Instance Kind_eq_dec : EqDecision Kind.
Proof. solve_decision. Defined.

(** *** Type guards (from [./util]) *)

Definition isSCMRepository (e : TreeElement) : bool :=
  match e with Repository _ => true | _ => false end.
Definition isSCMInput (e : TreeElement) : bool :=
  match e with Input _ => true | _ => false end.
Definition isSCMActionButton (e : TreeElement) : bool :=
  match e with ActionButton _ => true | _ => false end.
Definition isSCMResourceGroup (e : TreeElement) : bool :=
  match e with ResourceGroup _ => true | _ => false end.
Definition isSCMResource (e : TreeElement) : bool :=
  match e with Resource _ => true | _ => false end.
Definition isSCMResourceNode (e : TreeElement) : bool :=
  match e with ResourceNode _ => true | _ => false end.
Definition isSCMHistoryItemGroupTreeElement (e : TreeElement) : bool :=
  match e with HistoryItemGroup _ => true | _ => false end.
Definition isSCMHistoryItemTreeElement (e : TreeElement) : bool :=
  match e with HistoryItem _ => true | _ => false end.
Definition isSCMHistoryItemChangeTreeElement (e : TreeElement) : bool :=
  match e with HistoryItemChange _ => true | _ => false end.
Definition isSCMHistoryItemChangeNode (e : TreeElement) : bool :=
  match e with HistoryItemChangeNode _ => true | _ => false end.
Definition isSCMViewSeparator (e : TreeElement) : bool :=
  match e with Separator _ => true | _ => false end.

(** [ResourceTree.isResourceNode]: any folder node, whatever its context. *)
Definition isResourceNode (e : TreeElement) : bool :=
  match e with ResourceNode _ | HistoryItemChangeNode _ => true | _ => false end.

(** *** Property reads on an element of unknown kind

    A cast such as [(one as ISCMResource).sourceUri] reads a property that
    the object may not have; the read yields [undefined] ([None]) and a
    further dereference raises a [TypeError]. *)

Inductive CompareError : Type :=
| InvalidComparison   (* [throw new Error('Invalid comparison')] *)
| TypeError.          (* a property read on [undefined] *)

Definition prop_sourceUri (e : TreeElement) : option URI :=
  match e with Resource r => Some (sourceUri r) | _ => None end.

Definition prop_uri (e : TreeElement) : option URI :=
  match e with
  | ResourceNode n => Some (node_uri n)
  | HistoryItemChangeNode n => Some (node_uri n)
  | HistoryItemChange c => Some (hic_uri c)
  | _ => None
  end.

Definition prop_name (e : TreeElement) : option string :=
  match e with
  | ResourceNode n => Some (node_name n)
  | HistoryItemChangeNode n => Some (node_name n)
  | _ => None
  end.

(** [decorations] is an object on a resource and absent elsewhere; its
    [tooltip] may be undefined. *)
Definition prop_decorations (e : TreeElement) : option (option string) :=
  match e with Resource r => Some (decorations_tooltip r) | _ => None end.

Definition deref {A} (o : option A) : Completion CompareError A :=
  match o with
  | Some a => Returned a
  | None => Thrown TypeError
  end.

(** *** [SCMTreeSorter.compare] *)

Section Sorter.
(** Imported helpers: [basename] of [vs/base/common/resources],
    [compareFileNames] and [comparePaths] of [vs/base/common/comparers],
    [compare] of [vs/base/common/strings]. *)
Variable basename : URI -> string.
Variable compareFileNames : string -> string -> Z.
Variable comparePaths : string -> string -> Z.
Variable compareStrings : string -> string -> Z.

Variable viewMode : ViewMode.
Variable viewSortKey : ViewSortKey.

Definition isList : bool :=
  match viewMode with ViewModeList => true | ViewModeTree => false end.

(** [isResourceNode(x) ? x.name : basename(x.<uriProp>)] *)
Definition nameOrBasename (isNode : TreeElement -> bool)
    (uriProp : TreeElement -> option URI) (x : TreeElement)
  : Completion CompareError string :=
  if isNode x then deref (prop_name x)
  else try! u <- deref (uriProp x); Returned (basename u).

Definition compareHistoryItemChanges (one other : TreeElement)
  : Completion CompareError Z :=
  if isList then
    if negb (isSCMHistoryItemChangeTreeElement other) then Thrown InvalidComparison
    else
      try! u1 <- deref (prop_uri one);
      try! u2 <- deref (prop_uri other);
      Returned (comparePaths (fsPath u1) (fsPath u2))
  else
    if negb (isSCMHistoryItemChangeTreeElement other)
       && negb (isSCMHistoryItemChangeNode other)
    then Thrown InvalidComparison
    else
      try! oneName <- nameOrBasename isSCMHistoryItemChangeNode prop_uri one;
      try! otherName <- nameOrBasename isSCMHistoryItemChangeNode prop_uri other;
      Returned (compareFileNames oneName otherName).

Definition compareResourcesByPath (one other : TreeElement)
  : Completion CompareError Z :=
  try! u1 <- deref (prop_sourceUri one);
  try! u2 <- deref (prop_sourceUri other);
  Returned (comparePaths (fsPath u1) (fsPath u2)).

Definition compareResourcesList (one other : TreeElement)
  : Completion CompareError Z :=
  match viewSortKey with
  | SortName =>
      try! u1 <- deref (prop_sourceUri one);
      try! u2 <- deref (prop_sourceUri other);
      Returned (compareFileNames (basename u1) (basename u2))
  | SortStatus =>
      try! d1 <- deref (prop_decorations one);
      try! d2 <- deref (prop_decorations other);
      let oneTooltip := default "" d1 in
      let otherTooltip := default "" d2 in
      if negb (String.eqb oneTooltip otherTooltip)
      then Returned (compareStrings oneTooltip otherTooltip)
      else compareResourcesByPath one other
  | SortPath => compareResourcesByPath one other
  end.

Definition compareResourcesTree (one other : TreeElement)
  : Completion CompareError Z :=
  let oneIsDirectory := isResourceNode one in
  let otherIsDirectory := isResourceNode other in
  if negb (Bool.eqb oneIsDirectory otherIsDirectory)
  then Returned (if oneIsDirectory then -1 else 1)%Z
  else
    try! oneName <- nameOrBasename isResourceNode prop_sourceUri one;
    try! otherName <- nameOrBasename isResourceNode prop_sourceUri other;
    Returned (compareFileNames oneName otherName).

Definition compare (one other : TreeElement) : Completion CompareError Z :=
  if isSCMRepository one then
    if negb (isSCMRepository other) then Thrown InvalidComparison
    else Returned 0%Z
  else if isSCMInput one then Returned (-1)%Z
  else if isSCMInput other then Returned 1%Z
  else if isSCMActionButton one then Returned (-1)%Z
  else if isSCMActionButton other then Returned 1%Z
  else if isSCMResourceGroup one then
    Returned (if isSCMResourceGroup other then 0 else -1)%Z
  else if isSCMViewSeparator one then
    Returned (if isSCMResourceGroup other then 1 else -1)%Z
  else if isSCMHistoryItemGroupTreeElement one then
    Returned (if isSCMHistoryItemGroupTreeElement other then 0 else 1)%Z
  else if isSCMHistoryItemTreeElement one then
    if negb (isSCMHistoryItemTreeElement other) then Thrown InvalidComparison
    else Returned 0%Z
  else if isSCMHistoryItemChangeTreeElement one || isSCMHistoryItemChangeNode one then
    compareHistoryItemChanges one other
  else if isList then compareResourcesList one other
  else compareResourcesTree one other.
End Sorter.

(** *** [getSCMResourceId] *)

(** [Array.prototype.join] *)
Fixpoint join (sep : string) (l : list string) : string :=
  match l with
  | [] => ""
  | [x] => x
  | x :: rest => x +:+ sep +:+ join sep rest
  end.

Definition getSCMResourceId (element : TreeElement) : string :=
  match element with
  | Repository e =>
      let provider := repository_provider e in
      "repo:" +:+ provider_id provider
  | Input e =>
      let provider := repository_provider (input_repository e) in
      "input:" +:+ provider_id provider
  | ActionButton e =>
      let provider := repository_provider (button_repository e) in
      "actionButton:" +:+ provider_id provider
  | ResourceGroup e =>
      let provider := group_provider e in
      "resourceGroup:" +:+ provider_id provider +:+ "/" +:+ group_id e
  | Resource e =>
      let group := resourceGroup e in
      let provider := group_provider group in
      "resource:" +:+ provider_id provider +:+ "/" +:+ group_id group +:+ "/"
        +:+ uri_toString (sourceUri e)
  | ResourceNode e =>
      let group := node_context e in
      "folder:" +:+ provider_id (group_provider group) +:+ "/" +:+ group_id group
        +:+ "/$FOLDER/" +:+ uri_toString (node_uri e)
  | HistoryItemGroup e =>
      let provider := repository_provider (hig_repository e) in
      "historyItemGroup:" +:+ provider_id provider +:+ "/" +:+ hig_id e
  | HistoryItem e =>
      let group := historyItemGroup e in
      let provider := repository_provider (hig_repository group) in
      "historyItem:" +:+ provider_id provider +:+ "/" +:+ hig_id group +:+ "/"
        +:+ hi_id e +:+ "/" +:+ join "," (hi_parentIds e)
  | HistoryItemChange e =>
      let item := hic_historyItem e in
      let group := historyItemGroup item in
      let provider := repository_provider (hig_repository group) in
      "historyItemChange:" +:+ provider_id provider +:+ "/" +:+ hig_id group +:+ "/"
        +:+ hi_id item +:+ "/" +:+ uri_toString (hic_uri e)
  | HistoryItemChangeNode e =>
      let item := node_context e in
      let group := historyItemGroup item in
      let provider := repository_provider (hig_repository group) in
      "folder:" +:+ provider_id provider +:+ "/" +:+ hig_id group +:+ "/"
        +:+ hi_id item +:+ "/$FOLDER/" +:+ uri_toString (node_uri e)
  | Separator e =>
      let provider := repository_provider (separator_repository e) in
      "separator:" +:+ provider_id provider
  end.

(** The components of an element that the specification calls its
    logical identity: kind, provider id and the nested ids and uri. *)
Definition logicalKey (element : TreeElement) : Kind * list string * list string :=
  match element with
  | Repository e =>
      (KRepository, [provider_id (repository_provider e)], [])
  | Input e =>
      (KInput, [provider_id (repository_provider (input_repository e))], [])
  | ActionButton e =>
      (KActionButton, [provider_id (repository_provider (button_repository e))], [])
  | ResourceGroup e =>
      (KResourceGroup, [provider_id (group_provider e); group_id e], [])
  | Resource e =>
      (KResource,
       [provider_id (group_provider (resourceGroup e)); group_id (resourceGroup e);
        uri_toString (sourceUri e)], [])
  | ResourceNode e =>
      (KResourceNode,
       [provider_id (group_provider (node_context e)); group_id (node_context e);
        uri_toString (node_uri e)], [])
  | HistoryItemGroup e =>
      (KHistoryItemGroup,
       [provider_id (repository_provider (hig_repository e)); hig_id e], [])
  | HistoryItem e =>
      (KHistoryItem,
       [provider_id (repository_provider (hig_repository (historyItemGroup e)));
        hig_id (historyItemGroup e); hi_id e], hi_parentIds e)
  | HistoryItemChange e =>
      (KHistoryItemChange,
       [provider_id (repository_provider
                       (hig_repository (historyItemGroup (hic_historyItem e))));
        hig_id (historyItemGroup (hic_historyItem e)); hi_id (hic_historyItem e);
        uri_toString (hic_uri e)], [])
  | HistoryItemChangeNode e =>
      (KHistoryItemChangeNode,
       [provider_id (repository_provider
                       (hig_repository (historyItemGroup (node_context e))));
        hig_id (historyItemGroup (node_context e)); hi_id (node_context e);
        uri_toString (node_uri e)], [])
  | Separator e =>
      (KSeparator, [provider_id (repository_provider (separator_repository e))], [])
  end.

(** *** [SCMTreeDataSource] *)

Record ISCMViewService : Type := mkViewService {
  visibleRepositories : list ISCMRepository }.

(** A value handed to [hasChildren]: the view service (the tree's input), a
    tree element, or any other value, on which every type guard fails. *)
Inductive InputOrElement : Type :=
| ViewService (s : ISCMViewService)
| Element (e : TreeElement)
| OtherValue.

Definition isSCMViewService (x : InputOrElement) : bool :=
  match x with ViewService _ => true | _ => false end.

Definition guard (p : TreeElement -> bool) (x : InputOrElement) : bool :=
  match x with Element e => p e | _ => false end.

Record Configuration : Type := mkConfiguration {
  showIncomingChanges : ShowChangesSetting;
  showOutgoingChanges : ShowChangesSetting }.

(** The entry also holds the history items by group id, which the methods
    modelled here do not read. *)
Record ISCMHistoryProviderCacheEntry : Type := mkCacheEntry {
  incomingHistoryItemGroup : option SCMHistoryItemGroupTreeElement;
  outgoingHistoryItemGroup : option SCMHistoryItemGroupTreeElement;
  historyItemChanges : gmap string (list ISCMHistoryItemChange) }.

Record SCMTreeDataSource : Type := mkDataSource {
  viewMode : ViewMode;
  configuration : Configuration;
  scmViewService : ISCMViewService;
  historyProviderCache : gmap string ISCMHistoryProviderCacheEntry }.

Definition setCache (this : SCMTreeDataSource) (repository : ISCMRepository)
    (entry : ISCMHistoryProviderCacheEntry) : SCMTreeDataSource :=
  mkDataSource (viewMode this) (configuration this) (scmViewService this)
    (<[repository_id repository := entry]> (historyProviderCache this)).

Definition getHistoryProviderCacheEntry (this : SCMTreeDataSource)
    (repository : ISCMRepository) : ISCMHistoryProviderCacheEntry :=
  default (mkCacheEntry None None ∅)
          (historyProviderCache this !! repository_id repository).

(** [inputOrElement.childrenCount], read on a folder node. *)
Definition prop_childrenCount (x : InputOrElement) : option Z :=
  match x with
  | Element (ResourceNode n) => Some (childrenCount n)
  | Element (HistoryItemChangeNode n) => Some (childrenCount n)
  | _ => None
  end.

Inductive HasChildrenError : Type := NotImplemented.

Definition hasChildren (this : SCMTreeDataSource) (inputOrElement : InputOrElement)
  : Completion HasChildrenError bool :=
  if isSCMViewService inputOrElement then
    Returned (negb (Nat.eqb (length (visibleRepositories (scmViewService this))) 0))
  else if guard isSCMRepository inputOrElement then Returned true
  else if guard isSCMInput inputOrElement then Returned false
  else if guard isSCMActionButton inputOrElement then Returned false
  else if guard isSCMResourceGroup inputOrElement then Returned true
  else if guard isSCMResource inputOrElement then Returned false
  else if guard isResourceNode inputOrElement then
    Returned (0 <? default 0 (prop_childrenCount inputOrElement))%Z
  else if guard isSCMHistoryItemGroupTreeElement inputOrElement then Returned true
  else if guard isSCMHistoryItemTreeElement inputOrElement then Returned true
  else if guard isSCMHistoryItemChangeTreeElement inputOrElement then Returned false
  else if guard isSCMViewSeparator inputOrElement then Returned false
  else Thrown NotImplemented.

(** [showXChanges === 'always' || (showXChanges === 'auto' && (group.count ?? 0) > 0)] *)
Definition shown (setting : ShowChangesSetting) (group : SCMHistoryItemGroupTreeElement)
  : bool :=
  match setting with
  | always => true
  | auto => (0 <? default 0 (hig_count group))%Z
  | never => false
  end.

Definition bothNever (c : Configuration) : bool :=
  match showIncomingChanges c, showOutgoingChanges c with
  | never, never => true
  | _, _ => false
  end.

Definition pushIf {A} (cond : bool) (x : A) (children : list A) : list A :=
  if cond then children ++ [x] else children.

Definition getHistoryItemGroups (this : SCMTreeDataSource) (element : ISCMRepository)
  : list SCMHistoryItemGroupTreeElement * SCMTreeDataSource :=
  let cfg := configuration this in
  let scmProvider := repository_provider element in
  match historyProvider scmProvider with
  | None => ([], this)
  | Some hp =>
    match currentHistoryItemGroup hp with
    | None => ([], this)
    | Some current =>
      if bothNever cfg then ([], this)
      else
        let entry := getHistoryProviderCacheEntry this element in
        let finish incomingGroup outgoingGroup this' :=
          let children := [] in
          let children :=
            match incomingGroup with
            | Some g => pushIf (shown (showIncomingChanges cfg) g) g children
            | None => children
            end in
          let children :=
            match outgoingGroup with
            | Some g => pushIf (shown (showOutgoingChanges cfg) g) g children
            | None => children
            end in
          (children, this') in
        match incomingHistoryItemGroup entry, outgoingHistoryItemGroup entry with
        | None, None =>
          match resolveHistoryItemGroupCommonAncestor hp (current_id current)
                  (base_id <$> base current) with
          | None => ([], this)
          | Some ancestor =>
            let incomingGroup :=
              match base current with
              | Some b =>
                  Some (mkHistoryItemGroup (base_id b) (base_label b)
                          ("Incoming changes from " +:+ base_label b)
                          incoming (Some (ancestor_id ancestor))
                          (Some (behind ancestor)) element)
              | None => None
              end in
            let outgoingGroup :=
              Some (mkHistoryItemGroup (current_id current) (current_label current)
                      ("Outgoing changes to " +:+ current_label current)
                      outgoing (Some (ancestor_id ancestor))
                      (Some (ahead ancestor)) element) in
            finish incomingGroup outgoingGroup
              (setCache this element
                 (mkCacheEntry incomingGroup outgoingGroup (historyItemChanges entry)))
          end
        | inc, out => finish inc out this
        end
    end
  end.

(** The key under which the changes of a history item are cached:
    [`${element.id}/${historyItemParentId}`], where an undefined parent id
    prints as ["undefined"]. *)
Definition historyItemParentId (element : SCMHistoryItemTreeElement) : option string :=
  head (hi_parentIds element).

Definition historyItemChangesKey (id : string) (parentId : option string) : string :=
  id +:+ "/" +:+ default "undefined" parentId.

Section HistoryItemChanges.
(** The children of the root of the [ResourceTree] built from the changes
    (tree view mode); [ResourceTree] is imported from
    [vs/base/common/resourceTree]. *)
Variable resourceTreeChildren :
  SCMHistoryItemTreeElement -> list SCMHistoryItemChangeTreeElement -> list TreeElement.

Definition getHistoryItemChanges (this : SCMTreeDataSource)
    (element : SCMHistoryItemTreeElement) : list TreeElement * SCMTreeDataSource :=
  let repository := hig_repository (historyItemGroup element) in
  match historyProvider (repository_provider repository) with
  | None => ([], this)
  | Some hp =>
    let entry := getHistoryProviderCacheEntry this repository in
    let historyItemChangesMap := historyItemChanges entry in
    let key := historyItemChangesKey (hi_id element) (historyItemParentId element) in
    let '(changes, this') :=
      match historyItemChangesMap !! key with
      | Some changes => (changes, this)
      | None =>
          let changes :=
            default [] (provideHistoryItemChanges hp (hi_id element)
                          (historyItemParentId element)) in
          (changes,
           setCache this repository
             (mkCacheEntry (incomingHistoryItemGroup entry)
                           (outgoingHistoryItemGroup entry)
                           (<[key := changes]> historyItemChangesMap)))
      end in
    let elements :=
      map (fun change => mkHistoryItemChange (change_uri change) element) changes in
    match viewMode this with
    | ViewModeList => (map HistoryItemChange elements, this')
    | ViewModeTree => (resourceTreeChildren element elements, this')
    end
  end.
End HistoryItemChanges.
End SCM.

(** ** More of the notebook chat controller

    [NotebookChatWidget] (the editing cell), [_scrollWidgetIntoView] and
    [_makeChanges], over the definitions above. *)

Module NotebookChatWidget.
(** A notebook cell, by its handle. *)
Record CellViewModel : Type := mkCell { handle : Z }.

(** What the notebook editor answers during one call: whether it has a
    model, what [insertCell] returns, and whether the active code editor has a
    model once the cell is focused. *)
Record NotebookAnswers : Type := mkAnswers {
  notebookHasModel : bool;
  insertCellResult : option CellViewModel;
  activeCodeEditorHasModel : bool }.

(** The widget's [_editingCell], with the cells inserted into and deleted
    from the notebook on its behalf. *)
Record t : Type := mk {
  _editingCell : option CellViewModel;
  insertedCells : list CellViewModel;
  deletedCells : list CellViewModel }.

Definition create : t := mk None [] [].

Definition getOrCreateEditingCell (env : NotebookAnswers) (w : t)
  : t * option CellViewModel :=
  match _editingCell w with
  | Some cell =>
      (* focusNotebookCell *)
      if activeCodeEditorHasModel env then (w, Some cell) else (w, None)
  | None =>
      if negb (notebookHasModel env) then (w, None)
      else
        match insertCellResult env with
        | None => (mk None (insertedCells w) (deletedCells w), None)
        | Some cell =>
            let w' := mk (Some cell) (insertedCells w ++ [cell]) (deletedCells w) in
            if activeCodeEditorHasModel env then (w', Some cell) else (w', None)
        end
  end.

Definition discardChange (env : NotebookAnswers) (w : t) : t :=
  match _editingCell w with
  | Some cell =>
      if notebookHasModel env
      then mk (_editingCell w) (insertedCells w) (deletedCells w ++ [cell])
      else w
  | None => w
  end.

(** A run of [getOrCreateEditingCell] calls, with the cells they returned. *)
Fixpoint calls (envs : list NotebookAnswers) (w : t)
  : t * list (option CellViewModel) :=
  match envs with
  | [] => (w, [])
  | env :: rest =>
      let '(w1, r) := getOrCreateEditingCell env w in
      let '(w2, rs) := calls rest w1 in
      (w2, r :: rs)
  end.
End NotebookChatWidget.

Module ScrollWidget.
(** What [_scrollWidgetIntoView] asks of the notebook editor. *)
Inductive Reveal : Type :=
| RevealOffset (offset : Z)
| NoReveal.

Record CellLayout : Type := mkLayout {
  absoluteTop : Z;
  height : Z }.

(** [cellAt] is the notebook editor's lookup; [length] its [getLength()]. *)
Definition _scrollWidgetIntoView (cellAt : Z -> option CellLayout) (length index : Z)
  : Reveal :=
  if (index =? 0)%Z || (length =? 0)%Z then RevealOffset 0
  else
    match cellAt (Z.min (index - 1) (length - 1)) with
    | Some previousCell => RevealOffset (absoluteTop previousCell + height previousCell)
    | None => NoReveal
    end.
End ScrollWidget.

Module MakeChanges.
(** The state [_makeChanges] works on: the session and strategy of the
    controller, the editor of the editing cell, whether the saving service was
    told of a change, and the edits handed to [wholeRange.trackEdits]. *)
Record t : Type := mk {
  _activeSession : option Session;
  _strategy : option EditStrategy.t;
  _widget : option NotebookChatWidget.t;
  cellEditor : Editor;
  markedChanged : bool;
  trackedEdits : list (list ISingleEditOperation) }.

(** One call: the edits, the options (none for an instant edit), and what the
    awaited helpers answer: the notebook editor, for the editing cell, and the
    editor worker, for the more minimal edits (possibly undefined). *)
Record Call : Type := mkCall {
  edits : list ISingleEditOperation;
  opts : option ProgressingEditsOptions;
  answers : NotebookChatWidget.NotebookAnswers;
  moreMinimalEdits : option (list ISingleEditOperation) }.

Section WithHost.
Variable applyEdits : list ISingleEditOperation -> string -> string.
(** The message of the error of [assertType]. *)
Variable unexpectedType : string.

Definition isEmptyList {A} (o : option (list A)) : bool :=
  match o with Some [] => true | _ => false end.

(** [!opts && moreMinimalEdits ? moreMinimalEdits : edits] *)
Definition actualEdits (c : Call) : list ISingleEditOperation :=
  match opts c, moreMinimalEdits c with
  | None, Some minimal => minimal
  | _, _ => edits c
  end.

Definition _makeChanges (c : Call) (st : t) : Completion string t :=
  try! session <- NotebookChatController.assertType unexpectedType (_activeSession st);
  try! strategy <- NotebookChatController.assertType unexpectedType (_strategy st);
  try! widget <- NotebookChatController.assertType unexpectedType (_widget st);
  let '(widget', editingCell) :=
    NotebookChatWidget.getOrCreateEditingCell (answers c) widget in
  let st1 := mk (_activeSession st) (_strategy st) (Some widget') (cellEditor st)
                (markedChanged st) (trackedEdits st) in
  match editingCell with
  | None => Returned st1
  | Some _ =>
      if isEmptyList (moreMinimalEdits c) then Returned st1   (* nothing left to do *)
      else
        let editOperations := actualEdits c in
        let '(strategy', editor') :=
          match opts c with
          | Some o => EditStrategy.makeProgressiveChanges applyEdits strategy (cellEditor st)
                        editOperations o
          | None => EditStrategy.makeChanges applyEdits strategy (cellEditor st)
                      editOperations
          end in
        Returned (mk (_activeSession st) (Some strategy') (Some widget') editor' true
                     (trackedEdits st ++ [editOperations]))
  end.

(** Calls in sequence, as the queue of progressive edits and the catch-up
    loop make them; the first failed assertion ends the run. *)
Fixpoint runCalls (cs : list Call) (st : t) : Completion string t :=
  match cs with
  | [] => Returned st
  | c :: rest => try! st' <- _makeChanges c st; runCalls rest st'
  end.
End WithHost.
End MakeChanges.

(** ** The resource renderer: splitting filter matches *)

Module ResourceRenderer.
Import SCM.

(** [IMatch] of [vs/base/common/filters]. *)
Record IMatch : Type := mkMatch {
  match_start : Z;
  match_end : Z }.

(** The filter data handed to the renderer: a fuzzy score, or a fuzzy score
    with the label it was computed on. *)
Inductive FilterData (FuzzyScore : Type) : Type :=
| FuzzyScoreData (score : FuzzyScore)
| LabelFuzzyScoreData (label : string) (score : FuzzyScore).
Arguments FuzzyScoreData {FuzzyScore}.
Arguments LabelFuzzyScoreData {FuzzyScore}.

Section WithFilters.
Variable FuzzyScore : Type.
(** [createMatches] of [vs/base/common/filters], applied to whatever value
    the code hands it, and [basename] of [vs/base/common/resources]. *)
Variable createMatches : FilterData FuzzyScore -> list IMatch.
Variable basename : URI -> string.

Definition strlen (s : string) : Z := Z.of_nat (String.length s).

(** [(filterData as LabelFuzzyScore).label]: undefined on a plain score. *)
Definition prop_label (filterData : FilterData FuzzyScore) : option string :=
  match filterData with
  | FuzzyScoreData _ => None
  | LabelFuzzyScoreData label _ => Some label
  end.

(** One turn of the loop over the matches of a file path. *)
Definition splitMatch (pathLength : Z) (acc : list IMatch * list IMatch) (m : IMatch)
  : list IMatch * list IMatch :=
  let '(labelMatches, descriptionMatches) := acc in
  if (pathLength <? match_start m)%Z then
    (* Label match *)
    (labelMatches ++ [mkMatch (match_start m - pathLength) (match_end m - pathLength)],
     descriptionMatches)
  else if (match_end m <? pathLength)%Z then
    (* Description match *)
    (labelMatches, descriptionMatches ++ [m])
  else
    (* Spanning match *)
    (labelMatches ++ [mkMatch 0 (match_end m - pathLength)],
     descriptionMatches ++ [mkMatch (match_start m) pathLength]).

Definition splitMatches (pathLength : Z) (matches : list IMatch)
  : list IMatch * list IMatch :=
  fold_left (splitMatch pathLength) matches ([], []).

Definition _processFilterData (uri : URI) (filterData : option (FilterData FuzzyScore))
  : option (list IMatch) * option (list IMatch) :=
  match filterData with
  | None => (None, None)
  | Some filterData =>
      match prop_label filterData with
      | None | Some "" => (Some (createMatches filterData), None)
      | Some label =>
          let fileName := basename uri in
          let pathLength := (strlen label - strlen fileName)%Z in
          let matches :=
            createMatches
              (FuzzyScoreData
                 match filterData with
                 | FuzzyScoreData score | LabelFuzzyScoreData _ score => score
                 end) in
          (* FileName match *)
          if String.eqb label fileName then (Some matches, None)
          else
            (* FilePath match *)
            let '(labelMatches, descriptionMatches) := splitMatches pathLength matches in
            (Some labelMatches, Some descriptionMatches)
      end
  end.
End WithFilters.
End ResourceRenderer.

(** ** The tree data source: children *)

Module SCMChildren.
Import SCM.

(** [ISCMHistoryItem], as far as the tree elements keep it. *)
Record ISCMHistoryItem : Type := mkItem {
  item_id : string;
  item_parentIds : list string;
  item_label : string }.

(** A child of a [ResourceTree] node: the folder node itself and the element
    stored at it, if any. *)
Record ChildNode (T C : Type) : Type := mkChild {
  child_element : option T;
  child_node : IResourceNode C }.
Arguments mkChild {T C}.
Arguments child_element {T C}.
Arguments child_node {T C}.

(** The members of the host objects that the records of the tree elements
    leave out: [repository.input], [input.visible], whether
    [provider.actionButton] is defined, [provider.groups], [group.resources],
    the children of [group.resourceTree.root] and of a folder node, the two
    further methods of a history provider, and the root children of the
    [ResourceTree] built from the changes of a history item. *)
Record Host : Type := mkHost {
  repository_input : ISCMRepository -> ISCMInput;
  input_visible : ISCMInput -> bool;
  provider_hasActionButton : ISCMProvider -> bool;
  provider_groups : ISCMProvider -> list ISCMResourceGroup;
  group_resources : ISCMResourceGroup -> list ISCMResource;
  group_rootChildren : ISCMResourceGroup -> list (ChildNode ISCMResource ISCMResourceGroup);
  resourceNode_children :
    IResourceNode ISCMResourceGroup -> list (ChildNode ISCMResource ISCMResourceGroup);
  changeNode_children :
    IResourceNode SCMHistoryItemTreeElement ->
    list (ChildNode SCMHistoryItemChangeTreeElement SCMHistoryItemTreeElement);
  provideHistoryItems :
    ISCMHistoryProvider -> string -> option string -> option (list ISCMHistoryItem);
  provideHistoryItemSummary :
    ISCMHistoryProvider -> string -> option string -> option ISCMHistoryItem;
  resourceTreeChildren :
    SCMHistoryItemTreeElement -> list SCMHistoryItemChangeTreeElement -> list TreeElement }.

(** [[allChanges, historyItems]], the value cached for a history item group. *)
Definition HistoryItemsElement : Type := (option ISCMHistoryItem * list ISCMHistoryItem)%type.

(** The data source with the rest of what its methods read: the
    [historyItems] maps of the cache entries, kept beside the entries and
    keyed like them, and three more settings of [getConfiguration]. *)
Record t : Type := mk {
  base : SCMTreeDataSource;
  historyItems : gmap string (gmap string HistoryItemsElement);
  alwaysShowRepositories : bool;
  showActionButton : bool;
  showChangesSummary : bool }.

Definition withBase (this : t) (base' : SCMTreeDataSource) : t :=
  mk base' (historyItems this) (alwaysShowRepositories this) (showActionButton this)
     (showChangesSummary this).

(** [getHistoryProviderCacheEntry(repository).historyItems] *)
Definition historyItemsMap (this : t) (repository : ISCMRepository)
  : gmap string HistoryItemsElement :=
  default ∅ (historyItems this !! repository_id repository).

Section WithHost.
Variable host : Host.

Definition getHistoryItems (this : t) (element : SCMHistoryItemGroupTreeElement)
  : list SCMHistoryItemTreeElement * t :=
  let repository := hig_repository element in
  match historyProvider (repository_provider repository) with
  | None => ([], this)
  | Some hp =>
    let entry := getHistoryProviderCacheEntry (base this) repository in
    let itemsMap := historyItemsMap this repository in
    let '(historyItemsElement, this') :=
      match itemsMap !! hig_id element with
      | Some cached => (cached, this)
      | None =>
          let items :=
            default [] (provideHistoryItems host hp (hig_id element) (hig_ancestor element)) in
          (* All Changes *)
          let allChanges :=
            match items with
            | first :: _ =>
                if showChangesSummary this && (2 <=? length items)
                then provideHistoryItemSummary host hp (item_id first) (hig_ancestor element)
                else None
            | [] => None
            end in
          let computed := (allChanges, items) in
          (computed,
           mk (setCache (base this) repository entry)
              (<[repository_id repository := <[hig_id element := computed]> itemsMap]>
                 (historyItems this))
              (alwaysShowRepositories this) (showActionButton this)
              (showChangesSummary this))
      end in
    let children :=
      match fst historyItemsElement with
      | Some summary =>
          [mkHistoryItem (item_id summary) (item_parentIds summary) "All Changes"
             element allChanges]
      | None => []
      end in
    (children
       ++ map (fun item =>
                 mkHistoryItem (item_id item) (item_parentIds item) (item_label item)
                   element historyItem)
              (snd historyItemsElement),
     this')
  end.

(** [node.element && node.childrenCount === 0 ? node.element : node] *)
Definition elementOrNode {T C} (wrapElement : T -> TreeElement)
    (wrapNode : IResourceNode C -> TreeElement) (node : ChildNode T C) : TreeElement :=
  match child_element node with
  | Some element =>
      if (childrenCount (child_node node) =? 0)%Z then wrapElement element
      else wrapNode (child_node node)
  | None => wrapNode (child_node node)
  end.

Definition isIncoming (g : SCMHistoryItemGroupTreeElement) : bool :=
  match hig_direction g with incoming => true | outgoing => false end.

Definition isOutgoing (g : SCMHistoryItemGroupTreeElement) : bool :=
  match hig_direction g with outgoing => true | incoming => false end.

(** The Incoming/Outgoing separator of a repository with history item
    groups. *)
Definition separatorOf (historyItemGroups : list SCMHistoryItemGroupTreeElement)
    (repository : ISCMRepository) : SCMViewSeparatorElement :=
  let incomingHistoryItems := find isIncoming historyItemGroups in
  let outgoingHistoryItems := find isOutgoing historyItemGroups in
  match incomingHistoryItems, outgoingHistoryItems with
  | Some _, None => mkSeparator "Incoming" "Incoming changes" repository
  | None, Some _ => mkSeparator "Outgoing" "Outgoing changes" repository
  | _, _ => mkSeparator "Incoming/Outgoing" "Incoming and outgoing changes" repository
  end.

(** The second branch of [getChildren], on the repository it settles on. *)
Definition repositoryChildren (this : t) (repositoryCount : nat)
    (repository : ISCMRepository) : list TreeElement * t :=
  let children := [] in
  let hasActionButton := provider_hasActionButton host (repository_provider repository) in
  let resourceGroups := provider_groups host (repository_provider repository) in
  (* SCM Input *)
  let children :=
    pushIf (input_visible host (repository_input host repository))
           (Input (repository_input host repository)) children in
  (* Action Button *)
  let children :=
    pushIf (showActionButton this && hasActionButton)
           (ActionButton (mkActionButton repository)) children in
  (* ResourceGroups *)
  let hasSomeChanges :=
    existsb (fun group => 0 <? length (group_resources host group)) resourceGroups in
  let children :=
    if hasSomeChanges
       || ((repositoryCount =? 1) && (negb (showActionButton this) || negb hasActionButton))
    then children ++ map ResourceGroup resourceGroups
    else children in
  (* History item groups *)
  let '(historyItemGroups, base') := getHistoryItemGroups (base this) repository in
  (* Incoming/Outgoing Separator *)
  let children :=
    pushIf (0 <? length historyItemGroups)
           (Separator (separatorOf historyItemGroups repository)) children in
  (children ++ map HistoryItemGroup historyItemGroups, withBase this base').

Definition getChildren (this : t) (inputOrElement : InputOrElement)
  : list TreeElement * t :=
  let visible := visibleRepositories (scmViewService (base this)) in
  let repositoryCount := length visible in
  if isSCMViewService inputOrElement
     && ((1 <? repositoryCount) || alwaysShowRepositories this)
  then (map Repository visible, this)
  else if (isSCMViewService inputOrElement && (repositoryCount =? 1)
           && negb (alwaysShowRepositories this))
          || guard isSCMRepository inputOrElement
  then
    match inputOrElement, visible with
    | Element (Repository repository), _ =>
        repositoryChildren this repositoryCount repository
    | _, repository :: _ => repositoryChildren this repositoryCount repository
    | _, [] => ([], this)   (* not reached: one repository is visible *)
    end
  else
    match inputOrElement with
    | Element (ResourceGroup group) =>
        match viewMode (base this) with
        | ViewModeList =>
            (* Resources (List) *)
            (map Resource (group_resources host group), this)
        | ViewModeTree =>
            (* Resources (Tree) *)
            (map (elementOrNode Resource ResourceNode) (group_rootChildren host group), this)
        end
    | Element (ResourceNode node) =>
        (map (elementOrNode Resource ResourceNode) (resourceNode_children host node), this)
    | Element (HistoryItemChangeNode node) =>
        (map (elementOrNode HistoryItemChange HistoryItemChangeNode)
             (changeNode_children host node), this)
    | Element (HistoryItemGroup group) =>
        (* History item group *)
        let '(items, this') := getHistoryItems this group in
        (map HistoryItem items, this')
    | Element (HistoryItem item) =>
        (* History item changes (List/Tree) *)
        let '(changes, base') :=
          getHistoryItemChanges (resourceTreeChildren host) (base this) item in
        (changes, withBase this base')
    | _ => ([], this)
    end.

(** The loop over the removed repositories in
    [onDidChangeVisibleRepositories], and the listener for
    [onDidChangeCurrentHistoryItemGroup] of one repository:
    [this.historyProviderCache.delete(repository)]. *)
Definition deleteCacheEntry (this : t) (repository : ISCMRepository) : t :=
  mk (mkDataSource (viewMode (base this)) (configuration (base this))
        (scmViewService (base this))
        (delete (repository_id repository) (historyProviderCache (base this))))
     (delete (repository_id repository) (historyItems this))
     (alwaysShowRepositories this) (showActionButton this) (showChangesSummary this).

Definition onDidChangeCurrentHistoryItemGroup (repository : ISCMRepository) (this : t) : t :=
  deleteCacheEntry this repository.

(** The data source once the view service holds the list [visible]: the
    view service is an object the data source shares with the rest of the
    view, and [getChildren] reads its list anew on every call. *)
Definition withVisibleRepositories (this : t) (visible : list ISCMRepository) : t :=
  mk (mkDataSource (viewMode (base this)) (configuration (base this))
        (mkViewService visible) (historyProviderCache (base this)))
     (historyItems this)
     (alwaysShowRepositories this) (showActionButton this) (showChangesSummary this).

(** The view service changes its list to [visible] and delivers the event
    [{ added, removed }]. The loop over the added repositories registers
    listeners and changes nothing of the cache; the loop over the removed ones
    deletes their cache entries. *)
Definition onDidChangeVisibleRepositories (visible added removed : list ISCMRepository)
    (this : t) : t :=
  fold_left deleteCacheEntry removed (withVisibleRepositories this visible).
End WithHost.
End SCMChildren.

(** ** The repository visibility context keys *)

Module RepositoryVisibilityActionController.
Import SCM.

(** [items] is a [Map] in insertion order, keyed by the repository, holding
    the value of the repository's visibility context key. *)
Record t : Type := mk {
  items : list (string * bool);
  repositoryCountContextKey : Z;
  repositoryVisibilityCountContextKey : Z }.

Definition create : t := mk [] 0 0.

(** [Map.prototype.set]: a present key keeps its place. *)
Fixpoint mapSet (key : string) (value : bool) (m : list (string * bool))
  : list (string * bool) :=
  match m with
  | [] => [(key, value)]
  | (k, v) :: rest =>
      if String.eqb k key then (k, value) :: rest else (k, v) :: mapSet key value rest
  end.

Definition mapDelete (key : string) (m : list (string * bool)) : list (string * bool) :=
  filter (fun kv => negb (String.eqb (fst kv) key)) m.

Section WithViewService.
(** [scmViewService.isVisible(repository)], at the time of the call. *)
Variable isVisible : string -> bool.

Definition updateRepositoryContextKeys (this : t) : t :=
  mk (items this)
     (Z.of_nat (length (items this)))
     (fold_left (fun r repository => (r + (if isVisible repository then 1 else 0))%Z)
                (map fst (items this)) 0%Z).

Definition onDidAddRepository (repository : ISCMRepository) (this : t) : t :=
  updateRepositoryContextKeys
    (mk (mapSet (repository_id repository) (isVisible (repository_id repository))
           (items this))
        (repositoryCountContextKey this) (repositoryVisibilityCountContextKey this)).

Definition onDidRemoveRepository (repository : ISCMRepository) (this : t) : t :=
  updateRepositoryContextKeys
    (mk (mapDelete (repository_id repository) (items this))
        (repositoryCountContextKey this) (repositoryVisibilityCountContextKey this)).

(** The loop sets every item's context key and counts the visible ones. *)
Fixpoint visitItems (m : list (string * bool)) (count : Z) : list (string * bool) * Z :=
  match m with
  | [] => ([], count)
  | (repository, _) :: rest =>
      let visible := isVisible repository in
      let '(rest', count') := visitItems rest (if visible then count + 1 else count)%Z in
      ((repository, visible) :: rest', count')
  end.

Definition onDidChangeVisibleRepositories (this : t) : t :=
  let '(items', count) := visitItems (items this) 0 in
  mk items' (Z.of_nat (length (items this))) count.
End WithViewService.

(** What happens to the controller; each event comes with the visibility
    the view service reports while it is handled. *)
Inductive Event : Type :=
| AddRepository (repository : ISCMRepository)
| RemoveRepository (repository : ISCMRepository)
| ChangeVisibleRepositories.

Definition handle (isVisible : string -> bool) (e : Event) (this : t) : t :=
  match e with
  | AddRepository repository => onDidAddRepository isVisible repository this
  | RemoveRepository repository => onDidRemoveRepository isVisible repository this
  | ChangeVisibleRepositories => onDidChangeVisibleRepositories isVisible this
  end.

Fixpoint run (events : list ((string -> bool) * Event)) (this : t) : t :=
  match events with
  | [] => this
  | (isVisible, e) :: rest => run rest (handle isVisible e this)
  end.
End RepositoryVisibilityActionController.

(** ** Revealing the resource of the active editor *)

Module Reveal.
Import SCM.

Section WithTree.
(** [uriIdentityService.extUri.isEqual], whether the pane holds an item for
    a repository, [provider.groups], [group.resources], and
    [group.resourceTree.getNode(uri)?.element]. *)
Variable isEqual : URI -> URI -> bool.
Variable hasItem : ISCMRepository -> bool.
Variable groups : ISCMProvider -> list ISCMResourceGroup.
Variable resources : ISCMResourceGroup -> list ISCMResource.
Variable treeElement : ISCMResourceGroup -> URI -> option ISCMResource.

Definition resourceOf (viewMode : ViewMode) (uri : URI) (groupItem : ISCMResourceGroup)
  : option ISCMResource :=
  match viewMode with
  | ViewModeTree => treeElement groupItem uri
  | ViewModeList => List.find (fun r => isEqual (sourceUri r) uri) (resources groupItem)
  end.

(** The inner loop, over the groups from the last to the first. *)
Fixpoint backwards (viewMode : ViewMode) (uri : URI) (fromLast : list ISCMResourceGroup)
  : option ISCMResource :=
  match fromLast with
  | [] => None
  | groupItem :: rest =>
      match resourceOf viewMode uri groupItem with
      | Some resource => Some resource
      | None => backwards viewMode uri rest
      end
  end.

(** The task that [onDidActiveEditorChange] queues: the resource it expands
    to, selects and focuses, if any. *)
Fixpoint revealTarget (viewMode : ViewMode) (uri : URI)
    (visibleRepositories : list ISCMRepository) : option ISCMResource :=
  match visibleRepositories with
  | [] => None
  | repository :: rest =>
      if negb (hasItem repository) then revealTarget viewMode uri rest
      else
        (* go backwards from last group *)
        match backwards viewMode uri (rev (groups (repository_provider repository))) with
        | Some resource => Some resource
        | None => revealTarget viewMode uri rest
        end
  end.
(** What [onDidActiveEditorChange] does: nothing, or it queues a task.
    Modelled from the spec: the throttler and the sequencer the task is
    queued on are imported from [vs/base/common/async]; the throttler
    coalesces tasks queued in a burst and the sequencer runs tree operations
    one after the other. The model keeps the task that is queued, by the
    resource it reveals when it runs, if any. *)
Inductive Outcome : Type :=
| NothingQueued
| QueuedReveal (target : option ISCMResource).

(** [elements.some(e => isSCMResource(e) && isEqual(e.sourceUri, uri))] *)
Definition someResourceWith (uri : URI) (elements : list TreeElement) : bool :=
  existsb (fun e => isSCMResource e
                    && match prop_sourceUri e with
                       | Some sourceUri => isEqual sourceUri uri
                       | None => false
                       end)
          elements.

(** [autoReveal] is the setting [scm.autoReveal], [activeUri] the original
    uri of the active editor, [focus] and [selection] the tree's; the view
    mode and the visible repositories are read when the task runs. *)
Definition onDidActiveEditorChange (autoReveal : bool) (activeUri : option URI)
    (focus selection : list TreeElement) (viewMode : ViewMode)
    (visibleRepositories : list ISCMRepository) : Outcome :=
  if negb autoReveal then NothingQueued
  else
    match activeUri with
    | None => NothingQueued
    | Some uri =>
        (* Do not set focus/selection when the resource is already focused and selected *)
        if someResourceWith uri focus && someResourceWith uri selection
        then NothingQueued
        else QueuedReveal (revealTarget viewMode uri visibleRepositories)
    end.
End WithTree.
End Reveal.

(** ** The toolbar of the input box *)

Module SCMInputWidgetToolbar.
Record IAction : Type := mkAction {
  action_id : string;
  action_enabled : bool }.

(** What [updateToolbar] sets: the dropdown actions, whether the dropdown
    action is enabled, and the primary actions handed to [setActions]. *)
Record t : Type := mk {
  _dropdownActions : list IAction;
  _dropdownActionEnabled : bool;
  primaryActions : list IAction }.

(** [menuActions] are the actions the menu fills in, [isEnabled] whether
    some group of the provider has resources, [lastActionId] the stored id
    (the empty string when there is none). *)
Definition updateToolbar (menuActions : list IAction) (isEnabled : bool)
    (lastActionId : string) : t :=
  let actions := map (fun action => mkAction (action_id action) isEnabled) menuActions in
  let primaryAction :=
    match actions with
    | [] => None
    | [action] => Some action
    | first :: _ =>
        match List.find (fun a => String.eqb (action_id a) lastActionId) actions with
        | Some action => Some action
        | None => Some first
        end
    end in
  mk (if length actions =? 1 then [] else actions)
     isEnabled
     (match primaryAction with Some action => [action] | None => [] end).
End SCMInputWidgetToolbar.

(** * Properties of the edit strategy *)

Section CursorStateComputer.
Import EditStrategy.

Definition endOf (edit : ISingleEditOperation) : Position.t :=
  Range.getEndPosition (range edit).

Lemma isBefore_spec (a b : Position.t) :
  Position.isBefore a b = true <->
  (Position.lineNumber a < Position.lineNumber b
   \/ (Position.lineNumber a = Position.lineNumber b
       /\ Position.column a < Position.column b))%Z.
Proof.
  unfold Position.isBefore.
  destruct (Z.ltb_spec (Position.lineNumber a) (Position.lineNumber b));
    [ intuition lia | ].
  destruct (Z.ltb_spec (Position.lineNumber b) (Position.lineNumber a));
    [ intuition (try discriminate; lia) | ].
  rewrite Z.ltb_lt. intuition lia.
Qed.

Lemma isBefore_false (a b : Position.t) :
  Position.isBefore a b = false <->
  (Position.lineNumber b < Position.lineNumber a
   \/ (Position.lineNumber a = Position.lineNumber b
       /\ Position.column b <= Position.column a))%Z.
Proof.
  rewrite <- not_true_iff_false, isBefore_spec. split; intros H; lia.
Qed.

Lemma isBefore_irrefl (a : Position.t) : Position.isBefore a a = false.
Proof. apply isBefore_false. lia. Qed.

Lemma isBefore_trans (a b c : Position.t) :
  Position.isBefore a b = true -> Position.isBefore b c = true ->
  Position.isBefore a c = true.
Proof. rewrite !isBefore_spec. intros H1 H2. lia. Qed.

(** Not before, then before: still before. *)
Lemma isBefore_le_lt (a b c : Position.t) :
  Position.isBefore b a = false -> Position.isBefore b c = true ->
  Position.isBefore a c = true.
Proof. rewrite isBefore_false, !isBefore_spec. intros H1 H2. lia. Qed.

Lemma isBefore_le_lt_not (a b c : Position.t) :
  Position.isBefore b a = false -> Position.isBefore b c = true ->
  Position.isBefore c a = false.
Proof. rewrite !isBefore_false, isBefore_spec. intros H1 H2. lia. Qed.

(** The candidate kept by the loop: the end of the edit at [i] is reached by
    no other edit, and every earlier edit ends strictly before it. *)
Definition firstFurthest (undoEdits : list ISingleEditOperation) (i : nat)
    (edit : ISingleEditOperation) : Prop :=
  undoEdits !! i = Some edit
  /\ (forall e', e' ∈ undoEdits -> Position.isBefore (endOf edit) (endOf e') = false)
  /\ (forall j e', (j < i)%nat -> undoEdits !! j = Some e' ->
                   Position.isBefore (endOf e') (endOf edit) = true).

Lemma cursorStep_snoc (l : list ISingleEditOperation) (e : ISingleEditOperation) :
  fold_left cursorStep (l ++ [e]) None = cursorStep (fold_left cursorStep l None) e.
Proof. now rewrite fold_left_app. Qed.

Lemma candidate_firstFurthest (undoEdits : list ISingleEditOperation) :
  undoEdits <> [] ->
  exists i edit,
    firstFurthest undoEdits i edit
    /\ fold_left cursorStep undoEdits None = Some (endOf edit).
Proof.
  induction undoEdits as [| x l IH] using rev_ind; [congruence | intros _].
  rewrite cursorStep_snoc.
  destruct l as [| y l'].
  - exists 0%nat, x. repeat split; simpl.
    + intros e' He'. apply list_elem_of_singleton in He'. subst e'.
      apply isBefore_irrefl.
    + intros j e' Hj. lia.
  - destruct IH as (i & edit & (Hi & Hmax & Hfirst) & Hfold); [congruence |].
    rewrite Hfold. unfold cursorStep. fold (endOf x).
    destruct (Position.isBefore (endOf edit) (endOf x)) eqn:Hlt.
    + exists (length (y :: l')), x. repeat split.
      * rewrite lookup_app_r by lia. now rewrite Nat.sub_diag.
      * intros e' He'. apply elem_of_app in He' as [He' | He'].
        -- apply (isBefore_le_lt_not _ (endOf edit)); [now apply Hmax | exact Hlt].
        -- apply list_elem_of_singleton in He'. subst e'. apply isBefore_irrefl.
      * intros j e' Hj Hlook. rewrite lookup_app_l in Hlook by exact Hj.
        apply (isBefore_le_lt _ (endOf edit)); [| exact Hlt].
        apply Hmax. eapply list_elem_of_lookup_2. exact Hlook.
    + exists i, edit. repeat split.
      * rewrite lookup_app_l; [exact Hi |]. eapply lookup_lt_Some. exact Hi.
      * intros e' He'. apply elem_of_app in He' as [He' | He'].
        -- now apply Hmax.
        -- apply list_elem_of_singleton in He'. now subst e'.
      * intros j e' Hj Hlook. apply (Hfirst j); [exact Hj |].
        rewrite lookup_app_l in Hlook; [exact Hlook |].
        apply lookup_lt_Some in Hi. lia.
Qed.

(** C1. For a non-empty list of edit operations, the cursor state computer
    of [makeChanges] returns one selection, collapsed at the end position of
    an edit of the list that no edit ends after; every earlier edit ends
    strictly before it, so on ties the earlier edit's position is kept; and
    one more edit replaces the candidate only when it ends strictly after
    it. *)
Theorem cursorStateComputer_furthest_end (undoEdits : list ISingleEditOperation) :
  undoEdits <> [] ->
  exists i edit,
    firstFurthest undoEdits i edit
    /\ cursorStateComputer undoEdits = Some [Selection.fromPositions (endOf edit) None]
    /\ forall later,
         cursorStateComputer (undoEdits ++ [later]) =
         Some [Selection.fromPositions
                 (if Position.isBefore (endOf edit) (endOf later)
                  then endOf later else endOf edit) None].
Proof.
  intros Hne.
  destruct (candidate_firstFurthest undoEdits Hne) as (i & edit & Hff & Hfold).
  exists i, edit. split; [exact Hff |]. unfold cursorStateComputer. split.
  - now rewrite Hfold.
  - intros later. rewrite cursorStep_snoc, Hfold. unfold cursorStep.
    fold (endOf later). now destruct (Position.isBefore (endOf edit) (endOf later)).
Qed.
End CursorStateComputer.

Section UndoStops.
Import EditStrategy.
Variable applyEdits : list ISingleEditOperation -> string -> string.

(** The calls the editor received between two of its states. *)
Definition emitted (before after : Editor) : list EditorCall :=
  drop (length (calls before)) (calls after).

(** The editing calls of one strategy call, undo stops apart. *)
Definition editCalls (c : Call) : list EditorCall :=
  match c with
  | MakeChanges edits => [ExecuteEdits "inline-chat-live" edits]
  | MakeProgressiveChanges edits opts =>
      map (fun edit => PerformAsyncTextEdit edit (duration opts)) edits
  end.

Definition isPushUndoStop (c : EditorCall) : bool :=
  match c with PushUndoStop => true | _ => false end.

Lemma emitted_app (ed ed' : Editor) (new : list EditorCall) :
  calls ed' = calls ed ++ new -> emitted ed ed' = new.
Proof. intros H. unfold emitted. rewrite H. apply drop_app_length. Qed.

Lemma editCalls_no_undo_stop (c : Call) :
  filter (fun x => isPushUndoStop x = true) (editCalls c) = [].
Proof.
  destruct c as [edits | edits opts]; [reflexivity |]. simpl.
  induction edits as [| e l IH]; [reflexivity | simpl; exact IH].
Qed.

Lemma progressive_calls (opts : ProgressingEditsOptions)
    (edits : list ISingleEditOperation) (ed : Editor) :
  calls (fold_left (fun e edit => performAsyncTextEdit applyEdits edit opts e) edits ed)
  = calls ed ++ map (fun edit => PerformAsyncTextEdit edit (duration opts)) edits.
Proof.
  revert ed. induction edits as [| e l IH]; intros ed; simpl.
  - now rewrite app_nil_r.
  - rewrite IH. simpl. now rewrite <- app_assoc.
Qed.

Lemma call_calls (s : t) (ed : Editor) (c : Call) :
  calls (snd (call applyEdits (s, ed) c))
  = calls ed
    ++ (if (increment (_editCount s) =? 1)%Z then [PushUndoStop] else [])
    ++ editCalls c.
Proof.
  destruct c as [edits | edits opts]; simpl;
    destruct (increment (_editCount s) =? 1)%Z; simpl;
    rewrite ?progressive_calls; simpl; rewrite <- ?app_assoc; reflexivity.
Qed.

Lemma call_editCount (st : t * Editor) (c : Call) :
  _editCount (fst (call applyEdits st c)) = increment (_editCount (fst st)).
Proof. destruct c; reflexivity. Qed.

Lemma increment_first : increment 0 = 1%Z.
Proof. reflexivity. Qed.

Lemma increment_later (n : Z) :
  (1 <= n)%Z -> (1 < increment n)%Z.
Proof.
  intros Hn. unfold increment.
  assert (1 < 2 ^ 53)%Z by reflexivity.
  destruct (Z.ltb_spec n (2 ^ 53)); lia.
Qed.

Lemma run_snoc (cs : list Call) (c : Call) (st : t * Editor) :
  run applyEdits (cs ++ [c]) st = call applyEdits (run applyEdits cs st) c.
Proof. unfold run. now rewrite fold_left_app. Qed.

(** The counter is 0 before any call and at least 1 after one. *)
Lemma run_editCount (cs : list Call) (ed : Editor) :
  (cs = [] /\ _editCount (fst (run applyEdits cs (create, ed))) = 0%Z)
  \/ (cs <> [] /\ (1 <= _editCount (fst (run applyEdits cs (create, ed))))%Z).
Proof.
  induction cs as [| c l IH] using rev_ind; [now left | right].
  split; [now destruct l |].
  rewrite run_snoc, call_editCount.
  destruct IH as [[_ IH] | [_ IH]].
  - rewrite IH. vm_compute. discriminate.
  - apply increment_later in IH. lia.
Qed.

Lemma undo_stop_iff_first (n : Z) :
  (n = 0%Z -> (increment n =? 1)%Z = true)
  /\ ((1 <= n)%Z -> (increment n =? 1)%Z = false).
Proof.
  split; [intros ->; reflexivity |].
  intros Hn. apply increment_later in Hn. apply Z.eqb_neq. lia.
Qed.

Lemma run_calls (cs : list Call) (ed : Editor) :
  exists new,
    calls (snd (run applyEdits cs (create, ed))) = calls ed ++ new
    /\ length (filter (fun x => isPushUndoStop x = true) new)
       = match cs with [] => 0%nat | _ :: _ => 1%nat end.
Proof.
  induction cs as [| c l IH] using rev_ind.
  - exists []. simpl. now rewrite app_nil_r.
  - destruct IH as (new & Hcalls & Hcount).
    rewrite run_snoc.
    pose proof (run_editCount l ed) as Hn.
    destruct (run applyEdits l (create, ed)) as [s ed1] eqn:Hrun.
    rewrite call_calls. simpl in Hcalls, Hn. rewrite Hcalls.
    eexists. split; [rewrite <- app_assoc; reflexivity |].
    rewrite !filter_app, !length_app, editCalls_no_undo_stop, Hcount.
    destruct Hn as [[-> Hn] | [Hne Hn]].
    + rewrite (proj1 (undo_stop_iff_first _) Hn). reflexivity.
    + rewrite (proj2 (undo_stop_iff_first _) Hn).
      destruct l; [congruence | reflexivity].
Qed.

Lemma apply_calls (s : t) (session : Session) (ed : Editor) :
  exists save,
    calls (apply s session ed)
    = calls ed ++ (if (0 <? _editCount s)%Z then [PushUndoStop] else []) ++ save
    /\ (save = [] \/ save = [SaveUntitled]).
Proof.
  unfold apply.
  destruct (lastExchange session) as [[p [ty [u |] | e |]] |];
    try (exists []; split; [| now left];
         destruct (0 <? _editCount s)%Z; simpl; now rewrite ?app_nil_r).
  destruct (negb (untitledDisposed u) && untitledDirty u).
  - exists [SaveUntitled]. split; [| now right].
    destruct (0 <? _editCount s)%Z; simpl; now rewrite <- ?app_assoc.
  - exists []. split; [| now left].
    destruct (0 <? _editCount s)%Z; simpl; now rewrite ?app_nil_r.
Qed.

(** C7. On a fresh strategy, the first [makeChanges] or
    [makeProgressiveChanges] call (the one that takes the edit counter from
    0 to 1) starts with one undo stop, a later call pushes none, so a run of
    calls pushes exactly one undo stop unless it is empty; [apply] pushes an
    undo stop exactly when the edit counter is positive, that is, exactly
    when some edit call was made. *)
Theorem undo_stop_pushed_once :
  (forall (pre : list Call) (c : Call) (ed : Editor),
      let st := run applyEdits pre (create, ed) in
      let st' := call applyEdits st c in
      match pre with
      | [] => _editCount (fst st) = 0%Z /\ _editCount (fst st') = 1%Z
              /\ emitted (snd st) (snd st') = PushUndoStop :: editCalls c
      | _ :: _ => (1 <= _editCount (fst st))%Z
                  /\ emitted (snd st) (snd st') = editCalls c
      end
      /\ filter (fun x => isPushUndoStop x = true) (editCalls c) = []
      /\ length (filter (fun x => isPushUndoStop x = true) (emitted ed (snd st')))
         = 1%nat)
  /\ (forall (cs : list Call) (ed : Editor) (session : Session),
         let st := run applyEdits cs (create, ed) in
         (PushUndoStop ∈ emitted (snd st) (apply (fst st) session (snd st))
          <-> (0 < _editCount (fst st))%Z)
         /\ ((0 < _editCount (fst st))%Z <-> cs <> [])).
Proof.
  split.
  - intros pre c ed st st'. split; [| split].
    + pose proof (run_editCount pre ed) as Hn. fold st in Hn.
      subst st'. destruct st as [s ed1]. simpl in Hn.
      pose proof (call_calls s ed1 c) as Hc.
      destruct Hn as [[-> Hn] | [Hne Hn]]; simpl fst; simpl snd.
      * split; [exact Hn |]. split.
        -- rewrite call_editCount. simpl. now rewrite Hn.
        -- apply emitted_app. rewrite Hc, Hn. reflexivity.
      * destruct pre as [| c' l']; [congruence |].
        split; [exact Hn |]. apply emitted_app. rewrite Hc.
        now rewrite (proj2 (undo_stop_iff_first _) Hn).
    + apply editCalls_no_undo_stop.
    + subst st' st. rewrite <- run_snoc.
      destruct (run_calls (pre ++ [c]) ed) as (new & Hcalls & Hcount).
      rewrite (emitted_app _ _ _ Hcalls), Hcount.
      now destruct pre.
  - intros cs ed session st.
    pose proof (run_editCount cs ed) as Hn. fold st in Hn.
    destruct st as [s ed1]. simpl fst in *. simpl snd.
    destruct (apply_calls s session ed1) as (save & Hcalls & Hsave).
    rewrite (emitted_app _ _ _ Hcalls). split.
    + destruct (Z.ltb_spec 0 (_editCount s)); simpl.
      * split; [intros _; assumption | intros _; apply list_elem_of_here].
      * split; [| lia]. intros Hin.
        destruct Hsave as [-> | ->]; inversion Hin; subst.
        match goal with H : _ ∈ [] |- _ => inversion H end.
    + destruct Hn as [[-> Hn] | [Hne Hn]]; [rewrite Hn |];
        split; intros; try congruence; lia.
Qed.
End UndoStops.

Section Cancel.
Import EditStrategy.

Definition pastTarget (target : Z) (m : TextModel.t) : bool :=
  (target <? TextModel.getAlternativeVersionId m)%Z && TextModel.canUndo m.

Lemma cancelLoop_unfold (target : Z) (m : TextModel.t) :
  cancelLoop target m =
  if pastTarget target m then cancelLoop target (TextModel.undo m) else m.
Proof.
  rewrite cancelLoop_equation_1. unfold cancelLoop_clause_1, pastTarget.
  generalize (inspect ((target <? TextModel.getAlternativeVersionId m)%Z
                       && TextModel.canUndo m)).
  intros [[|] Heq]; simpl; now rewrite Heq.
Qed.

Lemma undo_stack_length (m : TextModel.t) :
  TextModel.canUndo m = true ->
  length (TextModel.undoStack (TextModel.undo m)) < length (TextModel.undoStack m).
Proof.
  unfold TextModel.canUndo, TextModel.undo.
  destruct (TextModel.undoStack m); [discriminate | simpl; lia].
Qed.

(** The loop is a run of undo steps, each taken past the target with an
    undo step available, and it ends at the target or out of undo steps. *)
Lemma cancelLoop_steps (target : Z) (m : TextModel.t) :
  exists n : nat,
    cancelLoop target m = Nat.iter n TextModel.undo m
    /\ (forall k, k < n -> pastTarget target (Nat.iter k TextModel.undo m) = true)
    /\ pastTarget target (Nat.iter n TextModel.undo m) = false.
Proof.
  remember (length (TextModel.undoStack m)) as len eqn:Hlen.
  revert m Hlen. induction len as [len IH] using lt_wf_ind. intros m Hlen.
  rewrite cancelLoop_unfold. destruct (pastTarget target m) eqn:Hpast.
  - assert (Hcan : TextModel.canUndo m = true).
    { unfold pastTarget in Hpast. now apply andb_true_iff in Hpast. }
    destruct (IH _ ltac:(subst len; apply undo_stack_length, Hcan)
                (TextModel.undo m) eq_refl) as (n & Heq & Hsteps & Hend).
    exists (S n). rewrite !Nat.iter_succ_r. split; [exact Heq |]. split; [| exact Hend].
    intros [| k] Hk; [exact Hpast |]. rewrite Nat.iter_succ_r. apply Hsteps. lia.
  - exists 0. simpl. split; [reflexivity |]. split; [intros k Hk; lia | exact Hpast].
Qed.


Variable applyEdits : list ISingleEditOperation -> string -> string.






Definition targetAltVersion (session : Session) : Z :=
  default (textModelNAltVersion session) (textModelNSnapshotAltVersion session).

End Cancel.

(** * The request life cycle *)

Section AcceptInput.
Import NotebookChatController.
Variable unexpectedType : string.

Lemma lastInput_addInput (p : string) (s : Session) :
  lastInput (addInput p s) = Some p.
Proof. unfold lastInput, addInput. simpl. apply last_snoc. Qed.



End AcceptInput.

(** * Concrete runs *)

Section ChatExamples.
Import EditStrategy NotebookChatController.

Definition editAt (line col : Z) (txt : string) : ISingleEditOperation :=
  mkEdit (Range.mk line 1 line col) (Some txt).

Definition threeEdits : list ISingleEditOperation :=
  [editAt 2 5 "a"; editAt 7 3 "b"; editAt 7 3 "c"].

Example cursor_example :
  cursorStateComputer threeEdits = Some [Selection.mk 7 3 7 3]
  /\ cursorStateComputer [] = None.
Proof. split; reflexivity. Qed.

Lemma cursorStateComputer_furthest_end_witness :
  exists i edit,
    firstFurthest threeEdits i edit
    /\ cursorStateComputer threeEdits
       = Some [Selection.fromPositions (endOf edit) None]
    /\ forall later,
         cursorStateComputer (threeEdits ++ [later]) =
         Some [Selection.fromPositions
                 (if Position.isBefore (endOf edit) (endOf later)
                  then endOf later else endOf edit) None].
Proof.
  apply (cursorStateComputer_furthest_end threeEdits). discriminate.
Defined.

(** A host that replaces the buffer by the text of the last edit. *)
Definition lastText (edits : list ISingleEditOperation) (old : string) : string :=
  match last edits with
  | Some (mkEdit _ (Some txt)) => txt
  | _ => old
  end.

Definition model0 : TextModel.t :=
  TextModel.mk false "print(1)" 4 4 [TextModel.mkUndo "" 1] true.

Definition session0 : Session := mkSession model0 4 None [] [].

Definition calls0 : list Call :=
  [MakeProgressiveChanges [editAt 1 9 "print(2)"] (mkOpts 50 false);
   MakeChanges [editAt 1 9 "print(3)"]].

Example edits_then_cancel :
  let edited := getModel (snd (run lastText calls0 (create, mkEditor model0 []))) in
  TextModel.getValue edited = "print(3)"
  /\ TextModel.getValue (textModelN (cancel (withTextModelN session0 edited)))
     = "print(1)".
Proof. split; reflexivity. Qed.

Example calls_of_a_run :
  calls (snd (run lastText calls0 (create, mkEditor model0 [])))
  = [PushUndoStop;
     PerformAsyncTextEdit (editAt 1 9 "print(2)") 50;
     ExecuteEdits "inline-chat-live" [editAt 1 9 "print(3)"]]
  /\ calls (apply (fst (run lastText calls0 (create, mkEditor model0 []))) session0
             (mkEditor model0 []))
     = [PushUndoStop]
  /\ calls (apply create session0 (mkEditor model0 [])) = [].
Proof. repeat split. Qed.






Definition controller0 : NotebookChatController.t :=
  NotebookChatController.mk (Some session0) (Some (mkWidget "add a test" true)) true None.

Definition failedTask : Task := Thrown "provider failed".

(** Some message for the error of [assertType]; the runs below have a
    session and a widget and do not meet it. *)
Definition assertionMessage : string := "assertion failed".

Definition rejected : Request :=
  mkRequest (Returned failedTask) (Returned tt) (Returned tt) (Returned tt).

Example acceptInput_rejected :
  acceptInput assertionMessage rejected controller0
  = (NotebookChatController.mk
       (Some (mkSession model0 4 None ["add a test"]
                [mkExchange "add a test" (ErrorResponse "provider failed")]))
       (Some (mkWidget "add a test" true)) false None,
     Returned tt).
Proof. reflexivity. Qed.

(** The early return leaves the key as it was, and a provider call that
    throws instead of returning a task is not inside the [try] statement. *)
Example acceptInput_without_task :
  snd (acceptInput assertionMessage rejected
         (NotebookChatController.mk (Some session0) (Some (mkWidget "hi" false)) true None))
  = Returned tt
  /\ _ctxHasActiveRequest
       (fst (acceptInput assertionMessage rejected
               (NotebookChatController.mk (Some session0) (Some (mkWidget "hi" false))
                  true None)))
     = true
  /\ snd (acceptInput assertionMessage (mkRequest (Thrown "no provider") (Returned tt) (Returned tt)
                         (Returned tt)) controller0)
     = Thrown "no provider".
Proof. repeat split. Qed.


End ChatExamples.

(** * The SCM tree data source *)

Section DataSource.
Import SCM.

#[local] Instance ShowChangesSetting_eq_dec : EqDecision ShowChangesSetting.
Proof. solve_decision. Defined.

(** C10. [hasChildren] decides by the kind of its argument alone: false for
    an input box, an action button, a resource, a history-item change and a
    separator; true for a repository, a resource group, a history-item group
    and a history item, also where [getHistoryItemChanges] then finds no
    child; for a folder node, true exactly when [childrenCount > 0]; for the
    view service, true exactly when some repository is visible; any other
    value makes it throw. *)
Theorem hasChildren_by_kind (this : SCMTreeDataSource) :
  (forall e, hasChildren this (Element (Input e)) = Returned false)
  /\ (forall e, hasChildren this (Element (ActionButton e)) = Returned false)
  /\ (forall e, hasChildren this (Element (Resource e)) = Returned false)
  /\ (forall e, hasChildren this (Element (HistoryItemChange e)) = Returned false)
  /\ (forall e, hasChildren this (Element (Separator e)) = Returned false)
  /\ (forall e, hasChildren this (Element (Repository e)) = Returned true)
  /\ (forall e, hasChildren this (Element (ResourceGroup e)) = Returned true)
  /\ (forall e, hasChildren this (Element (HistoryItemGroup e)) = Returned true)
  /\ (forall e, hasChildren this (Element (HistoryItem e)) = Returned true)
  /\ (forall e, hasChildren this (Element (ResourceNode e))
                = Returned (bool_decide (childrenCount e > 0)%Z))
  /\ (forall e, hasChildren this (Element (HistoryItemChangeNode e))
                = Returned (bool_decide (childrenCount e > 0)%Z))
  /\ (forall e, isReturned (hasChildren this (Element e)) = true)
  /\ (forall s, hasChildren this (ViewService s)
                = Returned (bool_decide (visibleRepositories (scmViewService this) <> [])))
  /\ hasChildren this OtherValue = Thrown NotImplemented
  /\ (forall resourceTreeChildren e,
         historyProvider (repository_provider (hig_repository (historyItemGroup e)))
         = None ->
         hasChildren this (Element (HistoryItem e)) = Returned true
         /\ fst (getHistoryItemChanges resourceTreeChildren this e) = []).
Proof.
  assert (Hpos : forall n : Z, (0 <? n)%Z = bool_decide (n > 0)%Z).
  { intros n. case_bool_decide; [apply Z.ltb_lt | apply Z.ltb_ge]; lia. }
  repeat match goal with |- _ /\ _ => split end; try reflexivity.
  - intros e. now rewrite <- Hpos.
  - intros e. now rewrite <- Hpos.
  - intros e. now destruct e.
  - intros s.
    change (hasChildren this (ViewService s))
      with (Returned (E := HasChildrenError)
              (negb (Nat.eqb (length (visibleRepositories (scmViewService this))) 0))).
    f_equal.
    destruct (visibleRepositories (scmViewService this));
      case_bool_decide; simpl; congruence.
  - intros rtc e H. split; [reflexivity |].
    unfold getHistoryItemChanges. now rewrite H.
Qed.

(** The visible part of a group under a setting: the group when the
    setting is always, or auto with a positive count. *)
Definition visibleGroup (setting : ShowChangesSetting)
    (group : option SCMHistoryItemGroupTreeElement)
  : list SCMHistoryItemGroupTreeElement :=
  match group with
  | Some g =>
      if decide (setting = always
                 \/ (setting = auto /\ (0 < default 0 (hig_count g))%Z))
      then [g] else []
  | None => []
  end.

Lemma pushIf_shown (setting : ShowChangesSetting) (g : SCMHistoryItemGroupTreeElement)
    (children : list SCMHistoryItemGroupTreeElement) :
  pushIf (shown setting g) g children = children ++ visibleGroup setting (Some g).
Proof.
  unfold pushIf, shown, visibleGroup.
  destruct setting; case_decide as Hd; try reflexivity;
    try (now rewrite app_nil_r);
    try (exfalso; destruct Hd as [Hd | [Hd _]]; discriminate);
    try (exfalso; apply Hd; now left).
  - destruct Hd as [Hd | [_ Hd]]; [discriminate |].
    now rewrite (proj2 (Z.ltb_lt _ _) Hd).
  - destruct (Z.ltb_spec 0 (default 0%Z (hig_count g))); [| now rewrite app_nil_r].
    exfalso. apply Hd. now right.
Qed.

(** The incoming and outgoing groups derived from a resolved ancestor. *)
Definition derivedIncoming (element : ISCMRepository) (current : CurrentHistoryItemGroup)
    (ancestor : Ancestor) : option SCMHistoryItemGroupTreeElement :=
  (fun b => mkHistoryItemGroup (base_id b) (base_label b)
              ("Incoming changes from " +:+ base_label b) incoming
              (Some (ancestor_id ancestor)) (Some (behind ancestor)) element)
    <$> base current.

Definition derivedOutgoing (element : ISCMRepository) (current : CurrentHistoryItemGroup)
    (ancestor : Ancestor) : SCMHistoryItemGroupTreeElement :=
  mkHistoryItemGroup (current_id current) (current_label current)
    ("Outgoing changes to " +:+ current_label current) outgoing
    (Some (ancestor_id ancestor)) (Some (ahead ancestor)) element.

(** C6. [getHistoryItemGroups] returns nothing when the repository has no
    history provider, no current history item group, when both settings are
    never, or when the common ancestor is resolved (nothing being cached) and
    there is none. Otherwise the groups in effect are the cached ones, or
    else the ones derived from the ancestor (an incoming group only with a
    base), and the result is the incoming group, if it exists and its
    setting is always or auto with a positive count, followed by the
    outgoing group under the same rule. *)
Theorem getHistoryItemGroups_visibility
    (this : SCMTreeDataSource) (element : ISCMRepository) :
  let cfg := configuration this in
  let entry := getHistoryProviderCacheEntry this element in
  let result := getHistoryItemGroups this element in
  (historyProvider (repository_provider element) = None -> result = ([], this))
  /\ (forall hp,
         historyProvider (repository_provider element) = Some hp ->
         currentHistoryItemGroup hp = None -> result = ([], this))
  /\ (showIncomingChanges cfg = never -> showOutgoingChanges cfg = never ->
      result = ([], this))
  /\ (forall hp current,
         historyProvider (repository_provider element) = Some hp ->
         currentHistoryItemGroup hp = Some current ->
         ~ (showIncomingChanges cfg = never /\ showOutgoingChanges cfg = never) ->
         (* nothing cached: the common ancestor is resolved *)
         (incomingHistoryItemGroup entry = None ->
          outgoingHistoryItemGroup entry = None ->
          match resolveHistoryItemGroupCommonAncestor hp (current_id current)
                  (base_id <$> base current) with
          | None => result = ([], this)
          | Some ancestor =>
              fst result
              = visibleGroup (showIncomingChanges cfg)
                  (derivedIncoming element current ancestor)
                ++ visibleGroup (showOutgoingChanges cfg)
                     (Some (derivedOutgoing element current ancestor))
              /\ (is_Some (derivedIncoming element current ancestor)
                  <-> is_Some (base current))
          end)
         (* a cached group: no resolution *)
         /\ (is_Some (incomingHistoryItemGroup entry)
             \/ is_Some (outgoingHistoryItemGroup entry) ->
             result
             = (visibleGroup (showIncomingChanges cfg) (incomingHistoryItemGroup entry)
                ++ visibleGroup (showOutgoingChanges cfg)
                     (outgoingHistoryItemGroup entry),
                this))).
Proof.
  intros cfg entry result. subst result. unfold getHistoryItemGroups.
  fold cfg. fold entry.
  split; [intros ->; reflexivity |].
  split; [intros hp -> ->; reflexivity |].
  split.
  { intros Hi Ho. destruct (historyProvider (repository_provider element)) as [hp |];
      [| reflexivity].
    destruct (currentHistoryItemGroup hp); [| reflexivity].
    unfold bothNever. now rewrite Hi, Ho. }
  intros hp current -> -> Hnever.
  assert (Hb : bothNever cfg = false).
  { unfold bothNever.
    destruct (showIncomingChanges cfg), (showOutgoingChanges cfg); try reflexivity.
    exfalso. now apply Hnever. }
  rewrite Hb. split.
  - intros -> ->.
    destruct (resolveHistoryItemGroupCommonAncestor hp (current_id current)
                (base_id <$> base current)) as [ancestor |]; [| reflexivity].
    unfold derivedIncoming, derivedOutgoing. split.
    + destruct (base current) as [b |]; simpl fst; rewrite ?pushIf_shown;
        simpl; reflexivity.
    + destruct (base current); simpl; split; intros [x Hx]; eauto; discriminate.
  - intros Hcached.
    destruct (incomingHistoryItemGroup entry) as [inc |],
             (outgoingHistoryItemGroup entry) as [out |];
      rewrite ?pushIf_shown; simpl; rewrite ?app_nil_r; try reflexivity.
    destruct Hcached as [[x Hx] | [x Hx]]; discriminate.
Qed.
End DataSource.

(** * The cache of history item changes *)

Section HistoryItemChangesCache.
Import SCM.

Definition fileChange (path : string) : ISCMHistoryItemChange :=
  mkChange (mkURI ("file://" +:+ path) path).

(** A history provider that answers differently for the two pairs
    [("a/b", "c")] and [("a", "b/c")]. *)
Definition twoCommits : ISCMHistoryProvider :=
  mkHistoryProvider None (fun _ _ => None)
    (fun id parent =>
       if String.eqb id "a/b" then Some [fileChange "/src/one.ts"]
       else Some [fileChange "/src/two.ts"]).

Definition repo1 : ISCMRepository :=
  mkRepository "repo1" (mkProvider "scm0" (Some twoCommits)).

Definition group1 : SCMHistoryItemGroupTreeElement :=
  mkHistoryItemGroup "main" "main" "Outgoing changes to main" outgoing
    (Some "base") (Some 2%Z) repo1.

Definition itemOne : SCMHistoryItemTreeElement :=
  mkHistoryItem "a/b" ["c"] "first" group1 historyItem.
Definition itemTwo : SCMHistoryItemTreeElement :=
  mkHistoryItem "a" ["b/c"] "second" group1 historyItem.

Definition emptySource : SCMTreeDataSource :=
  mkDataSource ViewModeList (mkConfiguration always always)
    (mkViewService [repo1]) ∅.

Definition noTree (_ : SCMHistoryItemTreeElement)
    (_ : list SCMHistoryItemChangeTreeElement) : list TreeElement := [].

Definition changeUris (l : list TreeElement) : list string :=
  omap (fun e => uri_toString <$> prop_uri e) l.

Definition asElements (element : SCMHistoryItemTreeElement)
    (changes : list ISCMHistoryItemChange) : list TreeElement :=
  map HistoryItemChange
      (map (fun change => mkHistoryItemChange (change_uri change) element) changes).

Lemma changeUris_asElements (element : SCMHistoryItemTreeElement)
    (changes : list ISCMHistoryItemChange) :
  changeUris (asElements element changes)
  = map (fun c => uri_toString (change_uri c)) changes.
Proof.
  induction changes as [| c l IH]; [reflexivity |].
  unfold changeUris, asElements in *. simpl. f_equal. exact IH.
Qed.

Lemma getHistoryProviderCacheEntry_setCache (this : SCMTreeDataSource)
    (repository : ISCMRepository) (entry : ISCMHistoryProviderCacheEntry) :
  getHistoryProviderCacheEntry (setCache this repository entry) repository = entry.
Proof.
  unfold getHistoryProviderCacheEntry, setCache. simpl. now rewrite lookup_insert_eq.
Qed.

(** [getHistoryItemChanges] in list view mode: a cache hit, or a call of the
    provider whose answer is stored under the key. *)
Lemma getHistoryItemChanges_list resourceTreeChildren
    (this : SCMTreeDataSource) (element : SCMHistoryItemTreeElement)
    (hp : ISCMHistoryProvider) :
  historyProvider (repository_provider (hig_repository (historyItemGroup element)))
  = Some hp ->
  viewMode this = ViewModeList ->
  let repository := hig_repository (historyItemGroup element) in
  let entry := getHistoryProviderCacheEntry this repository in
  let key := historyItemChangesKey (hi_id element) (historyItemParentId element) in
  getHistoryItemChanges resourceTreeChildren this element
  = match historyItemChanges entry !! key with
    | Some changes => (asElements element changes, this)
    | None =>
        let changes :=
          default [] (provideHistoryItemChanges hp (hi_id element)
                        (historyItemParentId element)) in
        (asElements element changes,
         setCache this repository
           (mkCacheEntry (incomingHistoryItemGroup entry) (outgoingHistoryItemGroup entry)
              (<[key := changes]> (historyItemChanges entry))))
    end.
Proof.
  intros Hhp Hmode repository entry key. unfold getHistoryItemChanges.
  rewrite Hhp. fold repository. fold entry. fold key.
  destruct (historyItemChanges entry !! key); simpl; now rewrite Hmode.
Qed.

(** A hit in the cache answers for whichever item computes the same key. *)
Lemma getHistoryItemChanges_shared_slot resourceTreeChildren
    (this : SCMTreeDataSource) (e1 e2 : SCMHistoryItemTreeElement)
    (hp : ISCMHistoryProvider) :
  hig_repository (historyItemGroup e1) = hig_repository (historyItemGroup e2) ->
  historyProvider (repository_provider (hig_repository (historyItemGroup e1))) = Some hp ->
  historyItemChangesKey (hi_id e1) (historyItemParentId e1)
  = historyItemChangesKey (hi_id e2) (historyItemParentId e2) ->
  viewMode this = ViewModeList ->
  let this1 := snd (getHistoryItemChanges resourceTreeChildren this e1) in
  changeUris (fst (getHistoryItemChanges resourceTreeChildren this1 e2))
  = changeUris (fst (getHistoryItemChanges resourceTreeChildren this e1))
  /\ snd (getHistoryItemChanges resourceTreeChildren this1 e2) = this1.
Proof.
  intros Hrepo Hhp Hkey Hmode this1. subst this1.
  rewrite (getHistoryItemChanges_list _ this e1 hp Hhp Hmode). cbv zeta.
  set (repo := hig_repository (historyItemGroup e1)).
  set (key := historyItemChangesKey (hi_id e1) (historyItemParentId e1)).
  assert (Hhp2 : historyProvider (repository_provider
                                    (hig_repository (historyItemGroup e2))) = Some hp)
    by now rewrite <- Hrepo.
  destruct (historyItemChanges (getHistoryProviderCacheEntry this repo) !! key)
    as [cached |] eqn:Hlook; simpl fst; simpl snd.
  - rewrite (getHistoryItemChanges_list _ this e2 hp Hhp2 Hmode). cbv zeta.
    rewrite <- Hrepo, <- Hkey. fold repo key. rewrite Hlook. simpl.
    now rewrite !changeUris_asElements.
  - rewrite getHistoryItemChanges_list with (hp := hp);
      [| exact Hhp2 | exact Hmode]. cbv zeta.
    rewrite <- Hrepo, <- Hkey. fold repo key.
    rewrite getHistoryProviderCacheEntry_setCache. simpl historyItemChanges.
    rewrite lookup_insert_eq. simpl.
    now rewrite !changeUris_asElements.
Qed.

(** C9. The cache key [id + '/' + parentId] is not injective: the items
    [("a/b", "c")] and [("a", "b/c")], whose identifiers contain the
    delimiter, have the same key, and so do an item without parent and one
    whose parent id is the text [undefined]; after the changes of the first
    item are cached, asking for the second returns them, not what the
    provider holds for it. *)
Theorem historyItemChangesKey_not_injective :
  (hi_id itemOne, historyItemParentId itemOne)
    <> (hi_id itemTwo, historyItemParentId itemTwo)
  /\ historyItemChangesKey (hi_id itemOne) (historyItemParentId itemOne)
     = historyItemChangesKey (hi_id itemTwo) (historyItemParentId itemTwo)
  /\ historyItemChangesKey "a" None = historyItemChangesKey "a" (Some "undefined")
  /\ (let this1 := snd (getHistoryItemChanges noTree emptySource itemOne) in
      changeUris (fst (getHistoryItemChanges noTree emptySource itemOne))
      = ["file:///src/one.ts"]
      /\ changeUris (fst (getHistoryItemChanges noTree emptySource itemTwo))
         = ["file:///src/two.ts"]
      /\ changeUris (fst (getHistoryItemChanges noTree this1 itemTwo))
         = ["file:///src/one.ts"]).
Proof.
  split; [discriminate |]. split; [reflexivity |]. split; [reflexivity |].
  cbv zeta. split; [reflexivity |]. split; [reflexivity |].
  destruct (getHistoryItemChanges_shared_slot noTree emptySource itemOne itemTwo
              twoCommits eq_refl eq_refl eq_refl eq_refl) as [Huris _].
  rewrite Huris. reflexivity.
Qed.
End HistoryItemChangesCache.

(** * The tree sorter *)

Section SorterProperties.
Import SCM.

Variable basename : URI -> string.
Variable compareFileNames : string -> string -> Z.
Variable comparePaths : string -> string -> Z.
Variable compareStrings : string -> string -> Z.
Variable viewMode : ViewMode.
Variable viewSortKey : ViewSortKey.

Abbreviation sorterCompare :=
  (compare basename compareFileNames comparePaths compareStrings viewMode viewSortKey).

(** Closes a goal from [H : k ∈ [k1; ...; kn]] when [k] is none of them. *)
Ltac not_among H :=
  exfalso;
  repeat (apply elem_of_cons in H as [H | H]; [discriminate H |]);
  now apply elem_of_nil in H.

(** A comparator is antisymmetric when swapping its arguments flips the
    sign of the result. *)
Definition antisymmetric (cmp : string -> string -> Z) : Prop :=
  forall a b, Z.sgn (cmp a b) = (- Z.sgn (cmp b a))%Z.

(** Both calls return a number, and the numbers have opposite signs or are
    both zero. *)
Definition oppositeSigns (r1 r2 : Completion CompareError Z) : Prop :=
  match r1, r2 with
  | Returned x, Returned y => Z.sgn x = (- Z.sgn y)%Z
  | _, _ => False
  end.

(** The place of a kind in the order
    repository < input box < action button < resource group < separator <
    history item group; [None] for a kind outside it. *)
Definition chainRank (k : Kind) : option nat :=
  match k with
  | KRepository => Some 0
  | KInput => Some 1
  | KActionButton => Some 2
  | KResourceGroup => Some 3
  | KSeparator => Some 4
  | KHistoryItemGroup => Some 5
  | _ => None
  end.

Hypothesis compareFileNames_antisym : antisymmetric compareFileNames.
Hypothesis comparePaths_antisym : antisymmetric comparePaths.
Hypothesis compareStrings_antisym : antisymmetric compareStrings.

Lemma compareResourcesList_antisym (r1 r2 : ISCMResource) :
  oppositeSigns
    (compareResourcesList basename compareFileNames comparePaths compareStrings
       viewSortKey (Resource r1) (Resource r2))
    (compareResourcesList basename compareFileNames comparePaths compareStrings
       viewSortKey (Resource r2) (Resource r1)).
Proof using compareFileNames_antisym comparePaths_antisym compareStrings_antisym.
  unfold compareResourcesList, compareResourcesByPath.
  destruct viewSortKey; simpl.
  - apply comparePaths_antisym.
  - apply compareFileNames_antisym.
  - rewrite (String.eqb_sym (default "" (decorations_tooltip r2))).
    destruct (String.eqb (default "" (decorations_tooltip r1))
                         (default "" (decorations_tooltip r2))); simpl.
    + apply comparePaths_antisym.
    + apply compareStrings_antisym.
Qed.

(** C3, as the code has it. For two elements of one kind, [compare] called
    both ways returns numbers of opposite signs (or zero twice), the imported
    comparators being antisymmetric, when the kind is a repository, a
    resource group, a resource, a history-item group, a history item or a
    history-item change, and for folder nodes in tree view mode; for two
    input boxes, two action buttons or two separators it returns -1 both
    ways. *)
Theorem compare_same_kind (a b : TreeElement) :
  kind a = kind b ->
  match kind a with
  | KInput | KActionButton | KSeparator =>
      sorterCompare a b = Returned (-1)%Z /\ sorterCompare b a = Returned (-1)%Z
  | KResourceNode | KHistoryItemChangeNode =>
      viewMode = ViewModeTree -> oppositeSigns (sorterCompare a b) (sorterCompare b a)
  | _ => oppositeSigns (sorterCompare a b) (sorterCompare b a)
  end.
Proof using compareFileNames_antisym comparePaths_antisym compareStrings_antisym.
  destruct a as [a|a|a|a|a|a|a|a|a|a|a], b as [b|b|b|b|b|b|b|b|b|b|b];
    simpl; intros Hk; try discriminate Hk; try (split; reflexivity);
    try reflexivity.
  - (* resources *)
    unfold compare. simpl. unfold isList. destruct viewMode.
    + apply compareResourcesList_antisym.
    + unfold compareResourcesTree. simpl. apply compareFileNames_antisym.
  - (* resource folder nodes *)
    intros ->. unfold compare, compareResourcesTree. simpl.
    apply compareFileNames_antisym.
  - (* history item changes *)
    unfold compare, compareHistoryItemChanges, isList. simpl.
    destruct viewMode; simpl;
      [apply comparePaths_antisym | apply compareFileNames_antisym].
  - (* history item change folder nodes *)
    intros ->. unfold compare, compareHistoryItemChanges. simpl.
    apply compareFileNames_antisym.
Qed.

(** C4, as the code has it. Among input box, action button, resource
    group, separator and history-item group, two elements of distinct kinds
    compare negative when the first kind comes earlier in that chain and
    positive otherwise; a repository compared with anything but a repository
    raises 'Invalid comparison'; so does a history item compared with a
    resource, a folder node or a history-item change, and a history-item
    change or its folder node compared with a history item, a resource or a
    resource folder node. *)
Theorem compare_kind_order (a b : TreeElement) :
  (forall i j,
      chainRank (kind a) = Some i -> chainRank (kind b) = Some j ->
      1 <= i -> 1 <= j -> i <> j ->
      (i < j -> sorterCompare a b = Returned (-1)%Z)
      /\ (j < i -> sorterCompare a b = Returned 1%Z))
  /\ (kind a = KRepository -> kind b <> KRepository ->
      sorterCompare a b = Thrown InvalidComparison)
  /\ (kind a = KHistoryItem ->
      kind b ∈ [KResource; KResourceNode; KHistoryItemChange; KHistoryItemChangeNode] ->
      sorterCompare a b = Thrown InvalidComparison)
  /\ (kind a ∈ [KHistoryItemChange; KHistoryItemChangeNode] ->
      kind b ∈ [KHistoryItem; KResource; KResourceNode] ->
      sorterCompare a b = Thrown InvalidComparison).
Proof using Type.
  split; [| split; [| split]].
  - intros i j Hi Hj Hi1 Hj1 Hij.
    destruct a, b; simpl in Hi, Hj; try discriminate;
      injection Hi as <-; injection Hj as <-;
      split; intros Hlt; try lia; reflexivity.
  - intros Ha Hb. destruct a; try discriminate Ha.
    destruct b; try reflexivity. now contradiction Hb.
  - intros Ha Hb. destruct a; try discriminate Ha.
    destruct b; simpl in Hb; try reflexivity; not_among Hb.
  - intros Ha Hb.
    destruct a; simpl in Ha; try (not_among Ha);
      destruct b; simpl in Hb; try (not_among Hb);
      unfold compare, compareHistoryItemChanges, isList; simpl;
      destruct viewMode; reflexivity.
Qed.
End SorterProperties.

Section SorterExamples.
Import SCM.

(** [compare] of [vs/base/common/strings]: -1, 0 or 1 by code units. *)
Definition codeUnitCompare (a b : string) : Z :=
  match String.compare a b with
  | Lt => (-1)%Z
  | Eq => 0%Z
  | Gt => 1%Z
  end.

Lemma codeUnitCompare_antisym : antisymmetric codeUnitCompare.
Proof.
  intros a b. unfold codeUnitCompare. rewrite (String.compare_antisym b a).
  now destruct (String.compare a b).
Qed.

Definition wholePath (u : URI) : string := fsPath u.

Abbreviation exampleCompare mode key :=
  (compare wholePath codeUnitCompare codeUnitCompare codeUnitCompare mode key).

Definition repoA : ISCMRepository := mkRepository "repoA" (mkProvider "scm0" None).
Definition inputA : ISCMInput := mkInput repoA "fix typo".
Definition inputB : ISCMInput := mkInput repoA "add tests".
Definition buttonA : ISCMActionButton := mkActionButton repoA.
Definition buttonB : ISCMActionButton :=
  mkActionButton (mkRepository "repoB" (mkProvider "scm1" None)).
Definition separatorA : SCMViewSeparatorElement :=
  mkSeparator "Incoming/Outgoing" "Incoming and outgoing changes" repoA.
Definition groupA : ISCMResourceGroup :=
  mkResourceGroup (mkProvider "scm0" None) "workingTree" "Changes".
Definition resourceA : ISCMResource :=
  mkResource groupA (mkURI "file:///w/a.ts" "/w/a.ts") (Some "Modified").
Definition resourceB : ISCMResource :=
  mkResource groupA (mkURI "file:///w/b.ts" "/w/b.ts") None.
Definition folderA : IResourceNode ISCMResourceGroup :=
  mkNode groupA (mkURI "file:///w/src" "/w/src") "src" 2.
Definition historyItemA : SCMHistoryItemTreeElement :=
  mkHistoryItem "c0ffee" ["beef"] "commit"
    (mkHistoryItemGroup "main" "main" "Outgoing changes to main" outgoing
       (Some "base") (Some 1%Z) repoA)
    historyItem.

(** C3 fails on the code: two input boxes compare as -1 both ways, and so
    do two action buttons. *)
Lemma compare_two_inputs_both_negative :
  kind (Input inputA) = kind (Input inputB)
  /\ exampleCompare ViewModeList SortPath (Input inputA) (Input inputB)
     = Returned (-1)%Z
  /\ exampleCompare ViewModeList SortPath (Input inputB) (Input inputA)
     = Returned (-1)%Z
  /\ ~ oppositeSigns
         (exampleCompare ViewModeList SortPath (Input inputA) (Input inputB))
         (exampleCompare ViewModeList SortPath (Input inputB) (Input inputA))
  /\ kind (ActionButton buttonA) = kind (ActionButton buttonB)
  /\ ~ oppositeSigns
         (exampleCompare ViewModeList SortPath (ActionButton buttonA) (ActionButton buttonB))
         (exampleCompare ViewModeList SortPath (ActionButton buttonB) (ActionButton buttonA)).
Proof. repeat split; simpl; discriminate. Qed.

Lemma compare_same_kind_witness :
  oppositeSigns
    (exampleCompare ViewModeList SortStatus (Resource resourceA) (Resource resourceB))
    (exampleCompare ViewModeList SortStatus (Resource resourceB) (Resource resourceA)).
Proof.
  apply (compare_same_kind wholePath codeUnitCompare codeUnitCompare codeUnitCompare
           ViewModeList SortStatus
           codeUnitCompare_antisym codeUnitCompare_antisym codeUnitCompare_antisym
           (Resource resourceA) (Resource resourceB) eq_refl).
Defined.

Example compare_resources_by_status :
  exampleCompare ViewModeList SortStatus (Resource resourceA) (Resource resourceB)
  = Returned 1%Z
  /\ exampleCompare ViewModeList SortPath (Resource resourceA) (Resource resourceB)
     = Returned (-1)%Z.
Proof. split; reflexivity. Qed.

(** C4 fails on the code: a repository before an input box raises an error
    instead of comparing negative, an input box before a repository compares
    negative, and in tree view mode a resource folder node and a history
    item, kinds outside the chain, compare as -1. *)
Lemma compare_repository_input_throws :
  chainRank (kind (Repository repoA)) = Some 0
  /\ chainRank (kind (Input inputA)) = Some 1
  /\ exampleCompare ViewModeList SortPath (Repository repoA) (Input inputA)
     = Thrown InvalidComparison
  /\ exampleCompare ViewModeList SortPath (Input inputA) (Repository repoA)
     = Returned (-1)%Z
  /\ chainRank (kind (ResourceNode folderA)) = None
  /\ chainRank (kind (HistoryItem historyItemA)) = None
  /\ exampleCompare ViewModeTree SortPath (ResourceNode folderA) (HistoryItem historyItemA)
     = Returned (-1)%Z.
Proof. repeat split. Qed.

Lemma compare_kind_order_witness :
  exampleCompare ViewModeTree SortName (Input inputA) (Separator separatorA)
  = Returned (-1)%Z.
Proof.
  apply (proj1 (compare_kind_order wholePath codeUnitCompare codeUnitCompare
                  codeUnitCompare ViewModeTree SortName
                  (Input inputA) (Separator separatorA)) 1 4);
    simpl; solve [reflexivity | lia].
Defined.
End SorterExamples.

(** * The identity of tree elements *)

Section ResourceIds.
Import SCM.

(** [c] does not occur in [s]. *)
Fixpoint charFree (c : ascii) (s : string) : bool :=
  match s with
  | EmptyString => true
  | String a rest => negb (Ascii.eqb a c) && charFree c rest
  end.

Definition slashFree (s : string) : bool := charFree "/"%char s.

(** A parent id that [join] keeps apart from its neighbours. *)
Definition plainParentId (s : string) : bool :=
  charFree ","%char s && negb (String.eqb s "").

(** The id components that precede a delimiter are free of it. *)
Definition delimiterFree (element : TreeElement) : bool :=
  match element with
  | Repository _ | Input _ | ActionButton _ | Separator _ => true
  | ResourceGroup e => slashFree (provider_id (group_provider e))
  | Resource e =>
      slashFree (provider_id (group_provider (resourceGroup e)))
      && slashFree (group_id (resourceGroup e))
  | ResourceNode e =>
      slashFree (provider_id (group_provider (node_context e)))
      && slashFree (group_id (node_context e))
  | HistoryItemGroup e => slashFree (provider_id (repository_provider (hig_repository e)))
  | HistoryItem e =>
      slashFree (provider_id (repository_provider (hig_repository (historyItemGroup e))))
      && slashFree (hig_id (historyItemGroup e))
      && slashFree (hi_id e)
      && forallb plainParentId (hi_parentIds e)
  | HistoryItemChange e =>
      let item := hic_historyItem e in
      slashFree (provider_id (repository_provider (hig_repository (historyItemGroup item))))
      && slashFree (hig_id (historyItemGroup item))
      && slashFree (hi_id item)
  | HistoryItemChangeNode e =>
      let item := node_context e in
      slashFree (provider_id (repository_provider (hig_repository (historyItemGroup item))))
      && slashFree (hig_id (historyItemGroup item))
      && slashFree (hi_id item)
      && negb (String.eqb (hi_id item) "$FOLDER")
  end.

Lemma append_char (c : ascii) (s : string) : String c "" +:+ s = String c s.
Proof. reflexivity. Qed.

Lemma append_delimiter_inj (c : ascii) (a a' b b' : string) :
  charFree c a = true -> charFree c a' = true ->
  a +:+ String c "" +:+ b = a' +:+ String c "" +:+ b' ->
  a = a' /\ b = b'.
Proof.
  rewrite !append_char.
  revert a'. induction a as [| x a IH]; intros [| x' a'] Ha Ha' Heq; simpl in *.
  - now injection Heq as ->.
  - injection Heq as <- _. now rewrite Ascii.eqb_refl in Ha'.
  - injection Heq as -> _. now rewrite Ascii.eqb_refl in Ha.
  - injection Heq as -> Heq.
    apply andb_true_iff in Ha as [_ Ha]. apply andb_true_iff in Ha' as [_ Ha'].
    destruct (IH a' Ha Ha' Heq) as [-> ->]. now split.
Qed.

Lemma charFree_append_delimiter (c : ascii) (a b : string) :
  charFree c (a +:+ String c "" +:+ b) = false.
Proof.
  rewrite append_char. induction a as [| x a IH]; simpl.
  - now rewrite Ascii.eqb_refl.
  - rewrite IH. apply andb_false_r.
Qed.

Lemma append_prefix_inj (p a b : string) : p +:+ a = p +:+ b -> a = b.
Proof.
  induction p as [| x p IH]; simpl; [easy |]. intros H. injection H as H. now apply IH.
Qed.

Lemma join_cons (sep x y : string) (l : list string) :
  join sep (x :: y :: l) = x +:+ sep +:+ join sep (y :: l).
Proof. reflexivity. Qed.

Lemma join_inj (l l' : list string) :
  forallb plainParentId l = true -> forallb plainParentId l' = true ->
  join "," l = join "," l' -> l = l'.
Proof.
  revert l'. induction l as [| x l IH]; intros [| x' l'] Hl Hl' Heq.
  - reflexivity.
  - exfalso. simpl in Hl'. apply andb_true_iff in Hl' as [Hx' _].
    unfold plainParentId in Hx'. apply andb_true_iff in Hx' as [_ Hx'].
    destruct x'; [discriminate Hx' |]. destruct l'; discriminate Heq.
  - exfalso. simpl in Hl. apply andb_true_iff in Hl as [Hx _].
    unfold plainParentId in Hx. apply andb_true_iff in Hx as [_ Hx].
    destruct x; [discriminate Hx |]. destruct l; discriminate Heq.
  - simpl in Hl, Hl'.
    apply andb_true_iff in Hl as [Hx Hl]. apply andb_true_iff in Hl' as [Hx' Hl'].
    unfold plainParentId in Hx, Hx'.
    apply andb_true_iff in Hx as [Hx _]. apply andb_true_iff in Hx' as [Hx' _].
    destruct l as [| y l], l' as [| y' l'].
    + simpl in Heq. now subst.
    + exfalso. rewrite join_cons in Heq. simpl join in Heq at 1. subst x.
      now rewrite charFree_append_delimiter in Hx.
    + exfalso. rewrite join_cons in Heq. simpl join in Heq at 2. subst x'.
      now rewrite charFree_append_delimiter in Hx'.
    + rewrite !join_cons in Heq.
      apply append_delimiter_inj in Heq as [-> Heq]; [| assumption | assumption].
      f_equal. now apply IH.
Qed.

(** Splits an equation between two ids at their next delimiter. *)
Ltac split_at_slash :=
  match goal with
  | H : ?a +:+ "/" +:+ _ = ?a' +:+ "/" +:+ _ |- _ =>
      apply append_delimiter_inj in H as [? H]; [| assumption | assumption]
  end.

Ltac unpack_delimiterFree :=
  unfold slashFree in *;
  repeat match goal with
    | H : _ && _ = true |- _ => apply andb_true_iff in H as [? ?]
    | H : negb _ = true |- _ => apply negb_true_iff in H
    end.

(** C5, as the code has it. [getSCMResourceId] gives a string for every
    element of the union, and on elements whose id components in front of a
    delimiter are free of it (no '/' in provider, group, history-item-group
    and history-item ids, plain parent ids, no history item called
    '$FOLDER' under a change folder node) equal strings mean equal kind,
    provider id, nested ids and uri. *)
Theorem getSCMResourceId_injective (e1 e2 : TreeElement) :
  delimiterFree e1 = true -> delimiterFree e2 = true ->
  getSCMResourceId e1 = getSCMResourceId e2 ->
  logicalKey e1 = logicalKey e2.
Proof.
  intros H1 H2 Heq.
  destruct e1 as [a|a|a|a|a|a|a|a|a|a|a], e2 as [b|b|b|b|b|b|b|b|b|b|b];
    simpl in H1, H2, Heq; try discriminate Heq;
    unpack_delimiterFree;
    change ("/$FOLDER/" +:+ ?u) with ("/" +:+ "$FOLDER/" +:+ u) in Heq;
    apply append_prefix_inj in Heq;
    repeat split_at_slash; simpl;
    try (apply append_prefix_inj in Heq);
    try (apply join_inj in Heq; [| assumption | assumption]);
    try congruence.
  - (* a resource folder node and a history-item change folder node *)
    exfalso.
    change ("$FOLDER/" +:+ ?u) with ("$FOLDER" +:+ "/" +:+ u) in Heq at 1.
    apply append_delimiter_inj in Heq as [Hitem _]; [| reflexivity | assumption].
    match goal with H : String.eqb _ "$FOLDER" = false |- _ =>
      rewrite <- Hitem in H; discriminate H end.
  - exfalso.
    change ("$FOLDER/" +:+ ?u) with ("$FOLDER" +:+ "/" +:+ u) in Heq at 2.
    apply append_delimiter_inj in Heq as [Hitem _]; [| assumption | reflexivity].
    match goal with H : String.eqb _ "$FOLDER" = false |- _ =>
      rewrite Hitem in H; discriminate H end.
Qed.

(** Every kind of the union has an id: [getSCMResourceId] has no failing
    branch on [TreeElement], and the id starts with the tag of the kind. *)
Definition idTag (k : Kind) : string :=
  match k with
  | KRepository => "repo:"
  | KInput => "input:"
  | KActionButton => "actionButton:"
  | KResourceGroup => "resourceGroup:"
  | KResource => "resource:"
  | KResourceNode | KHistoryItemChangeNode => "folder:"
  | KHistoryItemGroup => "historyItemGroup:"
  | KHistoryItem => "historyItem:"
  | KHistoryItemChange => "historyItemChange:"
  | KSeparator => "separator:"
  end.

Lemma getSCMResourceId_tag (e : TreeElement) :
  exists rest, getSCMResourceId e = idTag (kind e) +:+ rest.
Proof. destruct e; simpl; eexists; reflexivity. Qed.
End ResourceIds.

Section IdentityExamples.
Import SCM.

Definition groupSlashInProvider : ISCMResourceGroup :=
  mkResourceGroup (mkProvider "a/b" None) "c" "Changes".
Definition groupSlashInId : ISCMResourceGroup :=
  mkResourceGroup (mkProvider "a" None) "b/c" "Changes".

Definition folderUnderGroup : IResourceNode ISCMResourceGroup :=
  mkNode (mkResourceGroup (mkProvider "scm0" None) "main/c0ffee" "Changes")
         (mkURI "file:///w/src" "/w/src") "src" 1.
Definition folderUnderHistoryItem : IResourceNode SCMHistoryItemTreeElement :=
  mkNode historyItemA (mkURI "file:///w/src" "/w/src") "src" 1.

(** C5 fails on the code: ids that contain the delimiter collide, within a
    kind and across the two kinds of folder node. *)
Lemma getSCMResourceId_collision :
  logicalKey (ResourceGroup groupSlashInProvider)
    <> logicalKey (ResourceGroup groupSlashInId)
  /\ getSCMResourceId (ResourceGroup groupSlashInProvider) = "resourceGroup:a/b/c"
  /\ getSCMResourceId (ResourceGroup groupSlashInId) = "resourceGroup:a/b/c"
  /\ kind (ResourceNode folderUnderGroup) <> kind (HistoryItemChangeNode folderUnderHistoryItem)
  /\ getSCMResourceId (ResourceNode folderUnderGroup)
     = getSCMResourceId (HistoryItemChangeNode folderUnderHistoryItem).
Proof. repeat split; discriminate. Qed.

(** The same resource seen with another tooltip. *)
Definition resourceA' : ISCMResource :=
  mkResource groupA (mkURI "file:///w/a.ts" "/w/a.ts") (Some "Deleted").

Lemma getSCMResourceId_injective_witness :
  logicalKey (Resource resourceA) = logicalKey (Resource resourceA').
Proof. apply getSCMResourceId_injective; reflexivity. Defined.
End IdentityExamples.

Section DataSourceExamples.
Import SCM EditStrategy.

Definition currentMain : CurrentHistoryItemGroup :=
  mkCurrent "main" "main" (Some (mkBase "origin/main" "origin/main")).

(** Two commits ahead of the base, none behind. *)
Definition historyMain : ISCMHistoryProvider :=
  mkHistoryProvider (Some currentMain) (fun _ _ => Some (mkAncestor "c0" 2 0))
                    (fun _ _ => None).

Definition repoMain : ISCMRepository :=
  mkRepository "repoMain" (mkProvider "scm0" (Some historyMain)).

Definition sourceAuto : SCMTreeDataSource :=
  mkDataSource ViewModeList (mkConfiguration auto auto) (mkViewService [repoMain]) ∅.

Example getHistoryItemGroups_auto :
  hig_direction <$> fst (getHistoryItemGroups sourceAuto repoMain) = [outgoing]
  /\ fst (getHistoryItemGroups (snd (getHistoryItemGroups sourceAuto repoMain)) repoMain)
     = fst (getHistoryItemGroups sourceAuto repoMain).
Proof. split; reflexivity. Qed.

Lemma getHistoryItemGroups_visibility_witness :
  fst (getHistoryItemGroups sourceAuto repoMain)
  = visibleGroup auto (derivedIncoming repoMain currentMain (mkAncestor "c0" 2 0))
    ++ visibleGroup auto (Some (derivedOutgoing repoMain currentMain (mkAncestor "c0" 2 0)))
  /\ (is_Some (derivedIncoming repoMain currentMain (mkAncestor "c0" 2 0))
      <-> is_Some (base currentMain)).
Proof.
  pose proof (getHistoryItemGroups_visibility sourceAuto repoMain) as (_ & _ & _ & H).
  destruct (H historyMain currentMain eq_refl eq_refl) as [Hresolved _];
    [intros [Hnever _]; discriminate Hnever |].
  exact (Hresolved eq_refl eq_refl).
Defined.

Lemma hasChildren_by_kind_witness :
  hasChildren sourceAuto (Element (HistoryItem historyItemA)) = Returned true
  /\ fst (getHistoryItemChanges noTree sourceAuto historyItemA) = [].
Proof.
  pose proof (hasChildren_by_kind sourceAuto) as H.
  repeat (destruct H as [_ H]).
  exact (H noTree historyItemA eq_refl).
Defined.

Definition firstCall : Call := MakeChanges [editAt 1 9 "print(2)"].

Lemma undo_stop_pushed_once_witness :
  emitted (mkEditor model0 [])
          (snd (call lastText (run lastText [] (create, mkEditor model0 [])) firstCall))
  = PushUndoStop :: editCalls firstCall
  /\ (PushUndoStop ∈ emitted (mkEditor model0 [])
                      (apply create session0 (mkEditor model0 []))
      <-> (0 < _editCount create)%Z).
Proof.
  pose proof (undo_stop_pushed_once lastText) as [Hcalls Happly].
  split.
  - exact (proj2 (proj2 (proj1 (Hcalls [] firstCall (mkEditor model0 []))))).
  - exact (proj1 (Happly [] (mkEditor model0 []) session0)).
Defined.
End DataSourceExamples.

(** * Further properties of the notebook chat controller *)

Section CursorOrder.
Import EditStrategy.

Lemma isBefore_antisym (a b : Position.t) :
  Position.isBefore a b = false -> Position.isBefore b a = false -> a = b.
Proof.
  rewrite !isBefore_false. intros H1 H2.
  destruct a as [la ca], b as [lb cb]; simpl in *.
  f_equal; lia.
Qed.

Lemma cursorStateComputer_nil_iff (undoEdits : list ISingleEditOperation) :
  cursorStateComputer undoEdits = None <-> undoEdits = [].
Proof.
  split; [| intros ->; reflexivity].
  intros Hnone. destruct undoEdits as [| e l]; [reflexivity | exfalso].
  destruct (candidate_firstFurthest (e :: l)) as (i & edit & _ & Hfold); [discriminate |].
  unfold cursorStateComputer in Hnone. now rewrite Hfold in Hnone.
Qed.

(** X1. The cursor state computer does not depend on the order in which the
    edits are reported, and it returns no selection exactly for no edit. *)
Theorem cursorStateComputer_permutation (undoEdits undoEdits' : list ISingleEditOperation) :
  undoEdits ≡ₚ undoEdits' ->
  cursorStateComputer undoEdits = cursorStateComputer undoEdits'
  /\ (cursorStateComputer undoEdits = None <-> undoEdits = []).
Proof.
  intros Hperm. split; [| apply cursorStateComputer_nil_iff].
  destruct undoEdits as [| e l].
  - apply Permutation_nil_l in Hperm. now subst.
  - assert (Hne' : undoEdits' <> []).
    { intros ->. symmetry in Hperm. now apply Permutation_nil_l in Hperm. }
    destruct (candidate_firstFurthest (e :: l)) as (i & a & (Hi & Hmax & _) & Hfold);
      [discriminate |].
    destruct (candidate_firstFurthest undoEdits' Hne') as (j & b & (Hj & Hmax' & _) & Hfold').
    unfold cursorStateComputer. rewrite Hfold, Hfold'.
    assert (Ha : a ∈ undoEdits').
    { rewrite <- Hperm. eapply list_elem_of_lookup_2. exact Hi. }
    assert (Hb : b ∈ e :: l).
    { rewrite Hperm. eapply list_elem_of_lookup_2. exact Hj. }
    now rewrite (isBefore_antisym (endOf a) (endOf b) (Hmax b Hb) (Hmax' a Ha)).
Qed.
End CursorOrder.

Section CancelTwice.

Lemma undo_disposed (m : TextModel.t) :
  TextModel.isDisposed (TextModel.undo m) = TextModel.isDisposed m.
Proof.
  unfold TextModel.undo, TextModel.isDisposed. now destruct (TextModel.undoStack m).
Qed.

Lemma undo_iter_disposed (n : nat) (m : TextModel.t) :
  TextModel.isDisposed (Nat.iter n TextModel.undo m) = TextModel.isDisposed m.
Proof.
  induction n as [| n IH]; [reflexivity |].
  change (Nat.iter (S n) TextModel.undo m)
    with (TextModel.undo (Nat.iter n TextModel.undo m)).
  etransitivity; [apply undo_disposed | exact IH].
Qed.

Lemma cancelLoop_at_target (target : Z) (m : TextModel.t) :
  pastTarget target m = false -> EditStrategy.cancelLoop target m = m.
Proof. intros H. now rewrite cancelLoop_unfold, H. Qed.

Lemma withTextModelN_same (session : Session) :
  withTextModelN session (textModelN session) = session.
Proof. now destruct session. Qed.

(** X2. [cancel] a second time changes nothing, and [cancel] leaves alone a
    session whose model is at or below the target version, or has no undo
    step. *)
Theorem cancel_idempotent (session : Session) :
  EditStrategy.cancel (EditStrategy.cancel session) = EditStrategy.cancel session
  /\ (pastTarget (targetAltVersion session) (textModelN session) = false ->
      EditStrategy.cancel session = session).
Proof.
  split.
  - unfold EditStrategy.cancel at 2 3.
    destruct (TextModel.isDisposed (textModelN session)) eqn:Hd.
    + unfold EditStrategy.cancel. now rewrite Hd.
    + fold (targetAltVersion session).
      destruct (cancelLoop_steps (targetAltVersion session) (textModelN session))
        as (n & Heq & _ & Hend).
      rewrite Heq. unfold EditStrategy.cancel. simpl.
      rewrite undo_iter_disposed, Hd.
      fold (targetAltVersion session).
      now rewrite (cancelLoop_at_target _ _ Hend).
  - intros Hat. unfold EditStrategy.cancel.
    destruct (TextModel.isDisposed (textModelN session)); [reflexivity |].
    fold (targetAltVersion session).
    rewrite (cancelLoop_at_target _ _ Hat). apply withTextModelN_same.
Qed.
End CancelTwice.

Section EditingCell.
Import NotebookChatWidget.

(** The editing cell, once there, is the one cell that was inserted. *)
Definition oneCell (w : t) : Prop :=
  match _editingCell w with
  | Some cell => insertedCells w = [cell]
  | None => insertedCells w = []
  end.

Lemma getOrCreateEditingCell_oneCell (env : NotebookAnswers) (w : t) :
  oneCell w ->
  oneCell (fst (getOrCreateEditingCell env w))
  /\ (forall cell, snd (getOrCreateEditingCell env w) = Some cell ->
                   _editingCell (fst (getOrCreateEditingCell env w)) = Some cell)
  /\ (forall cell, _editingCell w = Some cell ->
                   fst (getOrCreateEditingCell env w) = w).
Proof.
  unfold oneCell, getOrCreateEditingCell. intros Hw.
  destruct (_editingCell w) as [cell |] eqn:Hcell.
  - destruct (activeCodeEditorHasModel env); simpl; rewrite Hcell;
      repeat split; try assumption; intros c Hc; congruence.
  - destruct (notebookHasModel env); simpl.
    + destruct (insertCellResult env) as [cell |]; simpl.
      * destruct (activeCodeEditorHasModel env); simpl; rewrite Hw;
          repeat split; intros c Hc; congruence.
      * repeat split; try assumption; intros c Hc; congruence.
    + rewrite Hcell. repeat split; try assumption; intros c Hc; congruence.
Qed.

(** X3. Over any run of [getOrCreateEditingCell] calls on a new widget, at most
    one cell is inserted into the notebook; every call that returns a cell
    returns that cell; and [discardChange], the notebook having a model,
    deletes exactly the cell that was inserted. *)
Theorem editing_cell_inserted_once (envs : list NotebookAnswers) :
  let w := fst (calls envs create) in
  let returned := snd (calls envs create) in
  length (insertedCells w) <= 1
  /\ (forall cell, Some cell ∈ returned -> insertedCells w = [cell])
  /\ (forall env, notebookHasModel env = true ->
                  deletedCells (discardChange env w) = insertedCells w).
Proof.
  assert (Hgen : forall w0,
             oneCell w0 ->
             oneCell (fst (calls envs w0))
             /\ (forall cell, Some cell ∈ snd (calls envs w0) ->
                              _editingCell (fst (calls envs w0)) = Some cell)
             /\ deletedCells (fst (calls envs w0)) = deletedCells w0).
  { induction envs as [| env rest IH]; intros w0 Hw0; simpl.
    - split; [exact Hw0 |]. split; [| reflexivity].
      intros cell Hin. inversion Hin.
    - destruct (getOrCreateEditingCell_oneCell env w0 Hw0) as (H1 & Hret & Hkeep).
      assert (Hdel : deletedCells (fst (getOrCreateEditingCell env w0)) = deletedCells w0).
      { unfold getOrCreateEditingCell.
        destruct (_editingCell w0); [now destruct (activeCodeEditorHasModel env) |].
        destruct (notebookHasModel env); [| reflexivity]. simpl.
        destruct (insertCellResult env); [| reflexivity].
        now destruct (activeCodeEditorHasModel env). }
      destruct (getOrCreateEditingCell env w0) as [w1 r] eqn:Hcall. simpl in *.
      destruct (IH w1 H1) as (H2 & Hrets & Hdels).
      destruct (calls rest w1) as [w2 rs] eqn:Hrest. simpl in *.
      split; [exact H2 |]. split; [| congruence].
      intros cell Hin. apply elem_of_cons in Hin as [Hin | Hin]; [| now apply Hrets].
      (* the cell returned first is kept by the later calls *)
      pose proof (Hret cell (eq_sym Hin)) as Hcell.
      clear -Hcell Hrest. revert w1 w2 rs Hcell Hrest.
      induction rest as [| env' rest' IH']; intros w1 w2 rs Hcell Hrest; simpl in Hrest.
      + now injection Hrest as <- _.
      + destruct (getOrCreateEditingCell env' w1) as [w1' r'] eqn:Hc.
        destruct (calls rest' w1') as [w2' rs'] eqn:Hr.
        injection Hrest as <- _.
        apply (IH' w1' w2' rs'); [| exact Hr].
        unfold getOrCreateEditingCell in Hc. rewrite Hcell in Hc.
        destruct (activeCodeEditorHasModel env'); injection Hc as <- _; exact Hcell. }
  intros w returned. subst w returned.
  destruct (Hgen create eq_refl) as (Hone & Hrets & Hdel).
  unfold oneCell in Hone. split; [| split].
  - destruct (_editingCell (fst (calls envs create))); rewrite Hone; simpl; lia.
  - intros cell Hin. now rewrite (Hrets cell Hin) in Hone.
  - intros env Hmodel. unfold discardChange.
    destruct (_editingCell (fst (calls envs create))) as [cell |].
    + rewrite Hmodel. simpl. now rewrite Hdel, Hone.
    + now rewrite Hdel, Hone.
Qed.
End EditingCell.

Section ScrollIntoView.
Import ScrollWidget.

(** X4. For a widget placed after a cell of a notebook whose cells are all
    there, [_scrollWidgetIntoView] always finds the cell to reveal: the cell
    before the widget, or the last cell when the index lies past the end; the
    index it looks up is never out of range. At index 0 or in an empty
    notebook it reveals the top. *)
Theorem scrollWidgetIntoView_in_range (cellAt : Z -> option CellLayout) (length index : Z) :
  (0 <= index)%Z -> (0 <= length)%Z ->
  (forall i, (0 <= i < length)%Z -> is_Some (cellAt i)) ->
  exists offset,
    _scrollWidgetIntoView cellAt length index = RevealOffset offset
    /\ (index = 0%Z \/ length = 0%Z -> offset = 0%Z)
    /\ ((1 <= index <= length)%Z ->
        exists cell, cellAt (index - 1)%Z = Some cell
                     /\ offset = (absoluteTop cell + height cell)%Z)
    /\ ((1 <= length < index)%Z ->
        exists cell, cellAt (length - 1)%Z = Some cell
                     /\ offset = (absoluteTop cell + height cell)%Z).
Proof.
  intros Hi Hl Hcells. unfold _scrollWidgetIntoView.
  destruct (Z.eqb_spec index 0) as [-> | Hi0]; simpl.
  { exists 0%Z. repeat split; try lia. }
  destruct (Z.eqb_spec length 0) as [-> | Hl0]; simpl.
  { exists 0%Z. repeat split; try lia. }
  destruct (Hcells (Z.min (index - 1) (length - 1)) ltac:(lia)) as [cell Hcell].
  rewrite Hcell. eexists. split; [reflexivity |]. split; [lia |]. split.
  - intros Hin. exists cell. split; [| reflexivity].
    now replace (index - 1)%Z with (Z.min (index - 1) (length - 1)) by lia.
  - intros Hout. exists cell. split; [| reflexivity].
    now replace (length - 1)%Z with (Z.min (index - 1) (length - 1)) by lia.
Qed.
End ScrollIntoView.

Section MakeChangesRun.
Import MakeChanges.
Variable applyEdits : list ISingleEditOperation -> string -> string.
Variable unexpectedType : string.

Definition undoStops (ed : Editor) : nat :=
  length (filter (fun x => isPushUndoStop x = true) (calls ed)).

(** The batch of a call that reaches the strategy: for a call with options
    the provider's edits, for an instant call the more minimal edits when the
    worker gave some. *)
Definition batchOf (c : Call) (batch : list ISingleEditOperation) : Prop :=
  isEmptyList (moreMinimalEdits c) = false
  /\ match opts c with
     | Some _ => batch = edits c
     | None => batch = default (edits c) (moreMinimalEdits c)
     end.

(** The call that [_makeChanges] makes on the strategy for [c]. *)
Definition strategyCall (c : Call) : EditStrategy.Call :=
  match opts c with
  | Some o => EditStrategy.MakeProgressiveChanges (actualEdits c) o
  | None => EditStrategy.MakeChanges (actualEdits c)
  end.

(** The widget after the call [c]. *)
Definition widgetAfter (c : Call) (w : NotebookChatWidget.t) : NotebookChatWidget.t :=
  fst (NotebookChatWidget.getOrCreateEditingCell (answers c) w).

(** The call [c], made with the widget [w], reaches the strategy: it gets an
    editing cell, and its more minimal edits are not the empty list. *)
Definition reaches (c : Call) (w : NotebookChatWidget.t) : bool :=
  match snd (NotebookChatWidget.getOrCreateEditingCell (answers c) w) with
  | Some _ => negb (isEmptyList (moreMinimalEdits c))
  | None => false
  end.

(** The calls of a run that reach the strategy, in their order. *)
Fixpoint reaching (cs : list Call) (w : NotebookChatWidget.t) : list Call :=
  match cs with
  | [] => []
  | c :: rest =>
      if reaches c w then c :: reaching rest (widgetAfter c w)
      else reaching rest (widgetAfter c w)
  end.

(** What one call does to the state. *)
Definition stepOf (c : Call) (st : t) (session : Session) (strategy : EditStrategy.t)
    (w : NotebookChatWidget.t) : t :=
  if reaches c w then
    mk (Some session)
       (Some (fst (EditStrategy.call applyEdits (strategy, cellEditor st) (strategyCall c))))
       (Some (widgetAfter c w))
       (snd (EditStrategy.call applyEdits (strategy, cellEditor st) (strategyCall c)))
       true (trackedEdits st ++ [actualEdits c])
  else
    mk (Some session) (Some strategy) (Some (widgetAfter c w)) (cellEditor st)
       (markedChanged st) (trackedEdits st).

Lemma actualEdits_batchOf (c : Call) :
  isEmptyList (moreMinimalEdits c) = false -> batchOf c (actualEdits c).
Proof.
  intros H. split; [exact H |]. unfold actualEdits.
  destruct (opts c); [reflexivity |]. now destruct (moreMinimalEdits c).
Qed.

Lemma _makeChanges_step (c : Call) (st : t) (session : Session)
    (strategy : EditStrategy.t) (w : NotebookChatWidget.t) :
  _activeSession st = Some session -> _strategy st = Some strategy ->
  _widget st = Some w ->
  _makeChanges applyEdits unexpectedType c st = Returned (stepOf c st session strategy w).
Proof.
  intros Hs Hst Hw. unfold _makeChanges, stepOf, reaches, widgetAfter, strategyCall.
  rewrite Hs, Hst, Hw. simpl.
  destruct (NotebookChatWidget.getOrCreateEditingCell (answers c) w)
    as [w' [cell |]]; simpl; [| reflexivity].
  destruct (isEmptyList (moreMinimalEdits c)); simpl; [reflexivity |].
  destruct (opts c) as [o |]; simpl.
  - now destruct (EditStrategy.makeProgressiveChanges applyEdits strategy (cellEditor st)
                    (actualEdits c) o).
  - now destruct (EditStrategy.makeChanges applyEdits strategy (cellEditor st)
                    (actualEdits c)).
Qed.

Lemma reaching_from (cs : list Call) (w : NotebookChatWidget.t) :
  Forall (fun c => c ∈ cs /\ batchOf c (actualEdits c)) (reaching cs w).
Proof.
  revert w. induction cs as [| c rest IH]; intros w; simpl; [constructor |].
  assert (Hrest : Forall (fun c0 => c0 ∈ c :: rest /\ batchOf c0 (actualEdits c0))
                         (reaching rest (widgetAfter c w))).
  { eapply Forall_impl; [apply IH |]. intros c0 [Hin Hb].
    split; [now apply list_elem_of_further | exact Hb]. }
  destruct (reaches c w) eqn:Hreach; [| exact Hrest].
  constructor; [| exact Hrest]. split; [apply list_elem_of_here |].
  apply actualEdits_batchOf. unfold reaches in Hreach.
  destruct (snd (NotebookChatWidget.getOrCreateEditingCell (answers c) w));
    [| discriminate Hreach].
  now apply negb_true_iff in Hreach.
Qed.

(** A run of [_makeChanges] calls is the run of the strategy over the calls
    that reach it. *)
Lemma runCalls_reaching (cs : list Call) (st : t) (session : Session)
    (strategy : EditStrategy.t) (w : NotebookChatWidget.t) :
  _activeSession st = Some session -> _strategy st = Some strategy ->
  _widget st = Some w ->
  exists st',
    runCalls applyEdits unexpectedType cs st = Returned st'
    /\ _activeSession st' = Some session
    /\ _strategy st'
       = Some (fst (EditStrategy.run applyEdits (map strategyCall (reaching cs w))
                      (strategy, cellEditor st)))
    /\ cellEditor st'
       = snd (EditStrategy.run applyEdits (map strategyCall (reaching cs w))
                (strategy, cellEditor st))
    /\ trackedEdits st' = trackedEdits st ++ map actualEdits (reaching cs w)
    /\ markedChanged st'
       = (if reaching cs w is [] then markedChanged st else true).
Proof.
  revert st strategy w. induction cs as [| c rest IH]; intros st strategy w Hs Hst Hw.
  - exists st. simpl. rewrite app_nil_r. now repeat split.
  - simpl. rewrite (_makeChanges_step c st session strategy w Hs Hst Hw). simpl.
    unfold stepOf. destruct (reaches c w) eqn:Hreach.
    + destruct (IH (mk (Some session)
                      (Some (fst (EditStrategy.call applyEdits (strategy, cellEditor st)
                                    (strategyCall c))))
                      (Some (widgetAfter c w))
                      (snd (EditStrategy.call applyEdits (strategy, cellEditor st)
                              (strategyCall c)))
                      true (trackedEdits st ++ [actualEdits c]))
                  (fst (EditStrategy.call applyEdits (strategy, cellEditor st)
                          (strategyCall c)))
                  (widgetAfter c w) eq_refl eq_refl eq_refl)
        as (st' & Hrun & Hs' & Hst' & Hed' & Htr & Hm).
      exists st'. split; [exact Hrun |]. split; [exact Hs' |]. simpl in *.
      unfold EditStrategy.run in *. simpl.
      rewrite <- surjective_pairing in Hst', Hed'.
      split; [exact Hst' |]. split; [exact Hed' |].
      split; [now rewrite Htr, <- app_assoc |].
      rewrite Hm. now destruct (reaching rest (widgetAfter c w)).
    + destruct (IH (mk (Some session) (Some strategy) (Some (widgetAfter c w))
                      (cellEditor st) (markedChanged st) (trackedEdits st))
                  strategy (widgetAfter c w) eq_refl eq_refl eq_refl)
        as (st' & Hrun & Hs' & Hst' & Hed' & Htr & Hm).
      exists st'. now repeat split.
Qed.

(** The calls the editor receives from a fresh strategy: one undo stop, then
    the edits of the strategy calls in their order. *)
Lemma run_editor_calls (scs : list EditStrategy.Call) (ed : Editor) :
  calls (snd (EditStrategy.run applyEdits scs (EditStrategy.create, ed)))
  = calls ed ++ (if scs is [] then [] else PushUndoStop :: flat_map editCalls scs).
Proof.
  induction scs as [| sc l IH] using rev_ind; [simpl; now rewrite app_nil_r |].
  rewrite run_snoc.
  pose proof (run_editCount applyEdits l ed) as Hn.
  destruct (EditStrategy.run applyEdits l (EditStrategy.create, ed)) as [s ed1].
  rewrite call_calls. simpl in IH, Hn. rewrite IH, flat_map_app. simpl.
  rewrite app_nil_r.
  destruct Hn as [[-> Hn] | [Hne Hn]].
  - rewrite Hn. simpl. now rewrite app_nil_r.
  - rewrite (proj2 (undo_stop_iff_first _) Hn). simpl.
    destruct l as [| sc0 l0]; [now contradiction Hne |]. simpl.
    now rewrite <- app_assoc.
Qed.

(** X5. A run of [_makeChanges] calls on a controller with a session, a
    widget and a fresh strategy never fails. It is the run of the strategy,
    on the cell editor, over the calls that reach it, which are the calls
    that get an editing cell and whose more minimal edits are not the empty
    list: the strategy is called with the provider's edits for a progressive
    call and with the more minimal edits (when the worker gave some) for an
    instant call, the tracked edits are those batches, and the editor
    receives one undo stop if some call reached the strategy, none otherwise,
    followed by the edits of those batches in their order. The saving service
    is told of a change exactly when a call reached the strategy. A single
    call that does not reach the strategy changes nothing but the widget. *)
Theorem makeChanges_run_one_undo_stop
    (cs : list Call) (session : Session) (widget : NotebookChatWidget.t) (ed : Editor) :
  undoStops ed = 0 ->
  let applied := reaching cs widget in
  exists st',
    runCalls applyEdits unexpectedType cs
      (mk (Some session) (Some EditStrategy.create) (Some widget) ed false [])
    = Returned st'
    /\ _activeSession st' = Some session
    /\ (exists strategy',
          _strategy st' = Some strategy'
          /\ (strategy', cellEditor st')
             = EditStrategy.run applyEdits (map strategyCall applied)
                 (EditStrategy.create, ed))
    /\ trackedEdits st' = map actualEdits applied
    /\ calls (cellEditor st')
       = calls ed
         ++ (if applied is [] then []
             else PushUndoStop :: flat_map (fun c => editCalls (strategyCall c)) applied)
    /\ undoStops (cellEditor st') = (if applied is [] then 0 else 1)
    /\ markedChanged st' = (if applied is [] then false else true)
    /\ (applied = [] ->
        _strategy st' = Some EditStrategy.create /\ cellEditor st' = ed)
    /\ Forall (fun c => c ∈ cs /\ batchOf c (actualEdits c)) applied
    /\ (forall c st session0 strategy w,
          _activeSession st = Some session0 -> _strategy st = Some strategy ->
          _widget st = Some w ->
          _makeChanges applyEdits unexpectedType c st
          = Returned (stepOf c st session0 strategy w)
          /\ (reaches c w = false ->
              stepOf c st session0 strategy w
              = mk (Some session0) (Some strategy) (Some (widgetAfter c w))
                   (cellEditor st) (markedChanged st) (trackedEdits st))).
Proof.
  intros Hed applied.
  destruct (runCalls_reaching cs
              (mk (Some session) (Some EditStrategy.create) (Some widget) ed false [])
              session EditStrategy.create widget eq_refl eq_refl eq_refl)
    as (st' & Hrun & Hs & Hst & Hed' & Htr & Hm).
  pose proof (reaching_from cs widget) as Hfrom.
  simpl in Hst, Hed', Htr, Hm. fold applied in Hst, Hed', Htr, Hm, Hfrom.
  clearbody applied.
  assert (Hflat : forall l : list Call,
             flat_map editCalls (map strategyCall l)
             = flat_map (fun c => editCalls (strategyCall c)) l).
  { induction l as [| x xs IH]; [reflexivity | simpl; now rewrite IH]. }
  assert (Hcalls : calls (cellEditor st')
                   = calls ed
                     ++ (if applied is [] then []
                         else PushUndoStop
                              :: flat_map (fun c => editCalls (strategyCall c)) applied)).
  { rewrite Hed', run_editor_calls, Hflat. now destruct applied. }
  exists st'. split; [exact Hrun |]. split; [exact Hs |]. split.
  { eexists. split; [exact Hst |]. rewrite Hed'. symmetry. apply surjective_pairing. }
  split; [exact Htr |]. split; [exact Hcalls |]. split.
  { assert (Hnone : forall batches : list Call,
               filter (fun x => isPushUndoStop x = true)
                 (flat_map (fun c => editCalls (strategyCall c)) batches) = []).
    { induction batches as [| x xs IH]; [reflexivity |].
      simpl. now rewrite filter_app, editCalls_no_undo_stop, IH. }
    unfold undoStops in *. rewrite Hcalls, filter_app, length_app, Hed.
    destruct applied as [| c l]; [reflexivity |].
    rewrite filter_cons_True by reflexivity. now rewrite Hnone. }
  split; [exact Hm |]. split.
  { intros Hnone. rewrite Hst, Hed', Hnone. now split. }
  split; [exact Hfrom |].
  intros c st session0 strategy w H1 H2 H3. split; [now apply _makeChanges_step |].
  intros Hno. unfold stepOf. now rewrite Hno.
Qed.
End MakeChangesRun.

Section AcceptInputOutcomes.
Import NotebookChatController.
Variable unexpectedType : string.

(** X6. The ways [acceptInput] can end. Without a session or a widget it
    throws the error of [assertType] and leaves the controller alone. With
    both, the prompt is appended to the session's inputs on every path and the
    assertion on [lastInput] never fails; the text model and its version
    marks are not touched; the call throws exactly when the parent editor has
    a model and the provider call itself throws, and then the
    has-active-request key is left at true and no exchange is recorded; when
    the parent editor has no model the key keeps its value and no exchange is
    recorded. *)
Theorem acceptInput_outcomes (r : Request) (c : t) :
  match _activeSession c, _widget c with
  | Some session, Some widget =>
      exists session',
        _activeSession (fst (acceptInput unexpectedType r c)) = Some session'
        /\ inputs session' = inputs session ++ [inlineChatValue widget]
        /\ textModelN session' = textModelN session
        /\ textModelNAltVersion session' = textModelNAltVersion session
        /\ textModelNSnapshotAltVersion session' = textModelNSnapshotAltVersion session
        /\ _widget (fst (acceptInput unexpectedType r c)) = Some widget
        /\ (forall e, snd (acceptInput unexpectedType r c) = Thrown e
                      <-> parentEditorHasModel widget = true
                          /\ provideResponse r = Thrown e)
        /\ (isReturned (snd (acceptInput unexpectedType r c)) = false ->
            _ctxHasActiveRequest (fst (acceptInput unexpectedType r c)) = true
            /\ exchanges session' = exchanges session)
        /\ (parentEditorHasModel widget = false ->
            _ctxHasActiveRequest (fst (acceptInput unexpectedType r c)) = _ctxHasActiveRequest c
            /\ _ctxLastResponseType (fst (acceptInput unexpectedType r c)) = _ctxLastResponseType c
            /\ exchanges session' = exchanges session)
  | _, _ => acceptInput unexpectedType r c = (c, Thrown unexpectedType)
  end.
Proof.
  destruct (_activeSession c) as [session |] eqn:Hs;
    [destruct (_widget c) as [widget |] eqn:Hw |];
    [| unfold acceptInput; now rewrite Hs, Hw | unfold acceptInput; now rewrite Hs].
  unfold acceptInput. rewrite Hs, Hw. simpl. rewrite lastInput_addInput. simpl.
  destruct (parentEditorHasModel widget) eqn:Hm; simpl;
    [destruct (provideResponse r) as [task | e0] eqn:Hp; simpl |];
    (eexists; split; [reflexivity |]; simpl; repeat split;
     try congruence; try discriminate; try (intros [? ?]; congruence)).
Qed.
End AcceptInputOutcomes.

(** * The resource renderer *)

Section FilterMatches.
Import SCM ResourceRenderer.
Variable FuzzyScore : Type.
Variable createMatches : FilterData FuzzyScore -> list IMatch.
Variable basename : URI -> string.

(** A match lies inside a text of length [len]. *)
Definition matchWithin (len : Z) (m : IMatch) : Prop :=
  (0 <= match_start m /\ match_start m <= match_end m /\ match_end m <= len)%Z.

(** The number of characters the matches cover. *)
Definition matchedLength (l : list IMatch) : Z :=
  fold_right (fun m acc => (match_end m - match_start m + acc)%Z) 0%Z l.

Lemma matchedLength_app (l l' : list IMatch) :
  matchedLength (l ++ l') = (matchedLength l + matchedLength l')%Z.
Proof. induction l as [| m l IH]; simpl; lia. Qed.

Lemma splitMatches_fold (pathLength : Z) (matches : list IMatch)
    (acc : list IMatch * list IMatch) :
  exists labelMatches descriptionMatches,
    fold_left (splitMatch pathLength) matches acc
    = (fst acc ++ labelMatches, snd acc ++ descriptionMatches)
    /\ (forall len, Forall (matchWithin len) matches ->
        Forall (matchWithin (len - pathLength)) labelMatches
        /\ Forall (matchWithin pathLength) descriptionMatches)
    /\ (matchedLength labelMatches + matchedLength descriptionMatches
        = matchedLength matches)%Z
    /\ (length matches <= length labelMatches + length descriptionMatches)%nat.
Proof.
  revert acc. induction matches as [| m rest IH]; intros [lm dm]; simpl.
  - exists [], []. rewrite !app_nil_r. repeat split; constructor.
  - destruct (Z.ltb_spec pathLength (match_start m)) as [Hlabel | Hnot];
      [| destruct (Z.ltb_spec (match_end m) pathLength) as [Hdesc | Hspan]];
      match goal with |- context [fold_left _ rest ?a] =>
        destruct (IH a) as (l & d & Heq & Hin & Hlen & Hcount) end;
      rewrite Heq; simpl.
    + exists (mkMatch (match_start m - pathLength) (match_end m - pathLength) :: l), d.
      rewrite <- app_assoc. split; [reflexivity |]. split; [| simpl; split; lia].
      intros len Hall. inversion Hall as [| ? ? Hm Hrest]; subst.
      destruct (Hin len Hrest) as [Hl Hd]. split; [| exact Hd].
      constructor; [| exact Hl]. unfold matchWithin in *. simpl. lia.
    + exists l, (m :: d). rewrite <- app_assoc. split; [reflexivity |].
      split; [| simpl; split; lia].
      intros len Hall. inversion Hall as [| ? ? Hm Hrest]; subst.
      destruct (Hin len Hrest) as [Hl Hd]. split; [exact Hl |].
      constructor; [| exact Hd]. unfold matchWithin in *. lia.
    + exists (mkMatch 0 (match_end m - pathLength) :: l),
             (mkMatch (match_start m) pathLength :: d).
      rewrite <- !app_assoc. split; [reflexivity |]. split; [| simpl; split; lia].
      intros len Hall. inversion Hall as [| ? ? Hm Hrest]; subst.
      destruct (Hin len Hrest) as [Hl Hd].
      split; (constructor; [| assumption]); unfold matchWithin in *; simpl; lia.
Qed.

(** X7. For a score with a label that is not empty and is not the file name,
    [_processFilterData] splits the matches, which lie inside the label, into
    matches inside the file name and matches inside the path in front of it:
    no matched character is lost or counted twice, and no match is dropped. *)
Theorem processFilterData_splits_matches (uri : URI) (label : string) (score : FuzzyScore) :
  label <> "" ->
  label <> basename uri ->
  Forall (matchWithin (strlen label)) (createMatches (FuzzyScoreData score)) ->
  exists labelMatches descriptionMatches,
    _processFilterData FuzzyScore createMatches basename uri
      (Some (LabelFuzzyScoreData label score))
    = (Some labelMatches, Some descriptionMatches)
    /\ Forall (matchWithin (strlen (basename uri))) labelMatches
    /\ Forall (matchWithin (strlen label - strlen (basename uri))) descriptionMatches
    /\ (matchedLength labelMatches + matchedLength descriptionMatches
        = matchedLength (createMatches (FuzzyScoreData score)))%Z
    /\ (length (createMatches (FuzzyScoreData score))
        <= length labelMatches + length descriptionMatches)%nat.
Proof.
  intros Hne Hfile Hin.
  destruct (splitMatches_fold (strlen label - strlen (basename uri))
              (createMatches (FuzzyScoreData score)) ([], []))
    as (l & d & Heq & Hbounds & Hlen & Hcount).
  exists l, d. split.
  - unfold _processFilterData. simpl.
    destruct label as [| c label']; [now contradiction Hne |].
    destruct (String.eqb_spec (String c label') (basename uri)) as [E | _];
      [now contradiction Hfile |].
    unfold splitMatches. now rewrite Heq.
  - destruct (Hbounds _ Hin) as [Hl Hd].
    replace (strlen label - (strlen label - strlen (basename uri)))%Z
      with (strlen (basename uri)) in Hl by lia.
    repeat split; assumption.
Qed.
End FilterMatches.

(** * The repository visibility context keys *)

Section VisibilityCounts.
Import SCM RepositoryVisibilityActionController.
#[local] Set Warnings "-clear-no-such-hyp".

(** The repositories added and not removed since, after the events. *)
Definition register (acc : gset string) (e : Event) : gset string :=
  match e with
  | AddRepository r => {[repository_id r]} ∪ acc
  | RemoveRepository r => acc ∖ {[repository_id r]}
  | ChangeVisibleRepositories => acc
  end.

Fixpoint registered (events : list ((string -> bool) * Event)) (acc : gset string)
  : gset string :=
  match events with
  | [] => acc
  | (_, e) :: rest => registered rest (register acc e)
  end.

Definition keys (this : t) : list string := map fst (items this).

Definition countVisible (isVisible : string -> bool) (l : list string) : Z :=
  Z.of_nat (length (filter (fun k => isVisible k = true) l)).

Lemma mapSet_keys (key : string) (value : bool) (m : list (string * bool)) :
  NoDup (map fst m) ->
  NoDup (map fst (mapSet key value m))
  /\ (forall k, k ∈ map fst (mapSet key value m) <-> k = key \/ k ∈ map fst m).
Proof.
  induction m as [| [k v] rest IH]; simpl; intros Hnd.
  - split; [repeat constructor; set_solver | intros k; set_solver].
  - apply NoDup_cons in Hnd as [Hk Hrest].
    destruct (String.eqb_spec k key) as [-> | Hne]; simpl.
    + split; [now apply NoDup_cons | intros k'; set_solver].
    + destruct (IH Hrest) as [Hnd' Hin'].
      split; [apply NoDup_cons; split; [| exact Hnd'] | intros k'; rewrite elem_of_cons, Hin'; set_solver].
      intros Hin. apply Hin' in Hin as [-> | Hin]; [now contradiction Hne | now contradiction Hk].
Qed.

Lemma mapDelete_keys (key : string) (m : list (string * bool)) :
  NoDup (map fst m) ->
  NoDup (map fst (mapDelete key m))
  /\ (forall k, k ∈ map fst (mapDelete key m) <-> k <> key /\ k ∈ map fst m).
Proof.
  induction m as [| [k v] rest IH]; simpl; intros Hnd.
  - split; [constructor | intros k; set_solver].
  - apply NoDup_cons in Hnd as [Hk Hrest]. destruct (IH Hrest) as [Hnd' Hin'].
    unfold mapDelete in *. rewrite filter_cons. simpl.
    destruct (String.eqb_spec k key) as [-> | Hne]; simpl.
    + split; [exact Hnd' | intros k'; rewrite Hin'; set_solver].
    + split.
      * apply NoDup_cons. split; [| exact Hnd']. intros Hin. apply Hin' in Hin as [_ Hin].
        now contradiction Hk.
      * intros k'. rewrite !elem_of_cons, Hin'. split; [| tauto].
        intros [-> | [H1 H2]]; [split; [exact Hne | now left] | split; [exact H1 | now right]].
Qed.

Lemma fold_count (isVisible : string -> bool) (l : list string) (r : Z) :
  fold_left (fun r repository => (r + (if isVisible repository then 1 else 0))%Z) l r
  = (r + countVisible isVisible l)%Z.
Proof.
  unfold countVisible. revert r. induction l as [| k l IH]; intros r; simpl; [lia |].
  rewrite IH. rewrite filter_cons. destruct (isVisible k) eqn:Hk.
  - rewrite decide_True by reflexivity. simpl. lia.
  - rewrite decide_False by discriminate. lia.
Qed.

Lemma visitItems_spec (isVisible : string -> bool) (m : list (string * bool)) (count : Z) :
  map fst (fst (visitItems isVisible m count)) = map fst m
  /\ snd (visitItems isVisible m count) = (count + countVisible isVisible (map fst m))%Z
  /\ Forall (fun kv => snd kv = isVisible (fst kv)) (fst (visitItems isVisible m count)).
Proof.
  unfold countVisible. revert count. induction m as [| [k v] rest IH]; intros count; simpl.
  - repeat split; [lia | constructor].
  - specialize (IH (if isVisible k then count + 1 else count)%Z).
    destruct (visitItems isVisible rest (if isVisible k then count + 1 else count)%Z)
      as [rest' count'] eqn:Hv.
    simpl in *. destruct IH as (Hkeys & Hcount & Hall).
    split; [now rewrite Hkeys |]. split; [| now constructor].
    rewrite Hcount, filter_cons. destruct (isVisible k) eqn:Hk.
    + rewrite decide_True by reflexivity. simpl. lia.
    + rewrite decide_False by discriminate. lia.
Qed.

Lemma countVisible_bounds (isVisible : string -> bool) (l : list string) :
  (0 <= countVisible isVisible l <= Z.of_nat (length l))%Z.
Proof. unfold countVisible. pose proof (length_filter (fun k => isVisible k = true) l). lia. Qed.

(** The state of the keys after an event handled under [isVisible]. *)
Definition keysInStep (isVisible : string -> bool) (this : t) : Prop :=
  NoDup (keys this)
  /\ repositoryCountContextKey this = Z.of_nat (length (keys this))
  /\ repositoryVisibilityCountContextKey this = countVisible isVisible (keys this).

Lemma handle_keysInStep (isVisible : string -> bool) (e : Event) (this : t) :
  NoDup (keys this) ->
  keysInStep isVisible (handle isVisible e this)
  /\ (forall k, k ∈ keys (handle isVisible e this) <->
        match e with
        | AddRepository r => k = repository_id r \/ k ∈ keys this
        | RemoveRepository r => k <> repository_id r /\ k ∈ keys this
        | ChangeVisibleRepositories => k ∈ keys this
        end)
  /\ (e = ChangeVisibleRepositories ->
      Forall (fun kv => snd kv = isVisible (fst kv)) (items (handle isVisible e this))).
Proof.
  intros Hnd. unfold keysInStep, keys in *. destruct e as [r | r |]; simpl.
  - destruct (mapSet_keys (repository_id r) (isVisible (repository_id r)) (items this) Hnd)
      as [Hnd' Hin].
    rewrite fold_count, length_map.
    split; [split; [exact Hnd' | split; [reflexivity | lia]] | split; [exact Hin | discriminate]].
  - destruct (mapDelete_keys (repository_id r) (items this) Hnd) as [Hnd' Hin].
    rewrite fold_count, length_map.
    split; [split; [exact Hnd' | split; [reflexivity | lia]] | split; [exact Hin | discriminate]].
  - unfold onDidChangeVisibleRepositories.
    pose proof (visitItems_spec isVisible (items this) 0) as (Hk & Hc & Hall).
    destruct (visitItems isVisible (items this) 0) as [items' count]. simpl in *.
    rewrite Hk, Hc, !length_map.
    split; [split; [exact Hnd | split; [reflexivity | lia]] | split; [reflexivity | intros _; exact Hall]].
Qed.

(** X8. After any events ending with one handled under [isVisible], the
    repository count key holds the number of repositories added and not
    removed since, each held once, and the visible count key holds how many of
    them are visible; the two ways the code counts the visible ones agree, and
    the visible count never exceeds the repository count. After a change of
    the visible repositories every item's own key holds its visibility. *)
Theorem repository_context_keys_count
    (events : list ((string -> bool) * Event)) (isVisible : string -> bool) (e : Event) :
  let this := run (events ++ [(isVisible, e)]) create in
  NoDup (keys this)
  /\ list_to_set (keys this) = registered (events ++ [(isVisible, e)]) ∅
  /\ repositoryCountContextKey this
     = Z.of_nat (size (registered (events ++ [(isVisible, e)]) ∅))
  /\ repositoryVisibilityCountContextKey this = countVisible isVisible (keys this)
  /\ (0 <= repositoryVisibilityCountContextKey this <= repositoryCountContextKey this)%Z
  /\ (e = ChangeVisibleRepositories ->
      Forall (fun kv => snd kv = isVisible (fst kv)) (items this)).
Proof.
  assert (Hgen : forall events this acc,
             NoDup (keys this) -> list_to_set (keys this) = acc ->
             let this' := run (events ++ [(isVisible, e)]) this in
             keysInStep isVisible this'
             /\ list_to_set (keys this') = registered (events ++ [(isVisible, e)]) acc
             /\ (e = ChangeVisibleRepositories ->
                 Forall (fun kv => snd kv = isVisible (fst kv)) (items this'))).
  { clear events. induction events as [| [vis ev] rest IH]; intros this acc Hnd Hset; simpl.
    - destruct (handle_keysInStep isVisible e this Hnd) as (Hstep & Hin & Hall).
      split; [exact Hstep |]. split; [| exact Hall].
      apply set_eq. intros k. rewrite elem_of_list_to_set, Hin.
      destruct e; simpl; rewrite <- Hset; set_solver.
    - destruct (handle_keysInStep vis ev this Hnd) as ((Hnd' & _) & Hin & _).
      apply IH; [exact Hnd' |].
      apply set_eq. intros k. rewrite elem_of_list_to_set, Hin.
      destruct ev; simpl; rewrite <- Hset; set_solver. }
  intros this.
  destruct (Hgen events create ∅ ltac:(constructor) ltac:(reflexivity))
    as ((Hnd & Hcount & Hvis) & Hset & Hall).
  fold this in Hnd, Hcount, Hvis, Hset, Hall.
  split; [exact Hnd |]. split; [exact Hset |].
  assert (Hsize : size (registered (events ++ [(isVisible, e)]) ∅) = length (keys this)).
  { rewrite <- Hset. now apply size_list_to_set. }
  split; [now rewrite Hsize |]. split; [exact Hvis |]. split; [| exact Hall].
  rewrite Hvis, Hcount. apply countVisible_bounds.
Qed.
End VisibilityCounts.

(** * The children of the tree data source and the sorter *)

Section ChildrenAndSorter.
Import SCM SCMChildren.
Variable host : Host.
Variable basename : URI -> string.
Variable compareFileNames : string -> string -> Z.
Variable comparePaths : string -> string -> Z.
Variable compareStrings : string -> string -> Z.
Variable viewSortKey : ViewSortKey.

(** The sorter of the pane whose data source is [this]: both read the view
    mode of the pane. *)
Definition sorterOf (this : SCMChildren.t) : TreeElement -> TreeElement -> Completion CompareError Z :=
  compare basename compareFileNames comparePaths compareStrings (viewMode (base this))
          viewSortKey.

(** [a] may stand before [b]: the sorter returns a number either way, not
    positive for [a] against [b] and not negative for [b] against [a]. *)
Definition keepsOrder (cmp : TreeElement -> TreeElement -> Completion CompareError Z)
    (a b : TreeElement) : Prop :=
  exists n m, cmp a b = Returned n /\ (n <= 0)%Z /\ cmp b a = Returned m /\ (0 <= m)%Z.

(** Every element may stand before every later one. *)
Fixpoint inOrder (R : TreeElement -> TreeElement -> Prop) (l : list TreeElement) : Prop :=
  match l with
  | [] => True
  | a :: rest => Forall (R a) rest /\ inOrder R rest
  end.

Definition rank (e : TreeElement) : nat := default 9 (chainRank (kind e)).

Definition rankBefore (a b : TreeElement) : Prop :=
  (1 <= rank a /\ rank a < rank b /\ rank b <= 5)
  \/ (rank a = rank b /\ (rank a = 0 \/ rank a = 3 \/ rank a = 5)).

Lemma rankBefore_keepsOrder (vm : ViewMode) (a b : TreeElement) :
  rankBefore a b ->
  keepsOrder (compare basename compareFileNames comparePaths compareStrings vm viewSortKey)
             a b.
Proof.
  unfold rankBefore, rank, keepsOrder.
  destruct a, b; simpl; intros [H | H]; try lia;
    eexists _, _; (split; [reflexivity |]); (split; [simpl; lia |]);
    (split; [reflexivity | simpl; lia]).
Qed.

Lemma inOrder_impl (R R' : TreeElement -> TreeElement -> Prop) (l : list TreeElement) :
  (forall a b, R a b -> R' a b) -> inOrder R l -> inOrder R' l.
Proof.
  intros Himp. induction l as [| a l IH]; simpl; [trivial |].
  intros [Hall Hrest]. split; [| now apply IH].
  eapply Forall_impl; [exact Hall | apply Himp].
Qed.

Lemma inOrder_app (R : TreeElement -> TreeElement -> Prop) (l l' : list TreeElement) :
  inOrder R l -> inOrder R l' -> (forall a b, a ∈ l -> b ∈ l' -> R a b) ->
  inOrder R (l ++ l').
Proof.
  induction l as [| x l IH]; simpl; intros Hl Hl' Hcross; [exact Hl' |].
  destruct Hl as [Hall Hrest]. split.
  - apply Forall_app. split; [exact Hall |].
    apply Forall_forall. intros b Hb. apply Hcross; [apply list_elem_of_here | exact Hb].
  - apply IH; [exact Hrest | exact Hl' |].
    intros a b Ha Hb. apply Hcross; [now apply list_elem_of_further | exact Hb].
Qed.

(** Sorted by rank, with every rank between [1] and [k]. *)
Definition rankedUpTo (k : nat) (l : list TreeElement) : Prop :=
  inOrder rankBefore l /\ Forall (fun e => 1 <= rank e <= k) l.

Lemma rankedUpTo_weaken (k k' : nat) (l : list TreeElement) :
  k <= k' -> rankedUpTo k l -> rankedUpTo k' l.
Proof.
  intros Hk [Hs Hall]. split; [exact Hs |].
  eapply Forall_impl; [exact Hall |]. simpl. intros e He. lia.
Qed.

Lemma rankedUpTo_app (k r : nat) (l l' : list TreeElement) :
  rankedUpTo k l -> k < r -> r <= 5 ->
  Forall (fun e => rank e = r) l' ->
  (length l' <= 1 \/ r = 3 \/ r = 5) ->
  rankedUpTo r (l ++ l').
Proof.
  intros [Hs Hall] Hk Hr Hl' Hone. split.
  - apply inOrder_app; [exact Hs | |].
    + clear Hs Hall. induction l' as [| x l' IH]; simpl; [trivial |].
      apply Forall_cons in Hl' as [Hx Hl']. split.
      * destruct Hone as [Hone | Hone]; [destruct l'; [constructor | simpl in Hone; lia] |].
        eapply Forall_impl; [exact Hl' |]. intros e He. simpl in He. right. lia.
      * apply IH; [exact Hl' |]. destruct Hone as [Hone | Hone]; [left; simpl in Hone; lia | now right].
    + intros a b Ha Hb. left.
      pose proof (proj1 (Forall_forall _ _) Hall a Ha) as Hra.
      pose proof (proj1 (Forall_forall _ _) Hl' b Hb) as Hrb. simpl in *. lia.
  - apply Forall_app. split.
    + eapply Forall_impl; [exact Hall |]. simpl. intros e He. lia.
    + eapply Forall_impl; [exact Hl' |]. simpl. intros e He. lia.
Qed.

Lemma rankedUpTo_pushIf (k r : nat) (cond : bool) (x : TreeElement) (l : list TreeElement) :
  rankedUpTo k l -> k < r -> r <= 5 -> rank x = r -> rankedUpTo r (pushIf cond x l).
Proof.
  intros Hl Hk Hr Hx. unfold pushIf. destruct cond.
  - apply (rankedUpTo_app k); try assumption; [now repeat constructor | left; simpl; lia].
  - apply (rankedUpTo_weaken k); [lia | exact Hl].
Qed.

Lemma repositoryChildren_ranked (this : SCMChildren.t) (repositoryCount : nat)
    (repository : ISCMRepository) :
  rankedUpTo 5 (fst (repositoryChildren host this repositoryCount repository)).
Proof.
  unfold repositoryChildren.
  destruct (getHistoryItemGroups (base this) repository) as [groups base']. simpl.
  apply (rankedUpTo_app 4); [| lia | lia | | now right; right].
  2:{ apply Forall_forall. intros e He. apply list_elem_of_fmap in He as (g & -> & _).
      reflexivity. }
  apply (rankedUpTo_pushIf 3); [| lia | lia | reflexivity].
  assert (Hfront : rankedUpTo 2
            (pushIf (showActionButton this
                     && provider_hasActionButton host (repository_provider repository))
               (ActionButton (mkActionButton repository))
               (pushIf (input_visible host (repository_input host repository))
                  (Input (repository_input host repository)) []))).
  { apply (rankedUpTo_pushIf 1); [| lia | lia | reflexivity].
    apply (rankedUpTo_pushIf 0); [| lia | lia | reflexivity].
    split; constructor. }
  match goal with |- context [if ?c then _ else _] => destruct c end.
  - apply (rankedUpTo_app 2); [exact Hfront | lia | lia | | now right; left].
    apply Forall_forall. intros e He. apply list_elem_of_fmap in He as (g & -> & _).
    reflexivity.
  - apply (rankedUpTo_weaken 2); [lia | exact Hfront].
Qed.

(** What [getChildren] returns for the root and for a repository. *)
Lemma getChildren_top (this : SCMChildren.t) (x : InputOrElement) :
  isSCMViewService x || guard isSCMRepository x = true ->
  Forall (fun e => rank e = 0) (fst (getChildren host this x))
  \/ rankedUpTo 5 (fst (getChildren host this x))
  \/ fst (getChildren host this x) = [].
Proof.
  intros Hx. unfold getChildren.
  destruct x as [s | [r | | | | | | | | | |] |]; simpl in Hx; try discriminate Hx; simpl.
  - destruct ((1 <? length (visibleRepositories (scmViewService (base this))))
              || alwaysShowRepositories this) eqn:Hmany.
    + left. apply Forall_forall. intros e He.
      apply list_elem_of_fmap in He as (r & -> & _). reflexivity.
    + destruct ((length (visibleRepositories (scmViewService (base this))) =? 1)
                && negb (alwaysShowRepositories this)) eqn:Hone; simpl.
      * destruct (visibleRepositories (scmViewService (base this))) as [| r rest];
          [now right; right |].
        right; left. apply repositoryChildren_ranked.
      * now right; right.
  - destruct (isSCMViewService (Element (Repository r))); simpl;
      right; left; apply repositoryChildren_ranked.
Qed.

(** X9. The children of the root and of a repository come in the order the
    sorter wants: each child compared with a later one gives a number that is
    not positive, and the later one compared with it a number that is not
    negative, so sorting them moves nothing and never runs into an invalid
    comparison; in particular there is at most one input box, one action
    button and one separator among them. *)
Theorem getChildren_in_sorter_order (this : SCMChildren.t) (x : InputOrElement) :
  isSCMViewService x || guard isSCMRepository x = true ->
  inOrder (keepsOrder (sorterOf this)) (fst (getChildren host this x)).
Proof.
  intros Hx. unfold sorterOf.
  destruct (getChildren_top this x Hx) as [Hrepos | [[Hranked _] | ->]].
  - induction (fst (getChildren host this x)) as [| a l IH]; simpl; [trivial |].
    apply Forall_cons in Hrepos as [Ha Hl]. split; [| now apply IH].
    eapply Forall_impl; [exact Hl |]. intros b Hb. simpl in Hb.
    apply rankBefore_keepsOrder. right. split; [lia | now left].
  - eapply inOrder_impl; [| exact Hranked]. apply rankBefore_keepsOrder.
  - exact I.
Qed.

Abbreviation compareIn vm :=
  (compare basename compareFileNames comparePaths compareStrings vm viewSortKey).

(** The kinds that occur together among the children of one parent. *)
Definition siblingKinds (vm : ViewMode) (l : list TreeElement) : Prop :=
  Forall (fun e => rank e = 0) l
  \/ Forall (fun e => 1 <= rank e <= 5) l
  \/ Forall (fun e => kind e = KResource) l
  \/ (vm = ViewModeTree
      /\ Forall (fun e => kind e = KResource \/ kind e = KResourceNode) l)
  \/ Forall (fun e => kind e = KHistoryItem) l
  \/ Forall (fun e => kind e = KHistoryItemChange) l
  \/ (vm = ViewModeTree
      /\ Forall (fun e => kind e = KHistoryItemChange \/ kind e = KHistoryItemChangeNode) l).

Ltac kinds_of a b Ha Hb :=
  destruct a, b; simpl in Ha, Hb;
  try discriminate Ha; try discriminate Hb; try lia;
  try (destruct Ha as [Ha | Ha]; discriminate Ha);
  try (destruct Hb as [Hb | Hb]; discriminate Hb).

Lemma siblingKinds_comparable (vm : ViewMode) (l : list TreeElement) (a b : TreeElement) :
  siblingKinds vm l -> a ∈ l -> b ∈ l -> exists n, compareIn vm a b = Returned n.
Proof.
  intros Hkinds Ha Hb.
  destruct Hkinds as [H | [H | [H | [[-> H] | [H | [H | [-> H]]]]]]];
    pose proof (proj1 (Forall_forall _ _) H a Ha) as Ka;
    pose proof (proj1 (Forall_forall _ _) H b Hb) as Kb;
    simpl in Ka, Kb; unfold rank in Ka, Kb; clear H Ha Hb.
  - kinds_of a b Ka Kb. now eexists.
  - kinds_of a b Ka Kb; now eexists.
  - kinds_of a b Ka Kb. unfold compare, compareResourcesList, compareResourcesByPath, isList.
    simpl. destruct vm; simpl; [| unfold compareResourcesTree; simpl; now eexists].
    destruct viewSortKey; simpl; try (now eexists).
    match goal with |- context [if ?c then _ else _] => destruct c end; now eexists.
  - kinds_of a b Ka Kb; unfold compare, compareResourcesTree; simpl; now eexists.
  - kinds_of a b Ka Kb. now eexists.
  - kinds_of a b Ka Kb. unfold compare, compareHistoryItemChanges, isList. simpl.
    destruct vm; simpl; now eexists.
  - kinds_of a b Ka Kb; unfold compare, compareHistoryItemChanges; simpl; now eexists.
Qed.

Lemma elementOrNode_resource_kind (node : ChildNode ISCMResource ISCMResourceGroup) :
  kind (elementOrNode Resource ResourceNode node) = KResource
  \/ kind (elementOrNode Resource ResourceNode node) = KResourceNode.
Proof.
  unfold elementOrNode. destruct (child_element node); [| now right].
  destruct (childrenCount (child_node node) =? 0)%Z; [now left | now right].
Qed.

Lemma elementOrNode_change_kind
    (node : ChildNode SCMHistoryItemChangeTreeElement SCMHistoryItemTreeElement) :
  kind (elementOrNode HistoryItemChange HistoryItemChangeNode node) = KHistoryItemChange
  \/ kind (elementOrNode HistoryItemChange HistoryItemChangeNode node)
     = KHistoryItemChangeNode.
Proof.
  unfold elementOrNode. destruct (child_element node); [| now right].
  destruct (childrenCount (child_node node) =? 0)%Z; [now left | now right].
Qed.

Lemma Forall_fmap_kind {A} (f : A -> TreeElement) (P : TreeElement -> Prop) (l : list A) :
  (forall x, P (f x)) -> Forall P (map f l).
Proof.
  intros H. apply Forall_forall. intros e He.
  apply list_elem_of_fmap in He as (x & -> & _). apply H.
Qed.

(** The root children of the tree built from the changes of a history item
    are changes and folder nodes of changes. *)
Definition changeTree : Prop :=
  forall item changes,
    Forall (fun e => kind e = KHistoryItemChange \/ kind e = KHistoryItemChangeNode)
           (resourceTreeChildren host item changes).

Lemma getHistoryItemChanges_kinds (this : SCMTreeDataSource)
    (element : SCMHistoryItemTreeElement) :
  changeTree ->
  let children := fst (getHistoryItemChanges (resourceTreeChildren host) this element) in
  Forall (fun e => kind e = KHistoryItemChange) children
  \/ (viewMode this = ViewModeTree
      /\ Forall (fun e => kind e = KHistoryItemChange \/ kind e = KHistoryItemChangeNode)
                children).
Proof.
  intros Htree. unfold getHistoryItemChanges.
  destruct (historyProvider
              (repository_provider (hig_repository (historyItemGroup element))));
    [| left; constructor].
  destruct (historyItemChanges
              (getHistoryProviderCacheEntry this
                 (hig_repository (historyItemGroup element)))
            !! historyItemChangesKey (hi_id element) (historyItemParentId element));
    simpl; destruct (viewMode this); simpl;
    try (left; rewrite map_map; now apply Forall_fmap_kind);
    right; (split; [reflexivity | apply Htree]).
Qed.

Lemma getChildren_siblingKinds (this : SCMChildren.t) (x : InputOrElement) :
  (guard isResourceNode x = true -> viewMode (base this) = ViewModeTree) ->
  changeTree ->
  siblingKinds (viewMode (base this)) (fst (getChildren host this x)).
Proof.
  intros Hfolder Htree.
  destruct (isSCMViewService x || guard isSCMRepository x) eqn:Htop.
  { destruct (getChildren_top this x Htop) as [H | [[_ H] | ->]];
      [now left | now right; left | left; constructor]. }
  unfold getChildren.
  destruct x as [s | e |]; simpl in Htop; try discriminate Htop; simpl;
    [| left; constructor].
  destruct e; simpl in Htop; try discriminate Htop; simpl; try (left; constructor).
  - (* resource group *)
    destruct (viewMode (base this)) eqn:Hmode; simpl.
    + do 2 right. left. now apply Forall_fmap_kind.
    + do 3 right. left. split; [reflexivity |].
      apply Forall_fmap_kind, elementOrNode_resource_kind.
  - (* resource folder node *)
    do 3 right. left. split; [now apply Hfolder |].
    apply Forall_fmap_kind, elementOrNode_resource_kind.
  - (* history item group *)
    destruct (getHistoryItems host this e) as [items this']. simpl.
    do 4 right. left. now apply Forall_fmap_kind.
  - (* history item *)
    pose proof (getHistoryItemChanges_kinds (base this) e Htree) as Hk.
    destruct (getHistoryItemChanges (resourceTreeChildren host) (base this) e)
      as [changes base']. simpl in *.
    destruct Hk as [Hk | Hk]; [do 5 right; now left | do 6 right; exact Hk].
  - (* folder node of history item changes *)
    do 6 right. split; [now apply Hfolder |].
    apply Forall_fmap_kind, elementOrNode_change_kind.
Qed.

(** X10. Whatever the parent, the sorter can compare any two children that
    [getChildren] returns for it: the comparison returns a number and raises
    neither 'Invalid comparison' nor a type error. Folder nodes are parents
    in tree view mode only. *)
Theorem getChildren_siblings_comparable (this : SCMChildren.t) (x : InputOrElement)
    (a b : TreeElement) :
  (guard isResourceNode x = true -> viewMode (base this) = ViewModeTree) ->
  changeTree ->
  a ∈ fst (getChildren host this x) ->
  b ∈ fst (getChildren host this x) ->
  exists n, sorterOf this a b = Returned n.
Proof.
  intros Hfolder Htree Ha Hb. unfold sorterOf.
  eapply siblingKinds_comparable; [| exact Ha | exact Hb].
  now apply getChildren_siblingKinds.
Qed.

(** A folder node reports the number of its children. *)
Definition countsChildren (x : InputOrElement) : Prop :=
  match x with
  | Element (ResourceNode node) =>
      childrenCount node = Z.of_nat (length (resourceNode_children host node))
  | Element (HistoryItemChangeNode node) =>
      childrenCount node = Z.of_nat (length (changeNode_children host node))
  | _ => True
  end.

(** X11. Where [hasChildren] answers false, [getChildren] returns no child and
    leaves the caches alone; and a folder node for which it answers true has
    a child. *)
Theorem hasChildren_false_no_children (this : SCMChildren.t) (x : InputOrElement) :
  countsChildren x ->
  (hasChildren (base this) x = Returned false -> getChildren host this x = ([], this))
  /\ (guard isResourceNode x = true -> hasChildren (base this) x = Returned true ->
      fst (getChildren host this x) <> []).
Proof.
  intros Hcount. split.
  - intros Hno. unfold getChildren.
    destruct x as [s | e |]; simpl in *; [| | discriminate Hno].
    + injection Hno as Hno.
      destruct (visibleRepositories (scmViewService (base this))) as [| r rest];
        [| discriminate Hno].
      simpl. now destruct (alwaysShowRepositories this).
    + destruct e as [r | | | | | n | | | | n |]; simpl in *; try discriminate Hno;
        try reflexivity; injection Hno as Hno; apply Z.ltb_ge in Hno.
      * destruct (resourceNode_children host n); [reflexivity |].
        simpl in Hcount. lia.
      * destruct (changeNode_children host n); [reflexivity |].
        simpl in Hcount. lia.
  - intros Hnode Hyes. unfold getChildren.
    destruct x as [s | e |]; simpl in Hnode; try discriminate Hnode.
    destruct e as [| | | | | n | | | | n |]; simpl in *; try discriminate Hnode;
      injection Hyes as Hyes; apply Z.ltb_lt in Hyes.
    + destruct (resourceNode_children host n); [simpl in Hcount; lia |].
      discriminate.
    + destruct (changeNode_children host n); [simpl in Hcount; lia |].
      discriminate.
Qed.
End ChildrenAndSorter.

(** * The history provider cache *)

Section HistoryProviderCache.
Import SCM SCMChildren.



End HistoryProviderCache.

#[global] Instance HistoryItemType_eq_dec : EqDecision SCM.HistoryItemType.
Proof. solve_decision. Defined.

Section CacheInvalidation.
Import SCM SCMChildren.
Variable host : Host.

Definition sameSettings (t1 t2 : SCMChildren.t) : Prop :=
  viewMode (base t1) = viewMode (base t2)
  /\ configuration (base t1) = configuration (base t2)
  /\ scmViewService (base t1) = scmViewService (base t2)
  /\ alwaysShowRepositories t1 = alwaysShowRepositories t2
  /\ showActionButton t1 = showActionButton t2
  /\ showChangesSummary t1 = showChangesSummary t2.

(** The two data sources hold the same for the repository [id]. *)
Definition sameCacheFor (id : string) (t1 t2 : SCMChildren.t) : Prop :=
  historyProviderCache (base t1) !! id = historyProviderCache (base t2) !! id
  /\ historyItems t1 !! id = historyItems t2 !! id.

(** The repository whose cache entry [getChildren] may read for a parent. *)
Definition cacheOwner (this : SCMChildren.t) (x : InputOrElement) : option string :=
  match x with
  | ViewService _ =>
      repository_id <$> head (visibleRepositories (scmViewService (base this)))
  | Element (Repository r) => Some (repository_id r)
  | Element (HistoryItemGroup g) => Some (repository_id (hig_repository g))
  | Element (HistoryItem i) =>
      Some (repository_id (hig_repository (historyItemGroup i)))
  | _ => None
  end.

(** The data source with nothing cached. *)
Definition withoutCache (this : SCMChildren.t) : SCMChildren.t :=
  mk (mkDataSource (viewMode (base this)) (configuration (base this))
        (scmViewService (base this)) ∅)
     ∅ (alwaysShowRepositories this) (showActionButton this) (showChangesSummary this).

Lemma getHistoryItemGroups_reads_entry (t1 t2 : SCMTreeDataSource)
    (element : ISCMRepository) :
  configuration t1 = configuration t2 ->
  getHistoryProviderCacheEntry t1 element = getHistoryProviderCacheEntry t2 element ->
  fst (getHistoryItemGroups t1 element) = fst (getHistoryItemGroups t2 element).
Proof.
  intros Hcfg Hentry. unfold getHistoryItemGroups. rewrite Hcfg, Hentry.
  destruct (historyProvider (repository_provider element)) as [hp |]; [| reflexivity].
  destruct (currentHistoryItemGroup hp) as [current |]; [| reflexivity].
  destruct (bothNever (configuration t2)); [reflexivity |].
  destruct (incomingHistoryItemGroup (getHistoryProviderCacheEntry t2 element)),
           (outgoingHistoryItemGroup (getHistoryProviderCacheEntry t2 element));
    try reflexivity.
  destruct (resolveHistoryItemGroupCommonAncestor hp (current_id current)
              (base_id <$> SCM.base current)); reflexivity.
Qed.

Lemma entry_of_sameCacheFor (t1 t2 : SCMChildren.t) (repository : ISCMRepository) :
  sameCacheFor (repository_id repository) t1 t2 ->
  getHistoryProviderCacheEntry (base t1) repository
  = getHistoryProviderCacheEntry (base t2) repository
  /\ historyItemsMap t1 repository = historyItemsMap t2 repository.
Proof.
  intros [Hc Hi]. unfold getHistoryProviderCacheEntry, historyItemsMap.
  now rewrite Hc, Hi.
Qed.

Lemma repositoryChildren_reads_owner (t1 t2 : SCMChildren.t) (n : nat)
    (repository : ISCMRepository) :
  sameSettings t1 t2 ->
  sameCacheFor (repository_id repository) t1 t2 ->
  fst (repositoryChildren host t1 n repository)
  = fst (repositoryChildren host t2 n repository).
Proof.
  intros (Hvm & Hcfg & Hsvc & Hal & Hab & Hcs) Hsame.
  destruct (entry_of_sameCacheFor t1 t2 repository Hsame) as [Hentry _].
  pose proof (getHistoryItemGroups_reads_entry (base t1) (base t2) repository Hcfg Hentry)
    as Hgroups.
  unfold repositoryChildren. rewrite Hab.
  destruct (getHistoryItemGroups (base t1) repository) as [g1 b1].
  destruct (getHistoryItemGroups (base t2) repository) as [g2 b2].
  simpl in *. now subst g2.
Qed.

Lemma getHistoryItems_reads_owner (t1 t2 : SCMChildren.t)
    (element : SCMHistoryItemGroupTreeElement) :
  sameSettings t1 t2 ->
  sameCacheFor (repository_id (hig_repository element)) t1 t2 ->
  fst (getHistoryItems host t1 element) = fst (getHistoryItems host t2 element).
Proof.
  intros (Hvm & Hcfg & Hsvc & Hal & Hab & Hcs) Hsame.
  destruct (entry_of_sameCacheFor t1 t2 _ Hsame) as [_ Hitems].
  unfold getHistoryItems. rewrite Hitems, Hcs.
  destruct (historyProvider (repository_provider (hig_repository element)));
    [| reflexivity].
  destruct (historyItemsMap t2 (hig_repository element) !! hig_id element); reflexivity.
Qed.

Lemma getHistoryItemChanges_reads_entry (t1 t2 : SCMTreeDataSource)
    (element : SCMHistoryItemTreeElement) :
  viewMode t1 = viewMode t2 ->
  getHistoryProviderCacheEntry t1 (hig_repository (historyItemGroup element))
  = getHistoryProviderCacheEntry t2 (hig_repository (historyItemGroup element)) ->
  fst (getHistoryItemChanges (resourceTreeChildren host) t1 element)
  = fst (getHistoryItemChanges (resourceTreeChildren host) t2 element).
Proof.
  intros Hvm Hentry. unfold getHistoryItemChanges. rewrite Hvm, Hentry.
  destruct (historyProvider
              (repository_provider (hig_repository (historyItemGroup element))));
    [| reflexivity].
  destruct (historyItemChanges
              (getHistoryProviderCacheEntry t2 (hig_repository (historyItemGroup element)))
            !! historyItemChangesKey (hi_id element) (historyItemParentId element));
    simpl; destruct (viewMode t2); reflexivity.
Qed.

(** [getChildren] reads the settings and, of the caches, only what is held
    for the repository of the parent. *)
Lemma getChildren_reads_owner (t1 t2 : SCMChildren.t) (x : InputOrElement) :
  sameSettings t1 t2 ->
  (forall id, cacheOwner t1 x = Some id -> sameCacheFor id t1 t2) ->
  fst (getChildren host t1 x) = fst (getChildren host t2 x).
Proof.
  intros Hset Hown. pose proof Hset as (Hvm & Hcfg & Hsvc & Hal & Hab & Hcs).
  unfold getChildren. rewrite <- Hsvc, <- Hal, <- Hvm.
  destruct x as [s | e |]; simpl in *; [| | reflexivity].
  - destruct ((1 <? length (visibleRepositories (scmViewService (base t1))))
              || alwaysShowRepositories t1); [reflexivity |].
    destruct ((length (visibleRepositories (scmViewService (base t1))) =? 1)
              && negb (alwaysShowRepositories t1)); simpl; [| reflexivity].
    destruct (visibleRepositories (scmViewService (base t1))) as [| r rest];
      [reflexivity |].
    apply repositoryChildren_reads_owner; [exact Hset | now apply Hown].
  - destruct e as [e | e | e | e | e | e | e | e | e | e | e]; simpl; try reflexivity.
    + apply repositoryChildren_reads_owner; [exact Hset | now apply Hown].
    + now destruct (viewMode (base t1)).
    + pose proof (getHistoryItems_reads_owner t1 t2 e Hset (Hown _ eq_refl)) as H.
      destruct (getHistoryItems host t1 e), (getHistoryItems host t2 e).
      simpl in *. now subst.
    + destruct (entry_of_sameCacheFor t1 t2 _ (Hown _ eq_refl)) as [Hentry _].
      pose proof (getHistoryItemChanges_reads_entry (base t1) (base t2) e Hvm Hentry) as H.
      destruct (getHistoryItemChanges (resourceTreeChildren host) (base t1) e),
               (getHistoryItemChanges (resourceTreeChildren host) (base t2) e).
      simpl in *. now subst.
Qed.

Lemma removed_settings (removed : list ISCMRepository) (this : SCMChildren.t) :
  sameSettings (fold_left deleteCacheEntry removed this) this.
Proof.
  revert this. induction removed as [| r rest IH]; intros this; simpl.
  - now repeat split.
  - destruct (IH (deleteCacheEntry this r)) as (H1 & H2 & H3 & H4 & H5 & H6).
    repeat split; assumption.
Qed.

Lemma removed_lookup (removed : list ISCMRepository) (this : SCMChildren.t) (id : string) :
  let this' := fold_left deleteCacheEntry removed this in
  (id ∈ map repository_id removed ->
   historyProviderCache (base this') !! id = None /\ historyItems this' !! id = None)
  /\ (id ∉ map repository_id removed -> sameCacheFor id this' this).
Proof.
  revert this. induction removed as [| r rest IH]; intros this; simpl.
  - split; [intros H; now apply elem_of_nil in H | now split].
  - destruct (IH (deleteCacheEntry this r)) as [Hin Hout].
    destruct (decide (id ∈ map repository_id rest)) as [Hrest | Hrest].
    + split; [intros _; now apply Hin | intros Hno; exfalso; apply Hno; now right].
    + destruct (Hout Hrest) as [Hc Hi]. simpl in Hc, Hi. split.
      * intros Hmem. apply elem_of_cons in Hmem as [-> | Hmem]; [| now contradiction Hrest].
        rewrite Hc, Hi. now rewrite !lookup_delete_eq.
      * intros Hno. split.
        -- rewrite Hc. apply lookup_delete_ne. intros Heq. apply Hno. rewrite <- Heq. now left.
        -- rewrite Hi. apply lookup_delete_ne. intros Heq. apply Hno. rewrite <- Heq. now left.
Qed.

Lemma sameSettings_withoutCache (this : SCMChildren.t) : sameSettings this (withoutCache this).
Proof. now repeat split. Qed.

Lemma sameSettings_trans (t1 t2 t3 : SCMChildren.t) :
  sameSettings t1 t2 -> sameSettings t2 t3 -> sameSettings t1 t3.
Proof.
  intros (A1 & A2 & A3 & A4 & A5 & A6) (B1 & B2 & B3 & B4 & B5 & B6).
  repeat split; congruence.
Qed.

Lemma cacheOwner_sameSettings (t1 t2 : SCMChildren.t) (x : InputOrElement) :
  sameSettings t1 t2 -> cacheOwner t1 x = cacheOwner t2 x.
Proof. intros (_ & _ & Hsvc & _). destruct x as [s | e |]; simpl; now rewrite ?Hsvc. Qed.

Lemma withVisibleRepositories_cache (this : SCMChildren.t)
    (visible : list ISCMRepository) (id : string) :
  sameCacheFor id (withVisibleRepositories this visible) this.
Proof. now split. Qed.

(** X13. Cache invalidation is scoped to the repository. When the view
    service changes its list of visible repositories and reports the removed
    ones, the data source reads the new list, its other settings are as
    before, the children of a parent of a repository that was not removed are
    those it returns with its caches as they were and the new list, and the
    children of a parent of a removed repository are those of a data source
    with empty caches and the new list, derived afresh from the providers.
    When the current history item group of a repository changes, the list
    being the same, the children of a parent of another repository are what
    they were, and the children of a parent of that repository are those of
    a data source with empty caches. *)
Theorem cache_invalidation_scoped
    (visible added removed : list ISCMRepository) (this : SCMChildren.t)
    (x : InputOrElement) :
  let this' := onDidChangeVisibleRepositories visible added removed this in
  let moved := withVisibleRepositories this visible in
  visibleRepositories (scmViewService (base this')) = visible
  /\ sameSettings this' moved
  /\ ((forall id, cacheOwner moved x = Some id -> id ∉ map repository_id removed) ->
      fst (getChildren host this' x) = fst (getChildren host moved x))
  /\ ((forall id, cacheOwner moved x = Some id -> id ∈ map repository_id removed) ->
      fst (getChildren host this' x) = fst (getChildren host (withoutCache moved) x))
  /\ (forall repository,
        let this'' := onDidChangeCurrentHistoryItemGroup repository this in
        sameSettings this'' this
        /\ ((forall id, cacheOwner this x = Some id -> id <> repository_id repository) ->
            fst (getChildren host this'' x) = fst (getChildren host this x))
        /\ ((forall id, cacheOwner this x = Some id -> id = repository_id repository) ->
            fst (getChildren host this'' x)
            = fst (getChildren host (withoutCache this) x))).
Proof.
  assert (Hgen : forall (removed : list ISCMRepository) (this0 : SCMChildren.t),
             let this' := fold_left deleteCacheEntry removed this0 in
             sameSettings this' this0
             /\ ((forall id, cacheOwner this0 x = Some id ->
                             id ∉ map repository_id removed) ->
                 fst (getChildren host this' x) = fst (getChildren host this0 x))
             /\ ((forall id, cacheOwner this0 x = Some id ->
                             id ∈ map repository_id removed) ->
                 fst (getChildren host this' x)
                 = fst (getChildren host (withoutCache this0) x))).
  { clear. intros removed this0 this'. subst this'.
    pose proof (removed_settings removed this0) as Hset.
    split; [exact Hset |]. split.
    - intros Hother. apply getChildren_reads_owner; [exact Hset |].
      intros id Hid. rewrite (cacheOwner_sameSettings _ this0 x Hset) in Hid.
      apply (removed_lookup removed this0 id). now apply Hother.
    - intros Howned. apply getChildren_reads_owner.
      + eapply sameSettings_trans; [exact Hset | apply sameSettings_withoutCache].
      + intros id Hid. rewrite (cacheOwner_sameSettings _ this0 x Hset) in Hid.
        destruct (proj1 (removed_lookup removed this0 id) (Howned id Hid)) as [Hc Hi].
        split; simpl; [now rewrite Hc, lookup_empty | now rewrite Hi, lookup_empty]. }
  intros this' moved. subst this' moved. unfold onDidChangeVisibleRepositories.
  destruct (Hgen removed (withVisibleRepositories this visible)) as (Hset & Hother & Howned).
  split; [| split; [exact Hset | split; [exact Hother | split; [exact Howned |]]]].
  - destruct Hset as (_ & _ & Hsvc & _). now rewrite Hsvc.
  - intros repository. unfold onDidChangeCurrentHistoryItemGroup.
    destruct (Hgen [repository] this) as (Hset1 & Hother1 & Howned1). simpl in *.
    split; [exact Hset1 |]. split.
    + intros Hne. apply Hother1. intros id Hid Hin.
      apply list_elem_of_singleton in Hin. now apply (Hne id).
    + intros Heq. apply Howned1. intros id Hid.
      apply list_elem_of_singleton. now apply Heq.
Qed.

Lemma filter_plain_items (element : SCMHistoryItemGroupTreeElement)
    (l : list ISCMHistoryItem) :
  filter (fun child => hi_type child = historyItem)
    (map (fun item => mkHistoryItem (item_id item) (item_parentIds item)
                        (item_label item) element historyItem) l)
  = map (fun item => mkHistoryItem (item_id item) (item_parentIds item)
                       (item_label item) element historyItem) l.
Proof.
  induction l as [| i l IH]; simpl; [reflexivity |].
  rewrite filter_cons. simpl. now rewrite IH.
Qed.

Ltac summary_cases :=
  match goal with
  | |- context [match ?s with Some _ => [_] | None => [] end] => destruct s
  end.

(** X14. The children of a history item group all belong to that group; only
    the first can be the summary of all changes, and a summary is asked for
    only when the setting is on and the provider gave two items or more.
    Once computed they are held: a later call returns the same children and
    leaves the data source as it is, whatever the provider would answer
    by then. *)
Theorem getHistoryItems_held (this : SCMChildren.t) (element : SCMHistoryItemGroupTreeElement) :
  let children := fst (getHistoryItems host this element) in
  let this' := snd (getHistoryItems host this element) in
  Forall (fun child => historyItemGroup child = element) children
  /\ Forall (fun child => hi_type child = historyItem) (tail children)
  /\ (forall host', getHistoryItems host' this' element = (children, this'))
  /\ (forall hp,
        historyProvider (repository_provider (hig_repository element)) = Some hp ->
        historyItemsMap this (hig_repository element) !! hig_id element = None ->
        let items :=
          default [] (provideHistoryItems host hp (hig_id element) (hig_ancestor element)) in
        map hi_id (filter (fun child => hi_type child = historyItem) children)
        = map item_id items
        /\ (length children <= S (length items))%nat
        /\ (length children = S (length items) ->
            showChangesSummary this = true /\ (2 <= length items)%nat)).
Proof.
  intros children this'. subst children this'. unfold getHistoryItems.
  destruct (historyProvider (repository_provider (hig_repository element)))
    as [hp |] eqn:Hhp; cbn [fst snd].
  2:{ split; [constructor |]. split; [constructor |]. split.
      - intros host'. reflexivity.
      - intros hp' H. discriminate H. }
  destruct (historyItemsMap this (hig_repository element) !! hig_id element)
    as [[summary items] |] eqn:Hlook; cbn [fst snd].
  - (* held already *)
    split; [| split; [| split]].
    + destruct summary; simpl; [constructor; [reflexivity |] |];
        now apply Forall_map, Forall_forall.
    + destruct summary; simpl; [now apply Forall_map, Forall_forall |].
      destruct items; simpl; [constructor |]. now apply Forall_map, Forall_forall.
    + intros host'. rewrite Hlook. reflexivity.
    + intros hp' _ Hnone. discriminate Hnone.
  - (* computed now *)
    split; [| split; [| split]].
    + summary_cases; simpl; [constructor; [reflexivity |] |];
        now apply Forall_map, Forall_forall.
    + summary_cases; simpl; [now apply Forall_map, Forall_forall |].
      destruct (default [] (provideHistoryItems host hp (hig_id element)
                              (hig_ancestor element)));
        simpl; [constructor |]. now apply Forall_map, Forall_forall.
    + intros host'. unfold historyItemsMap at 1. cbn [historyItems].
      rewrite lookup_insert_eq. cbn [from_option id]. rewrite lookup_insert_eq. reflexivity.
    + intros hp' Hhp' _. injection Hhp' as <-.
      destruct (default [] (provideHistoryItems host hp (hig_id element)
                              (hig_ancestor element))) as [| first rest];
        [simpl; repeat split; try lia; intros H; discriminate H |].
      destruct (showChangesSummary this); cbn [andb];
        [destruct rest as [| second rest]; cbn [Nat.leb length] |];
        try (destruct (provideHistoryItemSummary host hp (item_id first)
                         (hig_ancestor element)));
        cbn [app]; rewrite ?filter_cons; cbn [hi_type];
        rewrite ?filter_plain_items, ?map_map; simpl; rewrite ?length_map;
        repeat split; try reflexivity; try lia; try (intros H; lia);
        try (now rewrite map_map).
Qed.
End CacheInvalidation.

(** * The ids of the children of a repository *)

Section SiblingIds.
Import SCM SCMChildren.
Variable host : Host.

Abbreviation ids l := (map getSCMResourceId l).

Lemma ids_differ_by_rank (a b : TreeElement) :
  1 <= rank a <= 5 -> 1 <= rank b <= 5 -> rank a <> rank b ->
  getSCMResourceId a <> getSCMResourceId b.
Proof.
  unfold rank. destruct a, b; simpl; intros Ha Hb Hne Heq; try lia; discriminate Heq.
Qed.

Lemma NoDup_ids_app (k r : nat) (l l' : list TreeElement) :
  rankedUpTo k l -> NoDup (ids l) -> k < r -> r <= 5 ->
  Forall (fun e => rank e = r) l' -> NoDup (ids l') ->
  NoDup (ids (l ++ l')).
Proof.
  intros [_ Hl] Hnd Hk Hr Hl' Hnd'. rewrite map_app. apply NoDup_app.
  split; [exact Hnd |]. split; [| exact Hnd'].
  intros id Hin Hin'.
  apply list_elem_of_fmap in Hin as (a & -> & Ha).
  apply list_elem_of_fmap in Hin' as (b & Heq & Hb).
  pose proof (proj1 (Forall_forall _ _) Hl a Ha) as Ra.
  pose proof (proj1 (Forall_forall _ _) Hl' b Hb) as Rb. simpl in Ra, Rb.
  apply (ids_differ_by_rank a b); [lia | lia | lia | exact Heq].
Qed.

Lemma NoDup_ids_pushIf (k r : nat) (cond : bool) (x : TreeElement) (l : list TreeElement) :
  rankedUpTo k l -> NoDup (ids l) -> k < r -> r <= 5 -> rank x = r ->
  NoDup (ids (pushIf cond x l)).
Proof.
  intros Hl Hnd Hk Hr Hx. unfold pushIf. destruct cond; [| exact Hnd].
  apply (NoDup_ids_app k r); try assumption; [now repeat constructor |].
  simpl. apply NoDup_singleton.
Qed.

Lemma NoDup_map_wrapped {A} (f key : A -> string) (wrap : string -> string) (l : list A) :
  (forall a b, wrap a = wrap b -> a = b) ->
  (forall x, x ∈ l -> f x = wrap (key x)) -> NoDup (map key l) -> NoDup (map f l).
Proof.
  intros Hinj. induction l as [| a l IH]; simpl; intros Hf Hnd; [constructor |].
  apply NoDup_cons in Hnd as [Ha Hnd]. apply NoDup_cons. split.
  - intros Hin. apply Ha. apply list_elem_of_fmap in Hin as (b & Heq & Hb).
    apply list_elem_of_fmap. exists b. split; [| exact Hb].
    rewrite (Hf a), (Hf b) in Heq; [| now right | now left].
    now apply Hinj in Heq.
  - apply IH; [| exact Hnd]. intros x Hx. apply Hf. now right.
Qed.

(** The groups of the repository's provider carry that provider and have
    ids of their own. *)
Definition ownGroups (repository : ISCMRepository) : Prop :=
  Forall (fun g => group_provider g = repository_provider repository)
         (provider_groups host (repository_provider repository))
  /\ NoDup (map group_id (provider_groups host (repository_provider repository))).

(** The history item groups the cache holds for the repository were made
    for a repository of the same provider, and under two ids. *)
Definition cachedGroupsApart (this : SCMTreeDataSource) (repository : ISCMRepository)
  : Prop :=
  let entry := getHistoryProviderCacheEntry this repository in
  (forall g, incomingHistoryItemGroup entry = Some g
             \/ outgoingHistoryItemGroup entry = Some g ->
             provider_id (repository_provider (hig_repository g))
             = provider_id (repository_provider repository))
  /\ (forall gi go, incomingHistoryItemGroup entry = Some gi ->
                    outgoingHistoryItemGroup entry = Some go ->
                    hig_id gi <> hig_id go).

(** The current history item group and its base have different ids. *)
Definition baseApart (repository : ISCMRepository) : Prop :=
  forall hp current b,
    historyProvider (repository_provider repository) = Some hp ->
    currentHistoryItemGroup hp = Some current ->
    SCM.base current = Some b ->
    base_id b <> current_id current.

Lemma groups_apart (repository : ISCMRepository) (cfg : Configuration)
    (inc : option SCMHistoryItemGroupTreeElement) (out : SCMHistoryItemGroupTreeElement) :
  (forall g, inc = Some g \/ out = g ->
             provider_id (repository_provider (hig_repository g))
             = provider_id (repository_provider repository)) ->
  (forall gi, inc = Some gi -> hig_id gi <> hig_id out) ->
  NoDup (ids (map HistoryItemGroup
                (pushIf (shown (showOutgoingChanges cfg) out) out
                   (match inc with
                    | Some g => pushIf (shown (showIncomingChanges cfg) g) g []
                    | None => []
                    end)))).
Proof.
  intros Hprov Hne. unfold pushIf.
  destruct inc as [gi |];
    repeat match goal with |- context [if ?c then _ else _] => destruct c end;
    simpl; try apply NoDup_nil_2; try apply NoDup_singleton.
  apply NoDup_cons. split; [| apply NoDup_singleton].
  intros Hin. apply list_elem_of_singleton in Hin.
  rewrite (Hprov gi (or_introl eq_refl)), (Hprov out (or_intror eq_refl)) in Hin.
  do 3 apply append_prefix_inj in Hin. now apply (Hne gi).
Qed.

Lemma getHistoryItemGroups_ids (this : SCMTreeDataSource) (repository : ISCMRepository) :
  cachedGroupsApart this repository -> baseApart repository ->
  NoDup (ids (map HistoryItemGroup (fst (getHistoryItemGroups this repository)))).
Proof.
  intros [Hprov Hne] Hbase. unfold getHistoryItemGroups.
  destruct (historyProvider (repository_provider repository)) as [hp |] eqn:Hhp;
    [| apply NoDup_nil_2].
  destruct (currentHistoryItemGroup hp) as [current |] eqn:Hcur; [| apply NoDup_nil_2].
  destruct (bothNever (configuration this)); [apply NoDup_nil_2 |].
  destruct (incomingHistoryItemGroup (getHistoryProviderCacheEntry this repository))
    as [gi |] eqn:Hin;
    destruct (outgoingHistoryItemGroup (getHistoryProviderCacheEntry this repository))
      as [go |] eqn:Hout; cbn [fst].
  - apply (groups_apart repository (configuration this) (Some gi) go).
    + intros g [Hg | <-]; [injection Hg as <- |]; apply Hprov; [now left | now right].
    + intros g Hg. injection Hg as <-. now apply Hne.
  - unfold pushIf.
    destruct (shown (showIncomingChanges (configuration this)) gi); simpl;
      [apply NoDup_singleton | apply NoDup_nil_2].
  - apply (groups_apart repository (configuration this) None go).
    + intros g [Hg | <-]; [discriminate Hg |]. apply Hprov. now right.
    + intros g Hg. discriminate Hg.
  - destruct (resolveHistoryItemGroupCommonAncestor hp (current_id current)
                (base_id <$> SCM.base current)) as [ancestor |]; [| apply NoDup_nil_2].
    cbn [fst].
    destruct (SCM.base current) as [b |] eqn:Hb.
    + apply (groups_apart repository (configuration this)
               (Some (mkHistoryItemGroup (base_id b) (base_label b)
                        ("Incoming changes from " +:+ base_label b) incoming
                        (Some (ancestor_id ancestor)) (Some (behind ancestor))
                        repository))).
      * intros g [Hg | <-]; [injection Hg as <- |]; reflexivity.
      * intros g Hg. injection Hg as <-. simpl. now apply (Hbase hp current b).
    + apply (groups_apart repository (configuration this) None).
      * intros g [Hg | <-]; [discriminate Hg | reflexivity].
      * intros g Hg. discriminate Hg.
Qed.

(** X15. The children of a repository get pairwise different tree ids, when the
    provider's resource groups are its own and differ in their ids, and the
    incoming and the outgoing history item group differ in theirs. *)
Theorem repository_children_distinct_ids
    (this : SCMChildren.t) (repository : ISCMRepository) :
  ownGroups repository ->
  cachedGroupsApart (base this) repository ->
  baseApart repository ->
  NoDup (ids (fst (getChildren host this (Element (Repository repository))))).
Proof.
  intros [Hown Hgids] Hcache Hbase.
  pose proof (getHistoryItemGroups_ids (base this) repository Hcache Hbase) as Hgroups.
  unfold getChildren. simpl. unfold repositoryChildren.
  destruct (getHistoryItemGroups (base this) repository) as [groups base']. simpl in *.
  assert (Hfront : let front :=
            pushIf (showActionButton this
                    && provider_hasActionButton host (repository_provider repository))
              (ActionButton (mkActionButton repository))
              (pushIf (input_visible host (repository_input host repository))
                 (Input (repository_input host repository)) []) in
            rankedUpTo 2 front /\ NoDup (ids front)).
  { assert (H1 : rankedUpTo 1
                   (pushIf (input_visible host (repository_input host repository))
                      (Input (repository_input host repository)) [])).
    { apply (rankedUpTo_pushIf 0); [split; constructor | lia | lia | reflexivity]. }
    split.
    - apply (rankedUpTo_pushIf 1); [exact H1 | lia | lia | reflexivity].
    - apply (NoDup_ids_pushIf 1 2); [exact H1 | | lia | lia | reflexivity].
      apply (NoDup_ids_pushIf 0 1); [split; constructor | constructor | lia | lia | reflexivity]. }
  destruct Hfront as [Hr2 Hn2].
  assert (Hmid : let mid :=
            if existsb (fun group => 0 <? length (group_resources host group))
                 (provider_groups host (repository_provider repository))
               || (length (visibleRepositories (scmViewService (base this))) =? 1)
                  && (negb (showActionButton this)
                      || negb (provider_hasActionButton host
                                 (repository_provider repository)))
            then pushIf (showActionButton this
                         && provider_hasActionButton host (repository_provider repository))
                   (ActionButton (mkActionButton repository))
                   (pushIf (input_visible host (repository_input host repository))
                      (Input (repository_input host repository)) [])
                 ++ map ResourceGroup
                      (provider_groups host (repository_provider repository))
            else pushIf (showActionButton this
                         && provider_hasActionButton host (repository_provider repository))
                   (ActionButton (mkActionButton repository))
                   (pushIf (input_visible host (repository_input host repository))
                      (Input (repository_input host repository)) []) in
            rankedUpTo 3 mid /\ NoDup (ids mid)).
  { match goal with |- context [if ?c then _ else _] => destruct c end; simpl.
    - assert (Hranks : Forall (fun e => rank e = 3)
                         (map ResourceGroup
                            (provider_groups host (repository_provider repository)))).
      { apply Forall_forall. intros e He.
        apply list_elem_of_fmap in He as (g & -> & _). reflexivity. }
      split.
      + apply (rankedUpTo_app 2); [exact Hr2 | lia | lia | exact Hranks | now right; left].
      + apply (NoDup_ids_app 2 3); [exact Hr2 | exact Hn2 | lia | lia | exact Hranks |].
        rewrite map_map.
        apply (NoDup_map_wrapped _ group_id
                 (fun id => "resourceGroup:"
                            +:+ provider_id (repository_provider repository)
                            +:+ "/" +:+ id)); [| | exact Hgids].
        * intros a b Heq. now do 3 apply append_prefix_inj in Heq.
        * intros g Hg. simpl. now rewrite (proj1 (Forall_forall _ _) Hown g Hg).
    - split; [apply (rankedUpTo_weaken 2); [lia | exact Hr2] | exact Hn2]. }
  destruct Hmid as [Hr3 Hn3].
  apply (NoDup_ids_app 4 5); [| | lia | lia | | exact Hgroups].
  - apply (rankedUpTo_pushIf 3); [exact Hr3 | lia | lia | reflexivity].
  - apply (NoDup_ids_pushIf 3 4); [exact Hr3 | exact Hn3 | lia | lia | reflexivity].
  - apply Forall_forall. intros e He. apply list_elem_of_fmap in He as (g & -> & _).
    reflexivity.
Qed.
End SiblingIds.

(** * Revealing the resource of the active editor *)

Section RevealOrder.
Import SCM Reveal.
Variable isEqual : URI -> URI -> bool.
Variable hasItem : ISCMRepository -> bool.
Variable groups : ISCMProvider -> list ISCMResourceGroup.
Variable resources : ISCMResourceGroup -> list ISCMResource.
Variable treeElement : ISCMResourceGroup -> URI -> option ISCMResource.

Abbreviation target := (revealTarget isEqual hasItem groups resources treeElement).


Lemma find_first {A} (f : A -> bool) (l : list A) :
  match List.find f l with
  | Some x => exists l1 l2, l = l1 ++ x :: l2 /\ f x = true
                            /\ forall y, y ∈ l1 -> f y = false
  | None => forall y, y ∈ l -> f y = false
  end.
Proof.
  induction l as [| a l IH]; simpl.
  - intros y Hy. now apply elem_of_nil in Hy.
  - destruct (f a) eqn:Ha.
    + exists [], l. repeat split; [exact Ha |]. intros y Hy. now apply elem_of_nil in Hy.
    + destruct (List.find f l) as [x |].
      * destruct IH as (l1 & l2 & -> & Hx & Hl1). exists (a :: l1), l2.
        repeat split; [exact Hx |]. intros y Hy.
        apply elem_of_cons in Hy as [-> | Hy]; [exact Ha | now apply Hl1].
      * intros y Hy. apply elem_of_cons in Hy as [-> | Hy]; [exact Ha | now apply IH].
Qed.




Abbreviation handler :=
  (onDidActiveEditorChange isEqual hasItem groups resources treeElement).

End RevealOrder.

(** * The toolbar of the input box *)

Section ToolbarActions.
Import SCMInputWidgetToolbar.

(** The choice of the primary action. *)
Lemma updateToolbar_primary (menuActions : list IAction) (isEnabled : bool)
    (lastActionId : string) :
  let toolbar := updateToolbar menuActions isEnabled lastActionId in
  (primaryActions toolbar = [] <-> menuActions = [])
  /\ (length (primaryActions toolbar) <= 1)%nat
  /\ (forall action, action ∈ primaryActions toolbar ->
        action_id action ∈ map action_id menuActions
        /\ (2 <= length menuActions -> action ∈ _dropdownActions toolbar)%nat
        /\ (2 <= length menuActions -> lastActionId ∈ map action_id menuActions ->
            action_id action = lastActionId)%nat
        /\ (lastActionId ∉ map action_id menuActions ->
            Some (action_id action) = head (map action_id menuActions)))
  /\ (length menuActions = 1%nat <-> _dropdownActions toolbar = [] /\ menuActions <> [])
  /\ Forall (fun action => action_enabled action = isEnabled)
            (primaryActions toolbar ++ _dropdownActions toolbar).
Proof.
  intros toolbar. subst toolbar. unfold updateToolbar.
  destruct menuActions as [| a [| b rest]].
  - simpl. split; [split; reflexivity |]. split; [lia |].
    split; [intros action Ha; now apply elem_of_nil in Ha |].
    split; [| constructor].
    split; [intros H; discriminate H | intros [_ H]; now contradiction H].
  - simpl. split; [split; discriminate |]. split; [lia |]. split.
    { intros action Ha. apply list_elem_of_singleton in Ha as ->. simpl.
      split; [apply list_elem_of_here |]. split; [intros H; lia |].
      split; [intros H; lia | intros _; reflexivity]. }
    split; [| repeat constructor].
    split; [intros _; split; [reflexivity | discriminate] | intros _; reflexivity].
  - set (actions := map (fun action => mkAction (action_id action) isEnabled)
                        (a :: b :: rest)).
    assert (Hids : map action_id actions = map action_id (a :: b :: rest)).
    { subst actions. rewrite map_map. reflexivity. }
    assert (Henabled : Forall (fun action => action_enabled action = isEnabled) actions).
    { subst actions. apply Forall_forall. intros x Hx.
      apply list_elem_of_fmap in Hx as (y & -> & _). reflexivity. }
    pose proof (find_first (fun x => String.eqb (action_id x) lastActionId) actions) as Hfind.
    change (map (fun action => mkAction (action_id action) isEnabled) (a :: b :: rest))
      with actions.
    assert (Hshape : exists first others, actions = first :: others
                                          /\ action_id first = action_id a).
    { subst actions. simpl. eauto. }
    destruct Hshape as (first & others & Hactions & Hfirst).
    assert (Hlen : length actions = S (S (length rest))).
    { subst actions. simpl. now rewrite length_map. }
    replace (match actions with
             | [] => None
             | [action] => Some action
             | first0 :: _ :: _ =>
                 match List.find (fun x => String.eqb (action_id x) lastActionId) actions with
                 | Some action => Some action
                 | None => Some first0
                 end
             end)
      with (match List.find (fun x => String.eqb (action_id x) lastActionId) actions with
            | Some action => Some action
            | None => Some first
            end).
    2:{ rewrite Hactions. rewrite Hactions in Hlen.
        destruct others; [simpl in Hlen; lia | reflexivity]. }
    rewrite Hlen. simpl (S (S (length rest)) =? 1).
    cbn [_dropdownActions primaryActions _dropdownActionEnabled].
    destruct (List.find (fun x => String.eqb (action_id x) lastActionId) actions)
      as [found |].
    + destruct Hfind as (l1 & l2 & Hsplit & Hmatch & Hbefore).
      apply String.eqb_eq in Hmatch.
      assert (Hin : found ∈ actions).
      { rewrite Hsplit. apply elem_of_app. right. apply list_elem_of_here. }
      split; [split; discriminate |]. split; [simpl; lia |]. split; [| split].
      * intros action Ha. apply list_elem_of_singleton in Ha as ->.
        split; [rewrite <- Hids; now apply list_elem_of_fmap_2 |].
        split; [intros _; exact Hin |]. split; [intros _ _; exact Hmatch |].
        intros Hnot. exfalso. apply Hnot. rewrite <- Hids, <- Hmatch.
        now apply list_elem_of_fmap_2.
      * split; [intros H; simpl in H; lia |]. intros [H _].
        rewrite H in Hlen. discriminate Hlen.
      * apply Forall_cons. split; [| exact Henabled].
        exact (proj1 (Forall_forall _ _) Henabled found Hin).
    + assert (Hin : first ∈ actions) by (rewrite Hactions; apply list_elem_of_here).
      split; [split; discriminate |]. split; [simpl; lia |]. split; [| split].
      * intros action Ha. apply list_elem_of_singleton in Ha as ->.
        split; [rewrite <- Hids; now apply list_elem_of_fmap_2 |].
        split; [intros _; exact Hin |]. split.
        -- intros _ Hlast. exfalso. rewrite <- Hids in Hlast.
           apply list_elem_of_fmap in Hlast as (x & Hx & Hxin).
           pose proof (Hfind x Hxin) as Hno. simpl in Hno.
           apply String.eqb_neq in Hno. congruence.
        -- intros _. simpl. now rewrite Hfirst.
      * split; [intros H; simpl in H; lia |]. intros [H _].
        rewrite H in Hlen. discriminate Hlen.
      * apply Forall_cons. split; [| exact Henabled].
        exact (proj1 (Forall_forall _ _) Henabled first Hin).
Qed.

(** X17. The primary action is one of the menu's actions, there is one exactly
    when the menu has an action, and it is the action used last when the menu
    has several and that one is among them, the first action when it is not;
    a single action is the primary action and leaves the dropdown empty;
    otherwise the dropdown holds all the actions of the menu, in the menu's
    order, the primary one too; and every action, like the dropdown itself,
    is enabled exactly when the provider has changes. *)
Theorem updateToolbar_primary_action (menuActions : list IAction) (isEnabled : bool)
    (lastActionId : string) :
  let toolbar := updateToolbar menuActions isEnabled lastActionId in
  (primaryActions toolbar = [] <-> menuActions = [])
  /\ (length (primaryActions toolbar) <= 1)%nat
  /\ (forall action, action ∈ primaryActions toolbar ->
        action_id action ∈ map action_id menuActions
        /\ (2 <= length menuActions -> action ∈ _dropdownActions toolbar)%nat
        /\ (2 <= length menuActions -> lastActionId ∈ map action_id menuActions ->
            action_id action = lastActionId)%nat
        /\ (lastActionId ∉ map action_id menuActions ->
            Some (action_id action) = head (map action_id menuActions)))
  /\ (length menuActions = 1%nat <-> _dropdownActions toolbar = [] /\ menuActions <> [])
  /\ Forall (fun action => action_enabled action = isEnabled)
            (primaryActions toolbar ++ _dropdownActions toolbar)
  /\ (length menuActions <> 1%nat ->
      _dropdownActions toolbar
      = map (fun action => mkAction (action_id action) isEnabled) menuActions)
  /\ (length menuActions = 1%nat ->
      primaryActions toolbar
      = map (fun action => mkAction (action_id action) isEnabled) menuActions)
  /\ _dropdownActionEnabled toolbar = isEnabled.
Proof.
  intros toolbar.
  pose proof (updateToolbar_primary menuActions isEnabled lastActionId) as H.
  cbv zeta in H. fold toolbar in H. destruct H as (H1 & H2 & H3 & H4 & H5).
  split; [exact H1 |]. split; [exact H2 |]. split; [exact H3 |].
  split; [exact H4 |]. split; [exact H5 |].
  subst toolbar. unfold updateToolbar. cbn [_dropdownActions primaryActions
                                            _dropdownActionEnabled].
  split; [| split; [| reflexivity]].
  - intros Hne. rewrite length_map.
    destruct (Nat.eqb_spec (length menuActions) 1) as [Hone | _];
      [now contradiction Hne | reflexivity].
  - intros Hone. destruct menuActions as [| a [| b rest]]; try discriminate Hone.
    reflexivity.
Qed.
End ToolbarActions.

(** * Concrete runs: the notebook chat controller *)

Section ChatRuns.
Import EditStrategy.

Lemma cursorStateComputer_permutation_witness :
  cursorStateComputer [editAt 7 3 "b"; editAt 2 5 "a"; editAt 7 3 "c"]
  = cursorStateComputer [editAt 2 5 "a"; editAt 7 3 "b"; editAt 7 3 "c"]
  /\ (cursorStateComputer [editAt 7 3 "b"; editAt 2 5 "a"; editAt 7 3 "c"] = None
      <-> [editAt 7 3 "b"; editAt 2 5 "a"; editAt 7 3 "c"] = []).
Proof.
  apply (cursorStateComputer_permutation
           [editAt 7 3 "b"; editAt 2 5 "a"; editAt 7 3 "c"]
           [editAt 2 5 "a"; editAt 7 3 "b"; editAt 7 3 "c"]).
  apply perm_swap.
Defined.

Lemma cancel_idempotent_witness :
  cancel (cancel session0) = cancel session0 /\ cancel session0 = session0.
Proof.
  split.
  - exact (proj1 (cancel_idempotent session0)).
  - apply (proj2 (cancel_idempotent session0)). reflexivity.
Defined.

Definition cellSeven : NotebookChatWidget.CellViewModel := NotebookChatWidget.mkCell 7.
Definition cellEight : NotebookChatWidget.CellViewModel := NotebookChatWidget.mkCell 8.

(** The notebook would insert a cell on each call; the focused editor has
    no model during the second. *)
Definition threeAnswers : list NotebookChatWidget.NotebookAnswers :=
  [NotebookChatWidget.mkAnswers true (Some cellSeven) true;
   NotebookChatWidget.mkAnswers true (Some cellEight) false;
   NotebookChatWidget.mkAnswers true (Some cellEight) true].

Lemma editing_cell_inserted_once_witness :
  let w := fst (NotebookChatWidget.calls threeAnswers NotebookChatWidget.create) in
  snd (NotebookChatWidget.calls threeAnswers NotebookChatWidget.create)
  = [Some cellSeven; None; Some cellSeven]
  /\ NotebookChatWidget.insertedCells w = [cellSeven]
  /\ NotebookChatWidget.deletedCells
       (NotebookChatWidget.discardChange
          (NotebookChatWidget.mkAnswers true None false) w)
     = NotebookChatWidget.insertedCells w.
Proof.
  destruct (editing_cell_inserted_once threeAnswers) as (_ & Hcell & Hdiscard).
  split; [reflexivity |]. split.
  - apply Hcell. apply list_elem_of_here.
  - apply Hdiscard. reflexivity.
Defined.

(** Three cells of height 100, one below the other. *)
Definition threeCells (i : Z) : option ScrollWidget.CellLayout :=
  if (0 <=? i)%Z && (i <? 3)%Z then Some (ScrollWidget.mkLayout (100 * i) 100) else None.

Lemma scrollWidgetIntoView_in_range_witness :
  exists offset,
    ScrollWidget._scrollWidgetIntoView threeCells 3 5 = ScrollWidget.RevealOffset offset
    /\ (5 = 0 \/ 3 = 0 -> offset = 0)%Z
    /\ ((1 <= 5 <= 3)%Z ->
        exists cell, threeCells (5 - 1)%Z = Some cell
                     /\ offset = (ScrollWidget.absoluteTop cell + ScrollWidget.height cell)%Z)
    /\ ((1 <= 3 < 5)%Z ->
        exists cell, threeCells (3 - 1)%Z = Some cell
                     /\ offset = (ScrollWidget.absoluteTop cell + ScrollWidget.height cell)%Z).
Proof.
  apply (scrollWidgetIntoView_in_range threeCells 3 5); [lia | lia |].
  intros i Hi. unfold threeCells.
  destruct (Z.leb_spec 0 i); [| lia]. destruct (Z.ltb_spec i 3); [| lia].
  simpl. eauto.
Defined.

(** A progressive batch, a batch the worker found to change nothing, and an
    instant batch that the worker made smaller. *)
Definition threeBatches : list MakeChanges.Call :=
  [MakeChanges.mkCall [editAt 1 9 "print(2)"] (Some (mkOpts 50 false))
     (NotebookChatWidget.mkAnswers true (Some cellSeven) true) None;
   MakeChanges.mkCall [editAt 1 9 "print(2)"] None
     (NotebookChatWidget.mkAnswers true None true) (Some []);
   MakeChanges.mkCall [editAt 1 9 "print(30)"] None
     (NotebookChatWidget.mkAnswers true None true) (Some [editAt 1 9 "print(3)"])].

Lemma makeChanges_run_one_undo_stop_witness :
  exists st',
    MakeChanges.runCalls lastText assertionMessage threeBatches
      (MakeChanges.mk (Some session0) (Some create) (Some NotebookChatWidget.create)
         (mkEditor model0 []) false [])
    = Returned st'
    /\ MakeChanges.trackedEdits st'
       = [[editAt 1 9 "print(2)"]; [editAt 1 9 "print(3)"]]
    /\ calls (MakeChanges.cellEditor st')
       = [PushUndoStop; PerformAsyncTextEdit (editAt 1 9 "print(2)") 50;
          ExecuteEdits "inline-chat-live" [editAt 1 9 "print(3)"]]
    /\ undoStops (MakeChanges.cellEditor st') = 1
    /\ MakeChanges.markedChanged st' = true.
Proof.
  destruct (makeChanges_run_one_undo_stop lastText assertionMessage threeBatches session0
              NotebookChatWidget.create (mkEditor model0 []) eq_refl)
    as (st' & Hrun & _ & _ & Htracked & Hcalls & Hstops & Hmarked & _).
  exists st'. split; [exact Hrun |]. split; [exact Htracked |].
  split; [exact Hcalls |]. split; [exact Hstops | exact Hmarked].
Defined.

Example makeChanges_run_example :
  match MakeChanges.runCalls lastText assertionMessage threeBatches
          (MakeChanges.mk (Some session0) (Some create) (Some NotebookChatWidget.create)
             (mkEditor model0 []) false []) with
  | Returned st' =>
      MakeChanges.trackedEdits st'
      = [[editAt 1 9 "print(2)"]; [editAt 1 9 "print(3)"]]
      /\ undoStops (MakeChanges.cellEditor st') = 1
      /\ TextModel.getValue (getModel (MakeChanges.cellEditor st')) = "print(3)"
  | Thrown _ => False
  end.
Proof. repeat split. Qed.
End ChatRuns.

Section AcceptInputRuns.
Import NotebookChatController.

(** The provider call itself throws. *)
Definition throwingProvider : Request :=
  mkRequest (Thrown "no provider") (Returned tt) (Returned tt) (Returned tt).

Lemma acceptInput_outcomes_witness :
  exists session',
    _activeSession (fst (acceptInput assertionMessage throwingProvider controller0)) = Some session'
    /\ inputs session' = ["add a test"]
    /\ exchanges session' = []
    /\ snd (acceptInput assertionMessage throwingProvider controller0) = Thrown "no provider"
    /\ _ctxHasActiveRequest (fst (acceptInput assertionMessage throwingProvider controller0)) = true.
Proof.
  destruct (acceptInput_outcomes assertionMessage throwingProvider controller0)
    as (session' & Hs & Hin & _ & _ & _ & _ & Hthrow & Hleft & _).
  exists session'. split; [exact Hs |]. split; [exact Hin |].
  destruct (Hleft eq_refl) as [Hkey Hex].
  split; [exact Hex |]. split; [| exact Hkey].
  apply Hthrow. split; reflexivity.
Defined.
End AcceptInputRuns.

(** * Concrete runs: the SCM view *)

Section FilterRuns.
Import SCM ResourceRenderer.

(** A score that is the list of its matches. *)
Definition matchesOf (d : FilterData (list IMatch)) : list IMatch :=
  match d with
  | FuzzyScoreData score => score
  | LabelFuzzyScoreData _ score => score
  end.

Definition fileB : URI := mkURI "file:///w/src/b.ts" "b.ts".

(** Matches in the path, across the separator, and in the file name. *)
Definition scoreB : list IMatch := [mkMatch 0 2; mkMatch 3 5; mkMatch 6 8].

Lemma processFilterData_splits_matches_witness :
  exists labelMatches descriptionMatches,
    _processFilterData (list IMatch) matchesOf wholePath fileB
      (Some (LabelFuzzyScoreData "src/b.ts" scoreB))
    = (Some labelMatches, Some descriptionMatches)
    /\ Forall (matchWithin (strlen (wholePath fileB))) labelMatches
    /\ Forall (matchWithin (strlen "src/b.ts" - strlen (wholePath fileB)))
              descriptionMatches
    /\ (matchedLength labelMatches + matchedLength descriptionMatches
        = matchedLength (matchesOf (FuzzyScoreData scoreB)))%Z
    /\ (length (matchesOf (FuzzyScoreData scoreB))
        <= length labelMatches + length descriptionMatches)%nat.
Proof.
  apply (processFilterData_splits_matches (list IMatch) matchesOf wholePath fileB
           "src/b.ts" scoreB).
  - discriminate.
  - discriminate.
  - unfold scoreB. simpl.
    repeat (apply Forall_cons; split; [unfold matchWithin, strlen; simpl; lia |]).
    apply Forall_nil_2.
Defined.

Example processFilterData_example :
  _processFilterData (list IMatch) matchesOf wholePath fileB
    (Some (LabelFuzzyScoreData "src/b.ts" scoreB))
  = (Some [mkMatch 0 1; mkMatch 2 4], Some [mkMatch 0 2; mkMatch 3 4]).
Proof. reflexivity. Qed.
End FilterRuns.

Section VisibilityRuns.
Import SCM RepositoryVisibilityActionController.

Definition allVisible (_ : string) : bool := true.
Definition onlyRepoA (id : string) : bool := String.eqb id "repoA".

Definition twoAdded : list ((string -> bool) * Event) :=
  [(allVisible, AddRepository repoA); (allVisible, AddRepository repoMain);
   (allVisible, AddRepository repoA)].

Lemma repository_context_keys_count_witness :
  let this := run (twoAdded ++ [(onlyRepoA, ChangeVisibleRepositories)]) create in
  repositoryCountContextKey this = 2%Z
  /\ repositoryVisibilityCountContextKey this = 1%Z
  /\ Forall (fun kv => snd kv = onlyRepoA (fst kv)) (items this).
Proof.
  destruct (repository_context_keys_count twoAdded onlyRepoA ChangeVisibleRepositories)
    as (_ & _ & _ & _ & _ & Hall).
  split; [reflexivity |]. split; [reflexivity |]. exact (Hall eq_refl).
Defined.
End VisibilityRuns.

Section ChildrenRuns.
Import SCM SCMChildren.

(** A provider with an action button and two resource groups of one
    resource each, an empty folder tree, and two history items. *)
Definition hostA : Host :=
  mkHost
    (fun repository => mkInput repository "")
    (fun _ => true)
    (fun _ => true)
    (fun provider =>
       [mkResourceGroup provider "index" "Staged Changes";
        mkResourceGroup provider "workingTree" "Changes"])
    (fun group => [mkResource group (mkURI "file:///w/a.ts" "/w/a.ts") None])
    (fun _ => [])
    (fun _ => [])
    (fun _ => [])
    (fun _ _ _ => Some [mkItem "c2" ["c1"] "second"; mkItem "c1" ["c0"] "first"])
    (fun _ id _ => Some (mkItem id [] "summary"))
    noTree.

Definition sourceA : SCMChildren.t := mk sourceAuto ∅ false true true.

Definition stagedA : ISCMResourceGroup :=
  mkResourceGroup (repository_provider repoMain) "index" "Staged Changes".

Definition outgoingMain : SCMHistoryItemGroupTreeElement :=
  mkHistoryItemGroup "main" "main" "Outgoing changes to main" outgoing (Some "c0")
    (Some 2%Z) repoMain.

Example getChildren_repository_example :
  map kind (fst (getChildren hostA sourceA (Element (Repository repoMain))))
  = [KInput; KActionButton; KResourceGroup; KResourceGroup; KSeparator; KHistoryItemGroup]
  /\ fst (getChildren hostA sourceA (ViewService (mkViewService [])))
     = fst (getChildren hostA sourceA (Element (Repository repoMain)))
  /\ map hi_label (fst (getHistoryItems hostA sourceA outgoingMain))
     = ["All Changes"; "second"; "first"].
Proof. repeat split. Qed.

Lemma getChildren_in_sorter_order_witness :
  inOrder
    (keepsOrder (sorterOf wholePath codeUnitCompare codeUnitCompare codeUnitCompare
                   SortPath sourceA))
    (fst (getChildren hostA sourceA (Element (Repository repoMain)))).
Proof.
  apply (getChildren_in_sorter_order hostA wholePath codeUnitCompare codeUnitCompare
           codeUnitCompare SortPath sourceA (Element (Repository repoMain))).
  reflexivity.
Defined.

Lemma getChildren_siblings_comparable_witness :
  exists n,
    sorterOf wholePath codeUnitCompare codeUnitCompare codeUnitCompare SortStatus sourceA
      (Resource (mkResource stagedA (mkURI "file:///w/a.ts" "/w/a.ts") None))
      (Resource (mkResource stagedA (mkURI "file:///w/a.ts" "/w/a.ts") None))
    = Returned n.
Proof.
  apply (getChildren_siblings_comparable hostA wholePath codeUnitCompare codeUnitCompare
           codeUnitCompare SortStatus sourceA (Element (ResourceGroup stagedA))).
  - discriminate.
  - intros item changes. constructor.
  - apply list_elem_of_here.
  - apply list_elem_of_here.
Defined.

Definition emptyFolder : IResourceNode ISCMResourceGroup :=
  mkNode stagedA (mkURI "file:///w/src" "/w/src") "src" 0.

Lemma hasChildren_false_no_children_witness :
  getChildren hostA sourceA (Element (ResourceNode emptyFolder)) = ([], sourceA).
Proof.
  apply (proj1 (hasChildren_false_no_children hostA sourceA
                  (Element (ResourceNode emptyFolder)) eq_refl)).
  reflexivity.
Defined.



(** The data source after the repository and its outgoing group have been
    expanded. *)
Definition expandedA : SCMChildren.t :=
  snd (getChildren hostA
         (snd (getChildren hostA sourceA (Element (Repository repoMain))))
         (Element (HistoryItemGroup outgoingMain))).

(** The view gains [repoA]; then it loses [repoMain]. *)
Lemma cache_invalidation_scoped_witness :
  visibleRepositories
    (scmViewService
       (base (onDidChangeVisibleRepositories [repoMain; repoA] [repoA] [] expandedA)))
  = [repoMain; repoA]
  /\ fst (getChildren hostA
            (onDidChangeVisibleRepositories [repoMain; repoA] [repoA] [] expandedA)
            (Element (HistoryItemGroup outgoingMain)))
     = fst (getChildren hostA (withVisibleRepositories expandedA [repoMain; repoA])
              (Element (HistoryItemGroup outgoingMain)))
  /\ fst (getChildren hostA
            (onDidChangeVisibleRepositories [repoA] [] [repoMain] expandedA)
            (Element (HistoryItemGroup outgoingMain)))
     = fst (getChildren hostA (withoutCache (withVisibleRepositories expandedA [repoA]))
              (Element (HistoryItemGroup outgoingMain)))
  /\ fst (getChildren hostA (onDidChangeCurrentHistoryItemGroup repoMain expandedA)
            (Element (HistoryItemGroup outgoingMain)))
     = fst (getChildren hostA (withoutCache expandedA)
              (Element (HistoryItemGroup outgoingMain))).
Proof.
  split; [| split; [| split]].
  - exact (proj1 (cache_invalidation_scoped hostA [repoMain; repoA] [repoA] [] expandedA
                    (Element (HistoryItemGroup outgoingMain)))).
  - destruct (cache_invalidation_scoped hostA [repoMain; repoA] [repoA] [] expandedA
                (Element (HistoryItemGroup outgoingMain))) as (_ & _ & Hother & _).
    apply Hother. intros id Hid Hin. now apply elem_of_nil in Hin.
  - destruct (cache_invalidation_scoped hostA [repoA] [] [repoMain] expandedA
                (Element (HistoryItemGroup outgoingMain))) as (_ & _ & _ & Howned & _).
    apply Howned. intros id Hid. injection Hid as <-. apply list_elem_of_here.
  - destruct (cache_invalidation_scoped hostA [] [] [] expandedA
                (Element (HistoryItemGroup outgoingMain))) as (_ & _ & _ & _ & Hgroup).
    destruct (Hgroup repoMain) as (_ & _ & Howned).
    apply Howned. intros id Hid. now injection Hid as <-.
Defined.

(** The removal of another repository changes the children of [repoMain]
    through the number of visible repositories, not through the cache: no
    action button and no changes, so the groups show only while [repoMain] is
    the one visible repository. *)
Definition hostQuiet : Host :=
  mkHost
    (fun repository => mkInput repository "")
    (fun _ => true)
    (fun _ => false)
    (fun provider => [mkResourceGroup provider "workingTree" "Changes"])
    (fun _ => [])
    (fun _ => [])
    (fun _ => [])
    (fun _ => [])
    (fun _ _ _ => None)
    (fun _ _ _ => None)
    noTree.

Definition twoVisible : SCMChildren.t :=
  mk (mkDataSource ViewModeList (mkConfiguration never never)
        (mkViewService [repoA; repoMain]) ∅)
     ∅ true true true.

Example removal_changes_repository_count :
  map kind (fst (getChildren hostQuiet twoVisible (Element (Repository repoMain))))
  = [KInput]
  /\ map kind
       (fst (getChildren hostQuiet
               (onDidChangeVisibleRepositories [repoMain] [] [repoA] twoVisible)
               (Element (Repository repoMain))))
     = [KInput; KResourceGroup].
Proof. split; reflexivity. Qed.

Lemma getHistoryItems_held_witness :
  let children := fst (getHistoryItems hostA sourceA outgoingMain) in
  map hi_id (filter (fun child => hi_type child = historyItem) children) = ["c2"; "c1"]
  /\ (length children <= 3)%nat
  /\ (length children = 3 -> showChangesSummary sourceA = true /\ (2 <= 2)%nat).
Proof.
  apply (proj2 (proj2 (proj2 (getHistoryItems_held hostA sourceA outgoingMain)))
           historyMain);
    reflexivity.
Defined.

Lemma repository_children_distinct_ids_witness :
  NoDup (map getSCMResourceId
           (fst (getChildren hostA sourceA (Element (Repository repoMain))))).
Proof.
  apply (repository_children_distinct_ids hostA sourceA repoMain).
  - split; [repeat constructor |].
    apply (bool_decide_unpack _). vm_compute. exact I.
  - split.
    + intros g [H | H]; discriminate H.
    + intros gi go H. discriminate H.
  - intros hp current b Hhp Hcur Hb.
    injection Hhp as <-. injection Hcur as <-. injection Hb as <-. discriminate.
Defined.
End ChildrenRuns.

Section RevealRuns.
Import SCM SCMChildren Reveal.

Definition sameUri (a b : URI) : bool := String.eqb (uri_toString a) (uri_toString b).
Definition everyItem (_ : ISCMRepository) : bool := true.
Definition noTreeElement (_ : ISCMResourceGroup) (_ : URI) : option ISCMResource := None.
Definition fileA : URI := mkURI "file:///w/a.ts" "/w/a.ts".

Example revealTarget_example :
  group_id <$> (resourceGroup
                  <$> revealTarget sameUri everyItem (provider_groups hostA)
                        (group_resources hostA) noTreeElement ViewModeList fileA
                        [repoA; repoMain])
  = Some "workingTree".
Proof. reflexivity. Qed.

Example onDidActiveEditorChange_guards :
  onDidActiveEditorChange sameUri everyItem (provider_groups hostA)
    (group_resources hostA) noTreeElement false (Some fileA) [] [] ViewModeList
    [repoA; repoMain]
  = NothingQueued
  /\ onDidActiveEditorChange sameUri everyItem (provider_groups hostA)
       (group_resources hostA) noTreeElement true (Some fileA)
       [Resource (mkResource stagedA fileA None)]
       [Resource (mkResource stagedA fileA None)] ViewModeList [repoA; repoMain]
     = NothingQueued
  /\ onDidActiveEditorChange sameUri everyItem (provider_groups hostA)
       (group_resources hostA) noTreeElement true (Some fileA)
       [Resource (mkResource stagedA fileA None)] [] ViewModeList [repoA; repoMain]
     = QueuedReveal
         (Some (mkResource
                  (mkResourceGroup (repository_provider repoA) "workingTree" "Changes")
                  fileA None)).
Proof. repeat split. Qed.

End RevealRuns.

Section ToolbarRuns.
Import SCMInputWidgetToolbar.

Definition commitAndAmend : list IAction :=
  [mkAction "git.commit" false; mkAction "git.commitAmend" false].

Lemma updateToolbar_primary_action_witness :
  let toolbar := updateToolbar commitAndAmend true "git.commitAmend" in
  primaryActions toolbar = [mkAction "git.commitAmend" true]
  /\ _dropdownActions toolbar
     = [mkAction "git.commit" true; mkAction "git.commitAmend" true]
  /\ mkAction "git.commitAmend" true ∈ _dropdownActions toolbar
  /\ action_id (mkAction "git.commitAmend" true) = "git.commitAmend".
Proof.
  destruct (updateToolbar_primary_action commitAndAmend true "git.commitAmend")
    as (_ & _ & Hprimary & _ & _ & Hall & _).
  destruct (Hprimary (mkAction "git.commitAmend" true) (list_elem_of_here _ _))
    as (_ & Hdropdown & Hlast & _).
  split; [reflexivity |]. split; [| split].
  - apply Hall. simpl. lia.
  - apply Hdropdown. simpl. lia.
  - apply Hlast; [simpl; lia |]. apply list_elem_of_further, list_elem_of_here.
Defined.
End ToolbarRuns.
